(** * DoctorPath AI: the doctor-request workflow and the risk scorer

    A shallow embedding of the two pieces of server logic of the repository:

    - the doctor-request tables of [shared/schema.ts], the storage methods of
      [server/storage.ts] that read and write them, and the route handlers
      of the server that call those methods;
    - the risk calculation of the [POST /api/diagnosis/calculate] handler;
    - the handlers that list requests and patients, [GET /api/auth/me],
      and the handlers that open and read a patient case;
    - the text utilities [chunkText] and [cleanMedicalText] of
      [server/services/textExtractor.ts].

    The database is a record of tables, a table is the list of its rows,
    and every handler is a function from the database, the clock, the
    session and the request to a reply and the database it leaves behind.
    A statement the database refuses is an exception, which the handlers
    answer with 500: a number outside the 32 bits of an [integer] column,
    a string with the code unit zero for a [text] column, a broken
    constraint.  A sequence does not take back the value it gave to an
    insert that failed.

    JavaScript numbers are IEEE 754 binary64 numbers: they are the
    primitive floats of the Standard Library, whose operations are
    specified bit for bit by [SpecFloat].  Where every number is an
    integer, as in [chunkText], the integer is kept and the rounding of
    each sum and difference is written out.  The table of the
    specification is evaluated over the rational numbers. *)

From Stdlib Require Import ZArith List String Ascii Bool Lia Floats.
From Stdlib Require Import QArith Qminmax Qround.
From Stdlib Require Import Permutation Sorted.
From Stdlib Require Uint63.
Import ListNotations.

Local Open Scope string_scope.
Local Open Scope Z_scope.
#[local] Set Warnings "-inexact-float".

(** ** Values of a JSON request body *)

(** A field of [req.body] that the handlers pass to a [text] column or
    compare with a string: absent ([undefined]), [null], or a string.
    Fields holding other JSON values are not modelled. *)
Inductive JsField : Type :=
| Undefined
| Null
| Str (s : string).

(** A [jsonb] payload, kept as its serialised text. *)
Definition Json : Type := string.

(** The result of [parseInt]: [None] is [NaN]. *)
Definition JsInt : Type := option Z.

(** ** shared/schema.ts: the rows of the tables the handlers read *)

Module User.
Record t : Type := mk {
  id : Z;
  email : string;
  name : string;
  role : string;
  phone : option string
}.
End User.

Module Patient.
Record t : Type := mk {
  id : Z;
  userId : Z;
  age : option Z;
  gender : option string
}.
End Patient.

Module Doctor.
Record t : Type := mk {
  id : Z;
  userId : Z;
  hospitalId : option Z
}.
End Doctor.

Module Hospital.
Record t : Type := mk {
  id : Z;
  name : string
}.
End Hospital.

Module DoctorRequest.
(** [doctorRequests]: [status] is a [text] column, not null, default
    ["pending"]; timestamps are numbers of milliseconds. *)
Record t : Type := mk {
  id : Z;
  patientId : Z;
  doctorId : Z;
  hospitalId : option Z;
  status : string;
  note : option string;
  scheduleNote : option string;
  proposedSlot : option string;
  dataShare : option Json;
  createdAt : Z;
  updatedAt : Z
}.
End DoctorRequest.

(** [InsertDoctorRequest]: the columns an insert may give.  [doctorId] is
    what [parseInt] returned. *)
Module InsertDoctorRequest.
Record t : Type := mk {
  patientId : Z;
  doctorId : JsInt;
  hospitalId : option JsInt;
  status : JsField;
  note : JsField;
  scheduleNote : JsField;
  proposedSlot : JsField;
  dataShare : option Json
}.
End InsertDoctorRequest.

(** [Partial<DoctorRequest>]: every column is optional; [None] (or
    [Undefined]) is a key that is absent, which [set] leaves alone. *)
Module PartialDoctorRequest.
Record t : Type := mk {
  id : option Z;
  patientId : option Z;
  doctorId : option Z;
  hospitalId : option (option Z);
  status : JsField;
  note : JsField;
  scheduleNote : JsField;
  proposedSlot : JsField;
  dataShare : option (option Json);
  createdAt : option Z;
  updatedAt : option Z
}.
End PartialDoctorRequest.

(** The database: one list of rows per table, and the [serial] sequence of
    [doctor_requests.id]. *)
Record Db : Type := mkDb {
  users : list User.t;
  patients : list Patient.t;
  doctors : list Doctor.t;
  hospitals : list Hospital.t;
  doctorRequests : list DoctorRequest.t;
  doctorRequests_id_seq : Z
}.

Definition with_doctorRequests (db : Db) (rows : list DoctorRequest.t) (seq : Z) : Db :=
  mkDb (users db) (patients db) (doctors db) (hospitals db) rows seq.

(** ** server/storage.ts *)

Module DatabaseStorage.

(** [result[0] || null] of a [select ... where] is the first matching row. *)
Definition getUserById (db : Db) (id : Z) : option User.t :=
  find (fun u => User.id u =? id) (users db).

Definition getPatientById (db : Db) (id : Z) : option Patient.t :=
  find (fun p => Patient.id p =? id) (patients db).

Definition getPatientByUserId (db : Db) (userId : Z) : option Patient.t :=
  find (fun p => Patient.userId p =? userId) (patients db).

Definition getDoctorById (db : Db) (id : Z) : option Doctor.t :=
  find (fun d => Doctor.id d =? id) (doctors db).

Definition getDoctorByUserId (db : Db) (userId : Z) : option Doctor.t :=
  find (fun d => Doctor.userId d =? userId) (doctors db).

Definition getHospitalById (db : Db) (id : Z) : option Hospital.t :=
  find (fun h => Hospital.id h =? id) (hospitals db).

(** A nullable [text] column takes [NULL] for both [undefined] (on insert)
    and [null]. *)
Definition nullable (f : JsField) : option string :=
  match f with
  | Str s => Some s
  | Null | Undefined => None
  end.

(** *** What the database refuses as a parameter

    The driver sends a statement and its parameters apart, and the
    database reads the parameters before it runs the statement.  A
    parameter it cannot read is an exception that leaves everything as it
    was, the sequences included. *)

(** An [integer] or [serial] column holds 32 bits. *)
Definition int4 (n : Z) : bool := (- 2 ^ 31 <=? n) && (n <? 2 ^ 31).

(** A [text] column holds no code unit zero. *)
Fixpoint text_ok (s : string) : bool :=
  match s with
  | EmptyString => true
  | String c s' => negb (Ascii.eqb c Ascii.zero) && text_ok s'
  end.

Definition text_field_ok (f : JsField) : bool :=
  match f with
  | Str s => text_ok s
  | Null | Undefined => true
  end.

(** A [jsonb] column takes no escape [\u0000] and no surrogate escape
    outside a pair of a high one and a low one.  [jsonb_scan] reads the
    serialised text: [Plain] between escapes, [Escape] after a backslash
    (the character 92),
    [Hex n v] after [n] hexadecimal digits of value [v]; the flag says that
    a high surrogate waits for its low one. *)
Inductive JsonbState : Type :=
| Plain (high : bool)
| Escape (high : bool)
| Hex (high : bool) (n : nat) (v : Z).

Definition hex_digit (c : ascii) : option Z :=
  let n := Z.of_N (N_of_ascii c) in
  if (48 <=? n) && (n <=? 57) then Some (n - 48)
  else if (65 <=? n) && (n <=? 70) then Some (n - 55)
  else if (97 <=? n) && (n <=? 102) then Some (n - 87)
  else None.

(** The state after an escape of the code unit [v]. *)
Definition after_code_unit (high : bool) (v : Z) : option JsonbState :=
  if v =? 0 then None
  else if (55296 <=? v) && (v <=? 56319) then (if high then None else Some (Plain true))
  else if (56320 <=? v) && (v <=? 57343) then (if high then Some (Plain false) else None)
  else if high then None else Some (Plain false).

Definition jsonb_step (st : JsonbState) (c : ascii) : option JsonbState :=
  match st with
  | Plain high =>
      if Ascii.eqb c (ascii_of_nat 92) then Some (Escape high)
      else if high then None else Some (Plain false)
  | Escape high =>
      if Ascii.eqb c "u"%char then Some (Hex high 0 0)
      else if high then None else Some (Plain false)
  | Hex high n v =>
      match hex_digit c with
      | None => None
      | Some d =>
          match n with
          | 3%nat => after_code_unit high (16 * v + d)
          | _ => Some (Hex high (S n) (16 * v + d))
          end
      end
  end.

Fixpoint jsonb_scan (st : JsonbState) (text : string) : bool :=
  match text with
  | EmptyString => match st with Plain false => true | _ => false end
  | String c text' =>
      match jsonb_step st c with
      | Some st' => jsonb_scan st' text'
      | None => false
      end
  end.

Definition jsonb_ok (payload : option Json) : bool :=
  match payload with
  | Some text => jsonb_scan (Plain false) text
  | None => true
  end.

(** The foreign keys of [doctor_requests]. *)
Definition references_ok (db : Db) (patientId doctorId : Z) (hospitalId : option Z) : bool :=
  match getPatientById db patientId, getDoctorById db doctorId with
  | Some _, Some _ =>
      match hospitalId with
      | None => true
      | Some h => match getHospitalById db h with Some _ => true | None => false end
      end
  | _, _ => false
  end.

(** The numbers of an insert into [doctor_requests] that come from
    [parseInt], as the database reads them: [None] for [NaN] and for a
    number outside the range of the column.  [patientId] is the id of a
    row of [patients] in every call. *)
Definition integer_parameter (n : JsInt) : option Z :=
  match n with
  | Some n => if int4 n then Some n else None
  | None => None
  end.

Definition hospitalId_parameter (hospitalId : option JsInt) : option (option Z) :=
  match hospitalId with
  | None => Some None
  | Some None => None
  | Some (Some h) => if int4 h then Some (Some h) else None
  end.

(** The database once a statement has taken a value from the sequence and
    failed: the value is not given back. *)
Definition nextval_consumed (db : Db) : Db :=
  with_doctorRequests db (doctorRequests db) (doctorRequests_id_seq db + 1).

(** [createDoctorRequest]: [insert ... values(data).returning()].  The row
    gets the next value of the sequence and the clock as both timestamps.
    [None] is the exception the driver throws: for a parameter the
    database refuses, before the statement runs; for a [null] status or a
    broken foreign key, after the statement took its id from the
    sequence. *)
Definition createDoctorRequest (db : Db) (now : Z) (data : InsertDoctorRequest.t)
  : option DoctorRequest.t * Db :=
  match integer_parameter (InsertDoctorRequest.doctorId data),
        hospitalId_parameter (InsertDoctorRequest.hospitalId data) with
  | Some doctorId, Some hospitalId =>
      if text_field_ok (InsertDoctorRequest.status data)
         && text_field_ok (InsertDoctorRequest.note data)
         && text_field_ok (InsertDoctorRequest.scheduleNote data)
         && text_field_ok (InsertDoctorRequest.proposedSlot data)
         && jsonb_ok (InsertDoctorRequest.dataShare data)
      then
        let status :=
          match InsertDoctorRequest.status data with
          | Undefined => Some "pending"
          | Null => None
          | Str s => Some s
          end in
        match status with
        | Some status =>
            if references_ok db (InsertDoctorRequest.patientId data) doctorId hospitalId then
              let request :=
                DoctorRequest.mk
                  (doctorRequests_id_seq db)
                  (InsertDoctorRequest.patientId data)
                  doctorId
                  hospitalId
                  status
                  (nullable (InsertDoctorRequest.note data))
                  (nullable (InsertDoctorRequest.scheduleNote data))
                  (nullable (InsertDoctorRequest.proposedSlot data))
                  (InsertDoctorRequest.dataShare data)
                  now
                  now in
              (Some request,
               with_doctorRequests db (doctorRequests db ++ [request])
                                   (doctorRequests_id_seq db + 1))
            else (None, nextval_consumed db)
        | None => (None, nextval_consumed db)
        end
      else (None, db)
  | _, _ => (None, db)
  end.

Definition getDoctorRequestById (db : Db) (id : Z) : option DoctorRequest.t :=
  find (fun r => DoctorRequest.id r =? id) (doctorRequests db).

(** [orderBy(desc(createdAt))]: newest first. *)
Fixpoint insert_desc (r : DoctorRequest.t) (l : list DoctorRequest.t) : list DoctorRequest.t :=
  match l with
  | [] => [r]
  | x :: l' =>
      if DoctorRequest.createdAt x <? DoctorRequest.createdAt r
      then r :: l
      else x :: insert_desc r l'
  end.

Definition orderBy_desc_createdAt (l : list DoctorRequest.t) : list DoctorRequest.t :=
  fold_right insert_desc [] l.

Definition getDoctorRequestsByPatient (db : Db) (patientId : Z) : list DoctorRequest.t :=
  orderBy_desc_createdAt
    (filter (fun r => DoctorRequest.patientId r =? patientId) (doctorRequests db)).

Definition getDoctorRequestsByDoctor (db : Db) (doctorId : Z) : list DoctorRequest.t :=
  orderBy_desc_createdAt
    (filter (fun r => DoctorRequest.doctorId r =? doctorId) (doctorRequests db)).

(** [set(values)] on one row: a key that is present replaces the column. *)
Definition set_text (f : JsField) (old : option string) : option string :=
  match f with
  | Undefined => old
  | Null => None
  | Str s => Some s
  end.

Definition set_opt {A : Type} (v : option A) (old : A) : A :=
  match v with
  | Some a => a
  | None => old
  end.

Definition set_row (values : PartialDoctorRequest.t) (r : DoctorRequest.t) : DoctorRequest.t :=
  DoctorRequest.mk
    (set_opt (PartialDoctorRequest.id values) (DoctorRequest.id r))
    (set_opt (PartialDoctorRequest.patientId values) (DoctorRequest.patientId r))
    (set_opt (PartialDoctorRequest.doctorId values) (DoctorRequest.doctorId r))
    (set_opt (PartialDoctorRequest.hospitalId values) (DoctorRequest.hospitalId r))
    (match PartialDoctorRequest.status values with
     | Str s => s
     | Null | Undefined => DoctorRequest.status r
     end)
    (set_text (PartialDoctorRequest.note values) (DoctorRequest.note r))
    (set_text (PartialDoctorRequest.scheduleNote values) (DoctorRequest.scheduleNote r))
    (set_text (PartialDoctorRequest.proposedSlot values) (DoctorRequest.proposedSlot r))
    (set_opt (PartialDoctorRequest.dataShare values) (DoctorRequest.dataShare r))
    (set_opt (PartialDoctorRequest.createdAt values) (DoctorRequest.createdAt r))
    (set_opt (PartialDoctorRequest.updatedAt values) (DoctorRequest.updatedAt r)).

(** [{ ...data, updatedAt: new Date() }]. *)
Definition with_updatedAt (data : PartialDoctorRequest.t) (now : Z) : PartialDoctorRequest.t :=
  PartialDoctorRequest.mk
    (PartialDoctorRequest.id data)
    (PartialDoctorRequest.patientId data)
    (PartialDoctorRequest.doctorId data)
    (PartialDoctorRequest.hospitalId data)
    (PartialDoctorRequest.status data)
    (PartialDoctorRequest.note data)
    (PartialDoctorRequest.scheduleNote data)
    (PartialDoctorRequest.proposedSlot data)
    (PartialDoctorRequest.dataShare data)
    (PartialDoctorRequest.createdAt data)
    (Some now).

(** The update writes a foreign key, or the primary key. *)
Definition sets_reference (values : PartialDoctorRequest.t) : bool :=
  match PartialDoctorRequest.patientId values,
        PartialDoctorRequest.doctorId values,
        PartialDoctorRequest.hospitalId values with
  | None, None, None => false
  | _, _, _ => true
  end.

Definition sets_id (values : PartialDoctorRequest.t) : bool :=
  match PartialDoctorRequest.id values with
  | None => false
  | Some _ => true
  end.

(** The parameters of an update, as the database reads them. *)
Definition int4_opt (n : option Z) : bool :=
  match n with
  | Some n => int4 n
  | None => true
  end.

Definition update_parameters_ok (id : Z) (values : PartialDoctorRequest.t) : bool :=
  int4 id
  && int4_opt (PartialDoctorRequest.id values)
  && int4_opt (PartialDoctorRequest.patientId values)
  && int4_opt (PartialDoctorRequest.doctorId values)
  && match PartialDoctorRequest.hospitalId values with
     | Some h => int4_opt h
     | None => true
     end
  && text_field_ok (PartialDoctorRequest.status values)
  && text_field_ok (PartialDoctorRequest.note values)
  && text_field_ok (PartialDoctorRequest.scheduleNote values)
  && text_field_ok (PartialDoctorRequest.proposedSlot values)
  && match PartialDoctorRequest.dataShare values with
     | Some payload => jsonb_ok payload
     | None => true
     end.

(** The constraints an update can break: [status] is not null; the
    foreign keys of the new row, when the update writes one; the primary
    key, when the update writes [id]. *)
Definition update_ok (db : Db) (values : PartialDoctorRequest.t)
           (rows' : list DoctorRequest.t) (r' : DoctorRequest.t) : bool :=
  match PartialDoctorRequest.status values with
  | Null => false
  | _ =>
      (negb (sets_reference values)
       || references_ok db (DoctorRequest.patientId r') (DoctorRequest.doctorId r')
                        (DoctorRequest.hospitalId r'))
      && (negb (sets_id values)
          || (Z.of_nat (List.length (filter (fun x => DoctorRequest.id x =? DoctorRequest.id r') rows')) <=? 1))
  end.

(** [updateDoctorRequest]: [update ... set(...).where(eq(id, id)).returning()];
    the result is the first updated row, [null] when no row matched.
    [None] is the exception of a parameter the database refuses or of a
    broken constraint; either leaves the table as it was. *)
Definition updateDoctorRequest (db : Db) (now : Z) (id : Z) (data : PartialDoctorRequest.t)
  : option (option DoctorRequest.t * Db) :=
  let values := with_updatedAt data now in
  let rows' :=
    map (fun r => if DoctorRequest.id r =? id then set_row values r else r)
        (doctorRequests db) in
  let returning :=
    map (set_row values) (filter (fun r => DoctorRequest.id r =? id) (doctorRequests db)) in
  if update_parameters_ok id values && forallb (update_ok db values rows') returning
  then Some (hd_error returning, with_doctorRequests db rows' (doctorRequests_id_seq db))
  else None.

End DatabaseStorage.

(** ** JavaScript numbers *)

(** [Math.min(a, b)]: NaN if either is NaN, the smaller one otherwise, and
    [-0] before [+0]. *)
Definition Math_min (a b : float) : float :=
  if is_nan a || is_nan b then nan
  else if (a <? b)%float then a
  else if (b <? a)%float then b
  else match classify a with NZero => a | _ => b end.

(** The number of the integer [n], for [0 <= n < 2^63]. *)
Definition float_of_Z (n : Z) : float := of_uint63 (Uint63.of_Z n).

(** [Math.round(x)]: the integer nearest to [x], a half going up; NaN, the
    infinities and the zeros are returned as they are, and so is every
    number with no fractional bit.  A result of zero keeps the sign of
    [x]. *)
Definition Math_round (x : float) : float :=
  match Prim2SF x with
  | S754_finite s m e =>
      if 0 <=? e then x
      else
        let n := (2 * cond_Zopp s (Zpos m) + 2 ^ (- e)) / 2 ^ (1 - e) in
        if n =? 0 then (if s then neg_zero else zero)
        else if n <? 0 then (- float_of_Z (- n))%float
        else float_of_Z n
  | _ => x
  end.

(** ** shared/schema.ts: the input of the risk calculation *)

Inductive CancerType : Type := liver | lung | breast.

(** What [diagnosisSchema.parse] returns. *)
Module DiagnosisInput.
Record t : Type := mk {
  cancerType : CancerType;
  tumorSize : float;
  biomarker1 : float;
  biomarker2 : JsField;
  additionalFactor : JsField
}.
End DiagnosisInput.

(** The object the handler sends back. *)
Module DiagnosisResult.
Record t : Type := mk {
  probability : float;
  riskLevel : string;
  recommendation : string;
  cancerType : string;
  tumorSize : float
}.
End DiagnosisResult.

(** ** The route handlers *)

Module Routes.
Import DatabaseStorage.

(** [req.session]. *)
Record Session : Type := mkSession {
  userId : option Z;
  role : option string
}.

(** What a handler sends: [res.json(body)], or [res.status(code).json(...)]
    with [success: false] and a message. *)
Inductive Reply (A : Type) : Type :=
| Json200 (body : A)
| Failure (code : Z) (message : string).
Arguments Json200 {A} body.
Arguments Failure {A} code message.

(** [!req.session?.userId]: no user id, or the falsy id [0]. *)
Definition not_authenticated (s : Session) : bool :=
  match userId s with
  | None => true
  | Some u => u =? 0
  end.

Definition role_is (s : Session) (r : string) : bool :=
  match role s with
  | Some x => String.eqb x r
  | None => false
  end.

(** [req.session.userId!] once the middleware let the request through. *)
Definition session_userId (s : Session) : Z :=
  match userId s with
  | Some u => u
  | None => 0
  end.

(** [requireAuth] and [requireRole(role)]: [None] is [next()]. *)
Definition requireAuth {A : Type} (s : Session) : option (Reply A) :=
  if not_authenticated s then Some (Failure 401 "Not authenticated") else None.

Definition requireRole {A : Type} (r : string) (s : Session) : option (Reply A) :=
  if not_authenticated s then Some (Failure 401 "Not authenticated")
  else if negb (role_is s r) then Some (Failure 403 "Access denied")
  else None.

(** *** GET /api/patients/:id *)

Record PatientProfile : Type := mkPatientProfile {
  profile_patient : Patient.t;
  profile_name : option string;
  profile_email : option string;
  profile_phone : option string
}.

(** [requests.some((r) => r.patientId === id && r.status === "approved")]. *)
Definition hasRelationship (requests : list DoctorRequest.t) (id : Z) : bool :=
  existsb (fun r => (DoctorRequest.patientId r =? id)
                    && String.eqb (DoctorRequest.status r) "approved")
          requests.

(** The check a doctor has to pass to read a patient: the requests
    addressed to the doctor, then [hasRelationship]. *)
Definition canDoctorAccessPatientCase (db : Db) (doctorId patientId : Z) : bool :=
  hasRelationship (getDoctorRequestsByDoctor db doctorId) patientId.

(** [id] is the integer [parseInt] read from the path.  Outside the range
    of the column, [getPatientById] throws and the handler's [catch]
    replies. *)
Definition get_patient (db : Db) (s : Session) (id : Z) : Reply PatientProfile :=
  match requireAuth s with
  | Some r => r
  | None =>
      if negb (int4 id) then Failure 500 "Server error"
      else
      match getPatientById db id with
      | None => Failure 404 "Patient not found"
      | Some patient =>
          if role_is s "patient" && negb (Patient.userId patient =? session_userId s)
          then Failure 403 "Access denied"
          else
            let send :=
              let user := getUserById db (Patient.userId patient) in
              Json200 (mkPatientProfile patient
                         (option_map User.name user)
                         (option_map User.email user)
                         (match user with Some u => User.phone u | None => None end)) in
            if role_is s "doctor" then
              match getDoctorByUserId db (session_userId s) with
              | None => Failure 403 "Access denied"
              | Some doctor =>
                  if canDoctorAccessPatientCase db (Doctor.id doctor) id
                  then send
                  else Failure 403 "No approved relationship with this patient"
              end
            else send
      end
  end.

(** *** GET /api/doctor/patients *)

Record PatientSummary : Type := mkPatientSummary {
  summary_id : Z;
  summary_name : option string;
  summary_age : option Z;
  summary_gender : option string
}.

(** [Array.from(new Set(ids))]: the first occurrence of each id, in order. *)
Fixpoint unique (seen ids : list Z) : list Z :=
  match ids with
  | [] => []
  | i :: ids' =>
      if existsb (Z.eqb i) seen then unique seen ids'
      else i :: unique (i :: seen) ids'
  end.

Definition acceptedRequests (requests : list DoctorRequest.t) : list DoctorRequest.t :=
  filter (fun r => String.eqb (DoctorRequest.status r) "accepted") requests.

Definition acceptedPatientIds (db : Db) (doctorId : Z) : list Z :=
  unique [] (map DoctorRequest.patientId
                 (acceptedRequests (getDoctorRequestsByDoctor db doctorId))).

(** A patient id with no patient row gives an entry without [id], which
    [filter(p => p.id)] drops, as it drops the falsy id [0]. *)
Definition patientsList (db : Db) (ids : list Z) : list PatientSummary :=
  flat_map
    (fun patientId =>
       match getPatientById db patientId with
       | None => []
       | Some patient =>
           if Patient.id patient =? 0 then []
           else [mkPatientSummary (Patient.id patient)
                   (option_map User.name (getUserById db (Patient.userId patient)))
                   (Patient.age patient)
                   (Patient.gender patient)]
       end)
    ids.

Definition get_doctor_patients (db : Db) (s : Session) : Reply (list PatientSummary) :=
  match requireRole "doctor" s with
  | Some r => r
  | None =>
      match getUserById db (session_userId s) with
      | None => Failure 403 "Not a doctor"
      | Some user =>
          if negb (String.eqb (User.role user) "doctor") then Failure 403 "Not a doctor"
          else
            match getDoctorByUserId db (User.id user) with
            | None => Failure 404 "Doctor not found"
            | Some doctor =>
                Json200 (patientsList db (acceptedPatientIds db (Doctor.id doctor)))
            end
      end
  end.

(** *** POST /api/doctor-requests *)

(** The body of the request.  The handler reads [doctorId], [hospitalId],
    [note] and [dataShare]; [body_status] and [body_patientId] stand for
    what else a caller may send.  [doctorId] and [hospitalId] are given as
    [parseInt] reads them, [hospitalId] being [None] when it is falsy. *)
Record CreateBody : Type := mkCreateBody {
  body_doctorId : JsInt;
  body_hospitalId : option JsInt;
  body_note : JsField;
  body_dataShare : option Json;
  body_status : JsField;
  body_patientId : JsInt
}.

Definition create_doctor_request (db : Db) (now : Z) (s : Session) (body : CreateBody)
  : Reply DoctorRequest.t * Db :=
  match requireRole "patient" s with
  | Some r => (r, db)
  | None =>
      match getUserById db (session_userId s) with
      | None => (Failure 403 "Not a patient", db)
      | Some user =>
          if negb (String.eqb (User.role user) "patient") then (Failure 403 "Not a patient", db)
          else
            match getPatientByUserId db (User.id user) with
            | None => (Failure 404 "Patient not found", db)
            | Some patient =>
                match createDoctorRequest db now
                        (InsertDoctorRequest.mk
                           (Patient.id patient)
                           (body_doctorId body)
                           (body_hospitalId body)
                           (Str "pending")
                           (body_note body)
                           Undefined
                           Undefined
                           (body_dataShare body)) with
                | (Some request, db') => (Json200 request, db')
                | (None, db') => (Failure 500 "Server error", db')
                end
            end
      end
  end.

(** *** PATCH /api/doctor-requests/:id *)

Record UpdateBody : Type := mkUpdateBody {
  upd_status : JsField;
  upd_scheduleNote : JsField;
  upd_proposedSlot : JsField
}.

(** [{ status, scheduleNote, proposedSlot }] as a [Partial<DoctorRequest>]. *)
Definition update_values (body : UpdateBody) : PartialDoctorRequest.t :=
  PartialDoctorRequest.mk None None None None
    (upd_status body) Undefined (upd_scheduleNote body) (upd_proposedSlot body)
    None None None.

(** [id] is the integer [parseInt] read from the path.  Outside the range
    of the column, [getDoctorRequestById] throws and the handler's [catch]
    replies. *)
Definition update_doctor_request (db : Db) (now : Z) (s : Session) (id : Z) (body : UpdateBody)
  : Reply (option DoctorRequest.t) * Db :=
  match requireRole "doctor" s with
  | Some r => (r, db)
  | None =>
      if negb (int4 id) then (Failure 500 "Server error", db)
      else
      match getDoctorRequestById db id with
      | None => (Failure 404 "Request not found", db)
      | Some existingRequest =>
          match getDoctorByUserId db (session_userId s) with
          | None => (Failure 403 "Access denied", db)
          | Some doctor =>
              if negb (DoctorRequest.doctorId existingRequest =? Doctor.id doctor)
              then (Failure 403 "Access denied", db)
              else
                match updateDoctorRequest db now id (update_values body) with
                | Some (request, db') => (Json200 request, db')
                | None => (Failure 500 "Server error", db)
                end
          end
      end
  end.

(** *** POST /api/diagnosis/calculate *)

(** The body of the request, before validation: a field that is no
    number is [None]. *)
Record DiagnosisBody : Type := mkDiagnosisBody {
  body_cancerType : JsField;
  body_tumorSize : option float;
  body_biomarker1 : option float;
  body_biomarker2 : JsField;
  body_additionalFactor : JsField
}.

(** [diagnosisSchema.parse]: [cancerType] is one of the three names,
    [tumorSize] is a number above zero and [biomarker1] is a number (NaN
    is none); [None] is the exception it throws. *)
Definition diagnosisSchema_parse (body : DiagnosisBody) : option DiagnosisInput.t :=
  let cancerType :=
    match body_cancerType body with
    | Str "liver" => Some liver
    | Str "lung" => Some lung
    | Str "breast" => Some breast
    | _ => None
    end in
  match cancerType, body_tumorSize body, body_biomarker1 body with
  | Some c, Some tumorSize, Some biomarker1 =>
      if is_nan tumorSize || is_nan biomarker1 then None
      else if (0 <? tumorSize)%float then
        Some (DiagnosisInput.mk c tumorSize biomarker1
                (body_biomarker2 body) (body_additionalFactor body))
      else None
  | _, _, _ => None
  end.

(** The string of a cancer type, as the body carries it. *)
Definition cancerType_string (c : CancerType) : string :=
  match c with
  | liver => "liver"
  | lung => "lung"
  | breast => "breast"
  end.

(** [field === s]. *)
Definition strict_equal (f : JsField) (s : string) : bool :=
  match f with
  | Str x => String.eqb x s
  | Null | Undefined => false
  end.

(** [toUpperCase] on one character: the ASCII letters. *)
Definition toUpperCase (c : ascii) : ascii :=
  let n := nat_of_ascii c in
  if ((97 <=? n) && (n <=? 122))%nat then ascii_of_nat (n - 32) else c.

(** [s.charAt(0).toUpperCase() + s.slice(1)]. *)
Definition capitalize (s : string) : string :=
  match s with
  | EmptyString => EmptyString
  | String c rest => String (toUpperCase c) rest
  end.

(** The [switch] on the cancer type: the probability before it is
    rounded and capped. *)
Definition switch_probability (data : DiagnosisInput.t) : float :=
  let tumorSize := DiagnosisInput.tumorSize data in
  let biomarker1 := DiagnosisInput.biomarker1 data in
  match DiagnosisInput.cancerType data with
  | liver =>
      if (400 <? biomarker1)%float then (75 + Math_min (tumorSize * 3) 20)%float
      else if (20 <? biomarker1)%float then (45 + Math_min (tumorSize * 2) 25)%float
      else (15 + Math_min tumorSize 15)%float
  | lung =>
      let smokingMultiplier :=
        if strict_equal (DiagnosisInput.additionalFactor data) "current" then 1.8%float
        else if strict_equal (DiagnosisInput.additionalFactor data) "former" then 1.3%float
        else 1%float in
      if (10 <? biomarker1)%float then ((60 + Math_min (tumorSize * 4) 25) * smokingMultiplier)%float
      else if (5 <? biomarker1)%float then ((35 + Math_min (tumorSize * 3) 20) * smokingMultiplier)%float
      else ((10 + Math_min (tumorSize * 2) 15) * smokingMultiplier)%float
  | breast =>
      let her2Multiplier :=
        if strict_equal (DiagnosisInput.biomarker2 data) "positive" then 1.4%float
        else 1%float in
      if (100 <? biomarker1)%float then ((70 + Math_min (tumorSize * 3) 20) * her2Multiplier)%float
      else if (30 <? biomarker1)%float then ((40 + Math_min (tumorSize * 2) 25) * her2Multiplier)%float
      else ((12 + Math_min tumorSize 15) * her2Multiplier)%float
  end.

(** The risk calculation of the handler, from the parsed body to the
    object it sends. *)
Definition computeRisk (data : DiagnosisInput.t) : DiagnosisResult.t :=
  let probability := switch_probability data in
  let probability := Math_min (Math_round probability) 98 in
  let name := cancerType_string (DiagnosisInput.cancerType data) in
  let '(riskLevel, recommendation) :=
    if (70 <=? probability)%float then
      ("High",
       "High-risk indicators detected for " ++ name
       ++ " cancer. Immediate further diagnostic imaging and biopsy recommended. Consider multidisciplinary oncology consultation.")
    else if (40 <=? probability)%float then
      ("Moderate",
       "Moderate risk detected. Recommend additional imaging studies (CT/MRI/PET scan) and close monitoring. Follow-up appointment in 2-4 weeks advised.")
    else
      ("Low",
       "Current biomarkers show low risk. Continue routine surveillance with follow-up testing in 3-6 months. Maintain healthy lifestyle factors.") in
  DiagnosisResult.mk probability riskLevel recommendation (capitalize name)
                     (DiagnosisInput.tumorSize data).

Definition diagnosis_calculate (s : Session) (body : DiagnosisBody)
  : Reply DiagnosisResult.t :=
  match requireRole "doctor" s with
  | Some r => r
  | None =>
      match diagnosisSchema_parse body with
      | Some data => Json200 (computeRisk data)
      | None => Failure 500 "Server error"
      end
  end.

End Routes.

Import DatabaseStorage Routes.

(** ** The operations that write the request table *)

Inductive Operation : Type :=
| PostDoctorRequest (now : Z) (s : Session) (body : CreateBody)
| PatchDoctorRequest (now : Z) (s : Session) (id : Z) (body : UpdateBody).

Definition run (db : Db) (op : Operation) : Db :=
  match op with
  | PostDoctorRequest now s body => snd (create_doctor_request db now s body)
  | PatchDoctorRequest now s id body => snd (update_doctor_request db now s id body)
  end.

(** The row a successful [PATCH] leaves in place of [r]. *)
Definition patched (now : Z) (body : UpdateBody) (r : DoctorRequest.t) : DoctorRequest.t :=
  DoctorRequest.mk
    (DoctorRequest.id r)
    (DoctorRequest.patientId r)
    (DoctorRequest.doctorId r)
    (DoctorRequest.hospitalId r)
    (match upd_status body with
     | Str s => s
     | Null | Undefined => DoctorRequest.status r
     end)
    (DoctorRequest.note r)
    (set_text (upd_scheduleNote body) (DoctorRequest.scheduleNote r))
    (set_text (upd_proposedSlot body) (DoctorRequest.proposedSlot r))
    (DoctorRequest.dataShare r)
    (DoctorRequest.createdAt r)
    now.

(** The session is that of a signed-in user with the given role. *)
Definition signed_in_as (s : Session) (r : string) : Prop :=
  not_authenticated s = false /\ role_is s r = true.

(** The doctor id of the session's user, when the user is a doctor. *)
Definition actor_doctorId (db : Db) (s : Session) : option Z :=
  option_map Doctor.id (getDoctorByUserId db (session_userId s)).

(** The four values of the schema's comment on [status]. *)
Definition status_enum (st : string) : Prop :=
  st = "pending" \/ st = "accepted" \/ st = "declined" \/ st = "reschedule".


(** A sample database: user 10 is patient 3, user 20 is doctor 7, user 21
    is doctor 8, and request 1 from patient 3 to doctor 7. *)
Definition sample_users : list User.t :=
  [ User.mk 10 "p@x.org" "Pat" "patient" None;
    User.mk 20 "d@x.org" "Doc" "doctor" None;
    User.mk 21 "e@x.org" "Eve" "doctor" None ].

Definition sample_request (st : string) : DoctorRequest.t :=
  DoctorRequest.mk 1 3 7 None st (Some "hello") None None None 1000 1000.

Definition sample_db (st : string) : Db :=
  mkDb sample_users
       [ Patient.mk 3 10 (Some 50) None; Patient.mk 4 11 None None ]
       [ Doctor.mk 7 20 None; Doctor.mk 8 21 None ]
       [ Hospital.mk 1 "General" ]
       [ sample_request st ]
       2.

Definition patient_session : Session := mkSession (Some 10) (Some "patient").
Definition doctor_session : Session := mkSession (Some 20) (Some "doctor").
Definition other_doctor_session : Session := mkSession (Some 21) (Some "doctor").

(** The primary key of [doctor_requests], and the sequence ahead of it. *)
Definition primary_key (db : Db) : Prop :=
  NoDup (map DoctorRequest.id (doctorRequests db)).

Definition well_formed (db : Db) : Prop :=
  primary_key db
  /\ forall r, In r (doctorRequests db) -> DoctorRequest.id r < doctorRequests_id_seq db.

(** The rows of the table after a [PATCH] that passed every check. *)
Definition patch_rows (now id : Z) (body : UpdateBody) (rows : list DoctorRequest.t)
  : list DoctorRequest.t :=
  map (fun r => if DoctorRequest.id r =? id then patched now body r else r) rows.

(** ** The risk calculation: inputs *)

(** What [diagnosisSchema] lets through: a tumor size above zero and a
    first biomarker that is a number. *)
Definition valid_input (data : DiagnosisInput.t) : Prop :=
  (0 <? DiagnosisInput.tumorSize data)%float = true
  /\ is_nan (DiagnosisInput.biomarker1 data) = false.

(** The examples of the specification, a tie, and a tumor size a little
    above 5/28. *)
Definition liver_example : DiagnosisInput.t :=
  DiagnosisInput.mk liver 5 500 Undefined Undefined.
Definition lung_example : DiagnosisInput.t :=
  DiagnosisInput.mk lung 1 3 Undefined (Str "current").
Definition breast_example : DiagnosisInput.t :=
  DiagnosisInput.mk breast 4 150 (Str "positive") Undefined.
Definition breast_low_example : DiagnosisInput.t :=
  DiagnosisInput.mk breast 2 20 Undefined Undefined.
Definition breast_tie_example : DiagnosisInput.t :=
  DiagnosisInput.mk breast 1.25 50 (Str "positive") Undefined.
Definition breast_above_half_example : DiagnosisInput.t :=
  DiagnosisInput.mk breast 0x1.6db6db6db6db7p-3 50 (Str "positive") Undefined.

(** ** Binary64 numbers as integers

    Every finite binary64 number is a multiple of 2^-1074.  The proofs
    read a number with a clear sign bit as that multiple, an integer, and
    the rounding of an operation as a function on integers. *)

(** Round [N / 2^k] to the nearest integer, ties to even. *)
Definition rne (N k : Z) : Z :=
  let q := N / 2 ^ k in
  match 2 * (N mod 2 ^ k) ?= 2 ^ k with
  | Lt => q
  | Gt => q + 1
  | Eq => if Z.even q then q else q + 1
  end.

(** The number of binary digits of [N]. *)
Definition dig (N : Z) : Z := if N <=? 0 then 0 else Z.log2 N + 1.

(** The binary64 rounding of the integer [N], counted in units of which
    [2^c] make the smallest subnormal: 53 digits are kept, none below
    [2^c], and [2^(2098 + c)] stands for infinity. *)
Definition expo (c N : Z) : Z := Z.max (dig N - 53) c.

Definition rnd (c N : Z) : Z :=
  Z.min (rne N (expo c N) * 2 ^ expo c N) (2 ^ (2098 + c)).

(** The same before the overflow test. *)
Definition rnd0 (c N : Z) : Z := rne N (expo c N) * 2 ^ expo c N.

(** The record of [SpecFloat.shr] after [n] halvings of the exact [m]. *)
Definition shr_state (m : Z) (n : nat) : shr_record :=
  match n with
  | O => Build_shr_record m false false
  | S k => Build_shr_record (m / 2 ^ Z.of_nat (S k))
                            (Z.odd (m / 2 ^ Z.of_nat k))
                            (negb (m mod 2 ^ Z.of_nat k =? 0))
  end.

(** The value of a number in units of 2^-1074; infinity counts as 2^1024. *)
Definition SFunits (x : spec_float) : Z :=
  match x with
  | S754_zero _ => 0
  | S754_infinity _ => 2 ^ 2098
  | S754_nan => 0
  | S754_finite _ m e => Zpos m * 2 ^ (e + 1074)
  end.

(** The sign bit is clear and the number is not NaN. *)
Definition SFnonneg (x : spec_float) : bool :=
  match x with
  | S754_zero false | S754_infinity false | S754_finite false _ _ => true
  | _ => false
  end.

(** The same on primitive floats: [units a] is the value of [a] in units
    of 2^-1074 when [nonneg a] holds. *)
Definition units (a : float) : Z := SFunits (Prim2SF a).
Definition nonneg (a : float) : bool := SFnonneg (Prim2SF a).

(** [floor (v + 1/2)] for a value [v] counted in units of 2^-1074. *)
Definition roundZ (v : Z) : Z := (2 * v + 2 ^ 1074) / 2 ^ 1075.

(** Side conditions on the constants of the formula. *)
Ltac float_const :=
  match goal with
  | |- nonneg _ = true => vm_compute; reflexivity
  | |- _ <= units _ < _ => split; [apply Z.leb_le | apply Z.ltb_lt]; vm_compute; reflexivity
  | |- _ <= units _ => apply Z.leb_le; vm_compute; reflexivity
  | |- units _ <= _ => apply Z.leb_le; vm_compute; reflexivity
  end.

(** A constant is above zero. *)
Ltac float_pos := apply Z.ltb_lt; vm_compute; reflexivity.

(** The side conditions on the constants of the formula. *)
Ltac table_const :=
  match goal with
  | |- nonneg _ = true => vm_compute; reflexivity
  | |- units _ = _ * 2 ^ 1074 => vm_compute; reflexivity
  | |- _ <= units _ <= _ => split; apply Z.leb_le; vm_compute; reflexivity
  | |- Z.abs _ <= _ => apply Z.leb_le; vm_compute; reflexivity
  | |- _ <= _ <= _ => lia
  end.

(** The goal is the failure of a handler that refused the request. *)
Ltac refused :=
  left; do 3 eexists;
  split; [reflexivity | first [left; reflexivity | right; reflexivity]].

(** ** The table of the specification, over the real numbers *)

(** The real number a value of a field of the input stands for: [units]
    counts a number in units of 2^-1074, and infinity counts as 2^1024. *)
Definition value (x : float) : Q :=
  (if nonneg x then units x else - units x) # (2 ^ 1074).

(** The multipliers and the raw probability as section 4.1 of the
    specification words them, over the real numbers: per cancer type and
    band of the biomarker. *)
Definition spec_smokingMultiplier (additionalFactor : JsField) : Q :=
  match additionalFactor with
  | Str "current" => 1.8
  | Str "former" => 1.3
  | _ => 1.0
  end%Q.

Definition spec_her2Multiplier (biomarker2 : JsField) : Q :=
  match biomarker2 with
  | Str "positive" => 1.4
  | _ => 1.0
  end%Q.

Definition spec_raw_probability (data : DiagnosisInput.t) : Q :=
  let tumorSize := value (DiagnosisInput.tumorSize data) in
  let x := value (DiagnosisInput.biomarker1 data) in
  match DiagnosisInput.cancerType data with
  | liver =>
      if Qlt_le_dec 400 x then 75 + Qmin (tumorSize * 3) 20
      else if Qlt_le_dec 20 x then 45 + Qmin (tumorSize * 2) 25
      else 15 + Qmin tumorSize 15
  | lung =>
      let m := spec_smokingMultiplier (DiagnosisInput.additionalFactor data) in
      if Qlt_le_dec 10 x then (60 + Qmin (tumorSize * 4) 25) * m
      else if Qlt_le_dec 5 x then (35 + Qmin (tumorSize * 3) 20) * m
      else (10 + Qmin (tumorSize * 2) 15) * m
  | breast =>
      let m := spec_her2Multiplier (DiagnosisInput.biomarker2 data) in
      if Qlt_le_dec 100 x then (70 + Qmin (tumorSize * 3) 20) * m
      else if Qlt_le_dec 30 x then (40 + Qmin (tumorSize * 2) 25) * m
      else (12 + Qmin tumorSize 15) * m
  end%Q.

(** The nearest integer, a half going up. *)
Definition nearest_integer (q : Q) : Z := Qfloor (q + (1 # 2))%Q.

(** The probability of the specification: the raw probability rounded to
    the nearest integer and capped at 98. *)
Definition spec_probability (data : DiagnosisInput.t) : Z :=
  Z.min (nearest_integer (spec_raw_probability data)) 98.

(** How far the raw score of the handler is from the table at most. *)
Definition tolerance : Q := 1 # (2 ^ 40).


(** ** The handlers that read the request table *)

(** [name || "Unknown"]: the name, unless there is none or it is empty. *)
Definition or_Unknown (name : option string) : string :=
  match name with
  | None | Some EmptyString => "Unknown"
  | Some s => s
  end.

(** [request.hospitalId ? await storage.getHospitalById(...) : null], then
    [hospital?.name || "Unknown"]; the id [0] is falsy. *)
Definition hospital_name (db : Db) (hospitalId : option Z) : string :=
  or_Unknown
    (match hospitalId with
     | None => None
     | Some h => if h =? 0 then None else option_map Hospital.name (getHospitalById db h)
     end).

(** *** GET /api/patient/requests *)

Record PatientRequestEntry : Type := mkPatientRequestEntry {
  pr_id : Z;
  pr_doctorName : string;
  pr_hospital : string;
  pr_status : string;
  pr_note : option string;
  pr_scheduleNote : option string;
  pr_proposedSlot : option string;
  pr_createdAt : Z
}.

Definition patient_request_entry (db : Db) (request : DoctorRequest.t) : PatientRequestEntry :=
  let doctor := getDoctorById db (DoctorRequest.doctorId request) in
  let doctorUser :=
    match doctor with
    | Some d => getUserById db (Doctor.userId d)
    | None => None
    end in
  mkPatientRequestEntry
    (DoctorRequest.id request)
    (or_Unknown (option_map User.name doctorUser))
    (hospital_name db (DoctorRequest.hospitalId request))
    (DoctorRequest.status request)
    (DoctorRequest.note request)
    (DoctorRequest.scheduleNote request)
    (DoctorRequest.proposedSlot request)
    (DoctorRequest.createdAt request).

Definition get_patient_requests (db : Db) (s : Session) : Reply (list PatientRequestEntry) :=
  match requireRole "patient" s with
  | Some r => r
  | None =>
      match getUserById db (session_userId s) with
      | None => Failure 403 "Not a patient"
      | Some user =>
          if negb (String.eqb (User.role user) "patient") then Failure 403 "Not a patient"
          else
            match getPatientByUserId db (User.id user) with
            | None => Failure 404 "Patient not found"
            | Some patient =>
                Json200 (map (patient_request_entry db)
                             (getDoctorRequestsByPatient db (Patient.id patient)))
            end
      end
  end.

(** *** GET /api/doctor/requests *)

Record DoctorRequestEntry : Type := mkDoctorRequestEntry {
  dr_id : Z;
  dr_patientName : string;
  dr_hospital : string;
  dr_status : string;
  dr_note : option string;
  dr_dataShare : option Json;
  dr_createdAt : Z
}.

Definition doctor_request_entry (db : Db) (request : DoctorRequest.t) : DoctorRequestEntry :=
  let patient := getPatientById db (DoctorRequest.patientId request) in
  let patientUser :=
    match patient with
    | Some p => getUserById db (Patient.userId p)
    | None => None
    end in
  mkDoctorRequestEntry
    (DoctorRequest.id request)
    (or_Unknown (option_map User.name patientUser))
    (hospital_name db (DoctorRequest.hospitalId request))
    (DoctorRequest.status request)
    (DoctorRequest.note request)
    (DoctorRequest.dataShare request)
    (DoctorRequest.createdAt request).

Definition get_doctor_requests (db : Db) (s : Session) : Reply (list DoctorRequestEntry) :=
  match requireRole "doctor" s with
  | Some r => r
  | None =>
      match getUserById db (session_userId s) with
      | None => Failure 403 "Not a doctor"
      | Some user =>
          if negb (String.eqb (User.role user) "doctor") then Failure 403 "Not a doctor"
          else
            match getDoctorByUserId db (User.id user) with
            | None => Failure 404 "Doctor not found"
            | Some doctor =>
                Json200 (map (doctor_request_entry db)
                             (getDoctorRequestsByDoctor db (Doctor.id doctor)))
            end
      end
  end.

(** *** GET /api/auth/me *)

Record Me : Type := mkMe {
  me_id : Z;
  me_name : string;
  me_email : string;
  me_role : string;
  me_patientId : option Z;
  me_doctorId : option Z
}.

Definition auth_me (db : Db) (s : Session) : Reply Me :=
  if not_authenticated s then Failure 401 "Not authenticated"
  else
    match getUserById db (session_userId s) with
    | None => Failure 401 "User not found"
    | Some user =>
        let patientId :=
          if String.eqb (User.role user) "patient"
          then option_map Patient.id (getPatientByUserId db (User.id user))
          else None in
        let doctorId :=
          if String.eqb (User.role user) "patient" then None
          else if String.eqb (User.role user) "doctor"
               then option_map Doctor.id (getDoctorByUserId db (User.id user))
               else None in
        Json200 (mkMe (User.id user) (User.name user) (User.email user) (User.role user)
                      patientId doctorId)
    end.

(** Newest first. *)
Definition newer_or_same (a b : DoctorRequest.t) : Prop :=
  DoctorRequest.createdAt b <= DoctorRequest.createdAt a.

(** A sequence of operations, run in order. *)
Definition run_all (db : Db) (ops : list Operation) : Db := fold_left run ops db.

(** The time on the clock when an operation runs. *)
Definition clock (op : Operation) : Z :=
  match op with
  | PostDoctorRequest now _ _ => now
  | PatchDoctorRequest now _ _ _ => now
  end.

(** No row was updated before it was created, or after [now]. *)
Definition timestamps_ok (now : Z) (db : Db) : Prop :=
  forall r, In r (doctorRequests db) ->
            DoctorRequest.createdAt r <= DoctorRequest.updatedAt r <= now.

(** The clock never runs backwards from [now] on. *)
Fixpoint clock_monotone (now : Z) (ops : list Operation) : Prop :=
  match ops with
  | [] => True
  | op :: ops' => now <= clock op /\ clock_monotone (clock op) ops'
  end.




(** The clock after a sequence of operations that started at [now]. *)
Definition clock_after (now : Z) (ops : list Operation) : Z :=
  fold_left (fun _ op => clock op) ops now.

(** The columns no operation writes. *)
Definition same_request (r r' : DoctorRequest.t) : Prop :=
  DoctorRequest.id r' = DoctorRequest.id r
  /\ DoctorRequest.patientId r' = DoctorRequest.patientId r
  /\ DoctorRequest.doctorId r' = DoctorRequest.doctorId r
  /\ DoctorRequest.hospitalId r' = DoctorRequest.hospitalId r
  /\ DoctorRequest.note r' = DoctorRequest.note r
  /\ DoctorRequest.dataShare r' = DoctorRequest.dataShare r
  /\ DoctorRequest.createdAt r' = DoctorRequest.createdAt r.

(** ** Patient cases *)

(** [patient_cases] and [medical_files]; [doctorId] and [caseId] are
    nullable, and so is every column that is an option here. *)
Module PatientCase.
Record t : Type := mk {
  id : Z;
  patientId : Z;
  doctorId : option Z;
  cancerType : option string;
  stage : option string;
  tumorSize : option string;
  biomarkers : option Json;
  diagnosisData : option Json;
  treatmentPlan : option string;
  knowledgeGraph : option Json;
  createdAt : Z;
  updatedAt : Z
}.
End PatientCase.

Module MedicalFile.
Record t : Type := mk {
  id : Z;
  patientId : Z;
  caseId : option Z;
  fileName : string;
  fileType : string;
  filePath : string;
  fileSize : option Z;
  extractedText : option string;
  embeddings : option Json;
  metadata : option Json;
  createdAt : Z
}.
End MedicalFile.

(** The two tables, beside the tables of [Db], and the sequence of
    [patient_cases.id]. *)
Record CaseTables : Type := mkCaseTables {
  patientCases : list PatientCase.t;
  medicalFiles : list MedicalFile.t;
  patientCases_id_seq : Z
}.

Module CaseStorage.

Definition getPatientCaseById (ct : CaseTables) (id : Z) : option PatientCase.t :=
  find (fun c => PatientCase.id c =? id) (patientCases ct).

(** [orderBy(desc(createdAt))] on the files. *)
Fixpoint insert_file_desc (f : MedicalFile.t) (l : list MedicalFile.t) : list MedicalFile.t :=
  match l with
  | [] => [f]
  | x :: l' =>
      if MedicalFile.createdAt x <? MedicalFile.createdAt f
      then f :: l
      else x :: insert_file_desc f l'
  end.

Definition getMedicalFilesByCase (ct : CaseTables) (caseId : Z) : list MedicalFile.t :=
  fold_right insert_file_desc []
    (filter (fun f => match MedicalFile.caseId f with
                      | Some c => c =? caseId
                      | None => false
                      end)
            (medicalFiles ct)).

(** The tables once a statement has taken a value from the sequence and
    failed. *)
Definition case_nextval_consumed (ct : CaseTables) : CaseTables :=
  mkCaseTables (patientCases ct) (medicalFiles ct) (patientCases_id_seq ct + 1).

(** [createPatientCase]: the row gets the next value of the sequence and
    the clock as both timestamps, and [NULL] in the columns the data does
    not name.  [None] is the exception of the driver: for a parameter the
    database refuses ([patientId] is what [parseInt] returned), before the
    statement runs; for a patient id that names no patient, after the
    statement took its id from the sequence. *)
Definition createPatientCase (db : Db) (ct : CaseTables) (now : Z)
           (patientId : JsInt) (doctorId : Z)
           (cancerType stage tumorSize : JsField) (biomarkers : option Json)
  : option PatientCase.t * CaseTables :=
  match integer_parameter patientId with
  | None => (None, ct)
  | Some patientId =>
      if text_field_ok cancerType && text_field_ok stage && text_field_ok tumorSize
         && jsonb_ok biomarkers
      then
        match getPatientById db patientId, getDoctorById db doctorId with
        | Some _, Some _ =>
            let patientCase :=
              PatientCase.mk (patientCases_id_seq ct) patientId (Some doctorId)
                (nullable cancerType) (nullable stage) (nullable tumorSize)
                biomarkers None None None now now in
            (Some patientCase,
             mkCaseTables (patientCases ct ++ [patientCase]) (medicalFiles ct)
                          (patientCases_id_seq ct + 1))
        | _, _ => (None, case_nextval_consumed ct)
        end
      else (None, ct)
  end.

End CaseStorage.

Module CaseRoutes.
Import CaseStorage.

(** *** POST /api/cases *)

Record CaseBody : Type := mkCaseBody {
  case_patientId : JsInt;
  case_cancerType : JsField;
  case_stage : JsField;
  case_tumorSize : JsField;
  case_biomarkers : option Json
}.

Definition create_case (db : Db) (ct : CaseTables) (now : Z) (s : Session) (body : CaseBody)
  : Reply PatientCase.t * CaseTables :=
  match requireRole "doctor" s with
  | Some r => (r, ct)
  | None =>
      match getDoctorByUserId db (session_userId s) with
      | None => (Failure 403 "Doctor not found", ct)
      | Some doctor =>
          match createPatientCase db ct now (case_patientId body) (Doctor.id doctor)
                  (case_cancerType body) (case_stage body) (case_tumorSize body)
                  (case_biomarkers body) with
          | (Some patientCase, ct') => (Json200 patientCase, ct')
          | (None, ct') => (Failure 500 "Server error", ct')
          end
      end
  end.

(** *** GET /api/cases/:id *)

Record CaseView : Type := mkCaseView {
  view_case : PatientCase.t;
  view_patientName : option string;
  view_files : list MedicalFile.t
}.

(** [patientCase.doctorId !== doctor.id]. *)
Definition not_assigned (patientCase : PatientCase.t) (doctor : Doctor.t) : bool :=
  match PatientCase.doctorId patientCase with
  | Some d => negb (d =? Doctor.id doctor)
  | None => true
  end.

Definition get_case (db : Db) (ct : CaseTables) (s : Session) (id : Z) : Reply CaseView :=
  match requireAuth s with
  | Some r => r
  | None =>
      match getPatientCaseById ct id with
      | None => Failure 404 "Case not found"
      | Some patientCase =>
          let send :=
            let patient := getPatientById db (PatientCase.patientId patientCase) in
            let patientUser :=
              match patient with
              | Some p => getUserById db (Patient.userId p)
              | None => None
              end in
            Json200 (mkCaseView patientCase (option_map User.name patientUser)
                                (getMedicalFilesByCase ct id)) in
          if role_is s "patient" then
            match getPatientByUserId db (session_userId s) with
            | None => Failure 403 "Access denied"
            | Some patient =>
                if negb (Patient.id patient =? PatientCase.patientId patientCase)
                then Failure 403 "Access denied"
                else send
            end
          else if role_is s "doctor" then
            match getDoctorByUserId db (session_userId s) with
            | None => Failure 403 "Access denied - not assigned to this case"
            | Some doctor =>
                if not_assigned patientCase doctor
                then Failure 403 "Access denied - not assigned to this case"
                else send
            end
          else send
      end
  end.

End CaseRoutes.

Import CaseStorage CaseRoutes.

(** The database reads the parameters that the insert of
    [POST /api/cases] takes from the body. *)
Definition case_parameters_ok (body : CaseBody) : bool :=
  match integer_parameter (case_patientId body) with
  | Some _ =>
      text_field_ok (case_cancerType body) && text_field_ok (case_stage body)
      && text_field_ok (case_tumorSize body) && jsonb_ok (case_biomarkers body)
  | None => false
  end.

(** The sequence of [patient_cases.id] is ahead of every stored case. *)
Definition cases_well_formed (ct : CaseTables) : Prop :=
  forall c, In c (patientCases ct) -> PatientCase.id c < patientCases_id_seq ct.

Definition sample_cases : CaseTables :=
  mkCaseTables
    [ PatientCase.mk 1 3 (Some 7) (Some "liver") None None None None None None 1000 1000 ]
    [ MedicalFile.mk 1 3 (Some 1) "scan.pdf" "pdf" "uploads/scan.pdf" (Some 1024)
        None None None 1500;
      MedicalFile.mk 2 3 None "note.pdf" "pdf" "uploads/note.pdf" None None None None 1600 ]
    2.

(** ** server/services/textExtractor.ts *)

(** A string is the list of its UTF-16 code units, which is what
    [length], [slice] and a regular expression without the [u] flag work
    on. *)
Definition CodeUnit : Type := Z.

(** [text.slice(start, end)] for integer indices: a negative index counts
    from the end, both are clamped to the string, and the result is empty
    when they cross. *)
Definition slice {A : Type} (text : list A) (start end_ : Z) : list A :=
  let len := Z.of_nat (List.length text) in
  let from := if start <? 0 then Z.max (len + start) 0 else Z.min start len in
  let to := if end_ <? 0 then Z.max (len + end_) 0 else Z.min end_ len in
  firstn (Z.to_nat (to - from)) (skipn (Z.to_nat from) text).

(** The number nearest to the integer [n], ties to even, which is what an
    addition or a subtraction of integers returns for the exact result
    [n]: an integer again.  Every integer up to 2^53 in absolute value is
    a number. *)
Definition number_of (n : Z) : Z := if n <? 0 then - rnd0 0 (- n) else rnd0 0 n.

(** The integer is a finite number. *)
Definition is_number (n : Z) : bool := (number_of n =? n) && (Z.abs n <? 2 ^ 1024).

(** The [while] loop of [chunkText], for a [chunkSize] and an [overlap]
    that are integers (1000 and 200 when the caller gives none): [fuel]
    bounds the number of times the loop test is run, and [None] says that
    the loop was still running when it was used up.  The length of a
    string is below 2^53, so that no sum or difference here is beyond the
    largest finite number. *)
Fixpoint chunkText_loop {A : Type} (fuel : nat) (text : list A) (chunkSize overlap : Z)
         (start : Z) (chunks : list (list A)) : option (list (list A)) :=
  match fuel with
  | O => None
  | S fuel' =>
      let length := Z.of_nat (List.length text) in
      if start <? length then
        let end_ := Z.min (number_of (start + chunkSize)) length in
        let chunks := (chunks ++ [slice text start end_])%list in
        let start := number_of (end_ - overlap) in
        if length <=? number_of (start + overlap) then Some chunks
        else chunkText_loop fuel' text chunkSize overlap start chunks
      else Some chunks
  end.

(** [chunkText] on arguments a call can pass.  There is no call with an
    integer that is no number or with a text of 2^53 units or more, and
    [None] stands for that as well. *)
Definition chunkText {A : Type} (fuel : nat) (text : list A) (chunkSize overlap : Z)
  : option (list (list A)) :=
  if is_number chunkSize && is_number overlap && (Z.of_nat (List.length text) <? 2 ^ 53)
  then chunkText_loop fuel text chunkSize overlap 0 []
  else None.

(** [\s], which is also what [trim] removes: the white space and the line
    terminators of the language. *)
Definition isWhiteSpace (c : CodeUnit) : bool :=
  ((9 <=? c) && (c <=? 13)) || (c =? 32) || (c =? 160) || (c =? 5760)
  || ((8192 <=? c) && (c <=? 8202)) || (c =? 8232) || (c =? 8233)
  || (c =? 8239) || (c =? 8287) || (c =? 12288) || (c =? 65279).

(** [\w]: the ASCII letters, the digits and the underscore. *)
Definition isWord (c : CodeUnit) : bool :=
  ((48 <=? c) && (c <=? 57)) || ((65 <=? c) && (c <=? 90))
  || ((97 <=? c) && (c <=? 122)) || (c =? 95).

(** The other members of the class of the second [replace]:
    [.,;:()[]{}<>+-*/=%@#$&|^~`'] the double quote, [!?] and the line
    feed. *)
Definition punctuation : list CodeUnit :=
  [46; 44; 59; 58; 40; 41; 91; 93; 123; 125; 60; 62; 43; 45; 42; 47; 61; 37;
   64; 35; 36; 38; 124; 94; 126; 96; 39; 34; 33; 63; 10].

Definition isKept (c : CodeUnit) : bool :=
  isWord c || isWhiteSpace c || existsb (Z.eqb c) punctuation.

(** [replace(/\s+/g, " ")]: every maximal run of white space becomes one
    space; [in_run] says that the code unit before was white space. *)
Fixpoint replace_whitespace_runs (in_run : bool) (text : list CodeUnit) : list CodeUnit :=
  match text with
  | [] => []
  | c :: text' =>
      if isWhiteSpace c then
        if in_run then replace_whitespace_runs true text'
        else 32 :: replace_whitespace_runs true text'
      else c :: replace_whitespace_runs false text'
  end.

(** [replace(/[^...]/g, " ")]: every code unit outside the class becomes a
    space. *)
Definition replace_others (text : list CodeUnit) : list CodeUnit :=
  map (fun c => if isKept c then c else 32) text.

Fixpoint trimStart (text : list CodeUnit) : list CodeUnit :=
  match text with
  | [] => []
  | c :: text' => if isWhiteSpace c then trimStart text' else text
  end.

Definition trimEnd (text : list CodeUnit) : list CodeUnit :=
  rev (trimStart (rev text)).

Definition trim (text : list CodeUnit) : list CodeUnit := trimEnd (trimStart text).

Definition cleanMedicalText (text : list CodeUnit) : list CodeUnit :=
  trim (replace_others (replace_whitespace_runs false text)).

(** The chunks [chunkText] is meant to cut: windows of [chunkSize] units,
    [chunkSize - overlap] apart. *)
Definition window {A : Type} (text : list A) (chunkSize overlap : Z) (i : nat) : list A :=
  firstn (Z.to_nat chunkSize) (skipn (i * Z.to_nat (chunkSize - overlap)) text).

(** The only white space of the text is single spaces: [after] says that
    the code unit before was white space. *)
Fixpoint single_spaced (after : bool) (text : list CodeUnit) : bool :=
  match text with
  | [] => true
  | c :: text' =>
      if isWhiteSpace c then (c =? 32) && negb after && single_spaced true text'
      else single_spaced false text'
  end.

(** * Proofs *)

(** ** Lists and the ordered selects *)

Lemma existsb_insert_desc (f : DoctorRequest.t -> bool) r l :
  existsb f (insert_desc r l) = f r || existsb f l.
Proof.
  induction l as [|x l IH]; simpl.
  - reflexivity.
  - destruct (DoctorRequest.createdAt x <? DoctorRequest.createdAt r); simpl.
    + reflexivity.
    + rewrite IH. destruct (f r), (f x); reflexivity.
Qed.

Lemma existsb_orderBy (f : DoctorRequest.t -> bool) l :
  existsb f (orderBy_desc_createdAt l) = existsb f l.
Proof.
  induction l as [|x l IH]; simpl.
  - reflexivity.
  - rewrite existsb_insert_desc, IH. reflexivity.
Qed.

Lemma In_insert_desc r x l : In x (insert_desc r l) <-> x = r \/ In x l.
Proof.
  induction l as [|y l IH]; simpl.
  - intuition congruence.
  - destruct (DoctorRequest.createdAt y <? DoctorRequest.createdAt r); simpl.
    + intuition congruence.
    + rewrite IH. intuition congruence.
Qed.

Lemma In_orderBy x l : In x (orderBy_desc_createdAt l) <-> In x l.
Proof.
  induction l as [|y l IH]; simpl.
  - reflexivity.
  - rewrite In_insert_desc, IH. intuition congruence.
Qed.

Lemma In_getDoctorRequestsByDoctor db d r :
  In r (getDoctorRequestsByDoctor db d) <->
  In r (doctorRequests db) /\ DoctorRequest.doctorId r = d.
Proof.
  unfold getDoctorRequestsByDoctor.
  rewrite In_orderBy, filter_In, Z.eqb_eq. reflexivity.
Qed.

Lemma In_unique seen ids x :
  In x (unique seen ids) <-> In x ids /\ ~ In x seen.
Proof.
  revert seen. induction ids as [|i ids IH]; intros seen; simpl.
  - tauto.
  - destruct (existsb (Z.eqb i) seen) eqn:E.
    + apply existsb_exists in E. destruct E as [y [Hy Ey]].
      apply Z.eqb_eq in Ey. subst y.
      rewrite IH. split.
      * intros [H1 H2]. tauto.
      * intros [[H1|H1] H2]; [subst; contradiction | tauto].
    + assert (Hi : ~ In i seen).
      { intros Hin. rewrite <- not_true_iff_false in E. apply E.
        apply existsb_exists. exists i. split; [assumption | apply Z.eqb_refl]. }
      simpl. rewrite IH. simpl. split.
      * intros [H1 | [H1 H2]]; [subst; tauto | ].
        split; [tauto | intros H3; apply H2; tauto].
      * intros [[H1|H1] H2]; [tauto | ].
        destruct (Z.eq_dec i x); [tauto | right; split; [assumption | tauto]].
Qed.

(** What the access check of [GET /api/patients/:id] computes. *)
Lemma canDoctorAccessPatientCase_iff db d p :
  canDoctorAccessPatientCase db d p = true <->
  exists r, In r (doctorRequests db)
            /\ DoctorRequest.doctorId r = d
            /\ DoctorRequest.patientId r = p
            /\ DoctorRequest.status r = "approved".
Proof.
  unfold canDoctorAccessPatientCase, hasRelationship, getDoctorRequestsByDoctor.
  rewrite existsb_orderBy, existsb_exists. split.
  - intros [r [Hin Hr]]. apply filter_In in Hin. destruct Hin as [Hin Hd].
    apply andb_true_iff in Hr. destruct Hr as [Hp Hs].
    exists r. rewrite Z.eqb_eq in Hd, Hp. apply String.eqb_eq in Hs. auto.
  - intros [r [Hin [Hd [Hp Hs]]]]. exists r. split.
    + apply filter_In. split; [assumption | apply Z.eqb_eq; assumption].
    + apply andb_true_iff. split; [apply Z.eqb_eq | apply String.eqb_eq]; assumption.
Qed.

(** What [GET /api/doctor/patients] lists: the patients with an accepted
    request to the doctor. *)
Lemma acceptedPatientIds_iff db d p :
  In p (acceptedPatientIds db d) <->
  exists r, In r (doctorRequests db)
            /\ DoctorRequest.doctorId r = d
            /\ DoctorRequest.patientId r = p
            /\ DoctorRequest.status r = "accepted".
Proof.
  unfold acceptedPatientIds, acceptedRequests.
  rewrite In_unique, in_map_iff. split.
  - intros [[r [Hp Hin]] _]. apply filter_In in Hin. destruct Hin as [Hin Hs].
    apply In_getDoctorRequestsByDoctor in Hin. apply String.eqb_eq in Hs.
    exists r. tauto.
  - intros [r [Hin [Hd [Hp Hs]]]]. split; [ | simpl; tauto].
    exists r. split; [assumption | ]. apply filter_In. split.
    + apply In_getDoctorRequestsByDoctor. tauto.
    + apply String.eqb_eq. assumption.
Qed.

(** C1 (as the code runs it): with the single request of doctor 7 for
    patient 3 in status "accepted", the access check of
    [GET /api/patients/:id] answers false and the handler replies 403,
    although [GET /api/doctor/patients] lists patient 3 for the same
    doctor; the check compares the status with "approved", and it is false
    for a pending request as well. *)
Theorem accepted_request_is_denied :
  canDoctorAccessPatientCase (sample_db "accepted") 7 3 = false
  /\ get_patient (sample_db "accepted") doctor_session 3
     = Failure 403 "No approved relationship with this patient"
  /\ acceptedPatientIds (sample_db "accepted") 7 = [3]
  /\ canDoctorAccessPatientCase (sample_db "approved") 7 3 = true
  /\ canDoctorAccessPatientCase (sample_db "pending") 7 3 = false.
Proof. repeat split; reflexivity. Qed.

(** ** The writes of the two handlers *)

Lemma set_row_update_values now body r :
  set_row (with_updatedAt (update_values body) now) r = patched now body r.
Proof. reflexivity. Qed.

Lemma patched_id now body r : DoctorRequest.id (patched now body r) = DoctorRequest.id r.
Proof. reflexivity. Qed.

Lemma patch_rows_ids now id body rows :
  map DoctorRequest.id (patch_rows now id body rows) = map DoctorRequest.id rows.
Proof.
  unfold patch_rows. rewrite map_map. apply map_ext.
  intros r. destruct (DoctorRequest.id r =? id); reflexivity.
Qed.

Lemma nth_error_patch_rows now id body rows i :
  nth_error (patch_rows now id body rows) i
  = option_map (fun r => if DoctorRequest.id r =? id then patched now body r else r)
               (nth_error rows i).
Proof. unfold patch_rows. apply nth_error_map. Qed.

(** A [PATCH] either leaves the database as it is and replies with a
    failure, or passes every check and rewrites the rows with the id. *)
Lemma update_doctor_request_cases db now s id body :
  (exists code message,
      update_doctor_request db now s id body = (Failure code message, db))
  \/ (exists existing doctor request,
         signed_in_as s "doctor"
         /\ getDoctorRequestById db id = Some existing
         /\ getDoctorByUserId db (session_userId s) = Some doctor
         /\ DoctorRequest.doctorId existing = Doctor.id doctor
         /\ upd_status body <> Null
         /\ update_doctor_request db now s id body
            = (Json200 request,
               with_doctorRequests db (patch_rows now id body (doctorRequests db))
                                   (doctorRequests_id_seq db))).
Proof.
  unfold update_doctor_request, requireRole.
  destruct (not_authenticated s) eqn:Ea; [left; eauto | ].
  destruct (role_is s "doctor") eqn:Er; simpl; [ | left; eauto].
  destruct (int4 id) eqn:Ei; simpl; [ | left; eauto].
  destruct (getDoctorRequestById db id) as [existing|] eqn:Ee; [ | left; eauto].
  destruct (getDoctorByUserId db (session_userId s)) as [doctor|] eqn:Ed; [ | left; eauto].
  destruct (DoctorRequest.doctorId existing =? Doctor.id doctor) eqn:Eo; simpl;
    [ | left; eauto].
  apply Z.eqb_eq in Eo.
  unfold updateDoctorRequest.
  match goal with |- context [update_parameters_ok ?i ?v] =>
    destruct (update_parameters_ok i v) end; simpl; [ | left; eauto].
  match goal with |- context [forallb ?f ?l] => destruct (forallb f l) eqn:Ef end;
    [ | left; eauto].
  right. eexists existing, doctor, _. repeat split; try eassumption.
  intros Hnull.
  apply find_some in Ee. destruct Ee as [Hin Hid].
  rewrite forallb_forall in Ef.
  specialize (Ef (set_row (with_updatedAt (update_values body) now) existing)).
  unfold update_ok in Ef. simpl in Ef. rewrite Hnull in Ef.
  assert (false = true) as Habs; [ | discriminate Habs].
  apply Ef. apply in_map. apply filter_In. split; assumption.
Qed.

(** A [POST] either replies with a failure and leaves the tables as they
    are, the sequence having given out a value or not, or appends one
    row. *)
Lemma create_doctor_request_cases db now s body :
  (exists code message db',
      create_doctor_request db now s body = (Failure code message, db')
      /\ (db' = db \/ db' = nextval_consumed db))
  \/ (exists user patient doctorId hospitalId,
         signed_in_as s "patient"
         /\ getUserById db (session_userId s) = Some user
         /\ User.role user = "patient"
         /\ getPatientByUserId db (User.id user) = Some patient
         /\ body_doctorId body = Some doctorId
         /\ let request :=
              DoctorRequest.mk (doctorRequests_id_seq db) (Patient.id patient) doctorId
                hospitalId "pending" (nullable (body_note body)) None None
                (body_dataShare body) now now in
            create_doctor_request db now s body
            = (Json200 request,
               with_doctorRequests db (doctorRequests db ++ [request])
                                   (doctorRequests_id_seq db + 1))).
Proof.
  unfold create_doctor_request, requireRole.
  destruct (not_authenticated s) eqn:Ea; [refused | ].
  destruct (role_is s "patient") eqn:Er; simpl; [ | refused].
  destruct (getUserById db (session_userId s)) as [user|] eqn:Eu; [ | refused].
  destruct (String.eqb (User.role user) "patient") eqn:Erole; simpl; [ | refused].
  apply String.eqb_eq in Erole.
  destruct (getPatientByUserId db (User.id user)) as [patient|] eqn:Ep; [ | refused].
  unfold createDoctorRequest, integer_parameter, hospitalId_parameter; simpl.
  destruct (body_doctorId body) as [doctorId|] eqn:Edoc; [ | refused].
  destruct (int4 doctorId); [ | refused].
  destruct (body_hospitalId body) as [[h|]|] eqn:Eh; try (refused; fail).
  - destruct (int4 h); [ | refused].
    destruct (text_field_ok (body_note body)); simpl; [ | refused].
    destruct (jsonb_ok (body_dataShare body)); simpl; [ | refused].
    destruct (references_ok db (Patient.id patient) doctorId (Some h)); [ | refused].
    right. exists user, patient, doctorId, (Some h). repeat split; assumption.
  - destruct (text_field_ok (body_note body)); simpl; [ | refused].
    destruct (jsonb_ok (body_dataShare body)); simpl; [ | refused].
    destruct (references_ok db (Patient.id patient) doctorId None); [ | refused].
    right. exists user, patient, doctorId, None. repeat split; assumption.
Qed.

Lemma find_id_Some {A : Type} (key : A -> Z) (l : list A) k x :
  find (fun y => key y =? k) l = Some x -> In x l /\ key x = k.
Proof.
  intros H. apply find_some in H. rewrite Z.eqb_eq in H. exact H.
Qed.

(** Under the primary key, the row found by its id is the row itself. *)
Lemma find_unique (rows : list DoctorRequest.t) r :
  NoDup (map DoctorRequest.id rows) -> In r rows ->
  find (fun x => DoctorRequest.id x =? DoctorRequest.id r) rows = Some r.
Proof.
  induction rows as [|x rows IH]; simpl; intros Hnd Hin; [contradiction | ].
  inversion Hnd as [|? ? Hx Hnd']; subst.
  destruct Hin as [->|Hin].
  - rewrite Z.eqb_refl. reflexivity.
  - destruct (DoctorRequest.id x =? DoctorRequest.id r) eqn:E.
    + apply Z.eqb_eq in E. exfalso. apply Hx. rewrite E. apply in_map. assumption.
    + apply IH; assumption.
Qed.

(** The handlers keep the primary key and the sequence ahead of it. *)
Lemma well_formed_run db op : well_formed db -> well_formed (run db op).
Proof.
  intros [Hpk Hseq]. destruct op as [now s body | now s id body]; simpl.
  - destruct (create_doctor_request_cases db now s body)
      as [[code [message [db' [E Hdb]]]] | [user [patient [d [h [_ [_ [_ [_ [_ E]]]]]]]]]];
      rewrite E; simpl.
    { destruct Hdb as [-> | ->]; [split; assumption | ].
      split; [exact Hpk | ]. simpl. intros r Hr. specialize (Hseq r Hr). lia. }
    split.
    + unfold primary_key. simpl. rewrite map_app. simpl.
      apply NoDup_app; [assumption | repeat constructor; simpl; tauto | ].
      intros a Ha [<-|[]]. apply in_map_iff in Ha. destruct Ha as [r [Hr Hin]].
      specialize (Hseq r Hin). lia.
    + simpl. intros r Hr. apply in_app_iff in Hr. destruct Hr as [Hr|[<-|[]]].
      * specialize (Hseq r Hr). lia.
      * simpl. lia.
  - destruct (update_doctor_request_cases db now s id body)
      as [[code [message E]] | [e [d [q [_ [_ [_ [_ [_ E]]]]]]]]];
      rewrite E; simpl; [split; assumption | ].
    split.
    + unfold primary_key. simpl. rewrite patch_rows_ids. assumption.
    + simpl. intros r Hr. unfold patch_rows in Hr. apply in_map_iff in Hr.
      destruct Hr as [r0 [Er Hr0]]. specialize (Hseq r0 Hr0).
      destruct (DoctorRequest.id r0 =? id); subst r; simpl; assumption.
Qed.

(** The rows a [POST] leaves: those it found, and the new one behind them
    when it succeeds. *)
Lemma create_doctor_request_rows db now s body :
  doctorRequests (snd (create_doctor_request db now s body)) = doctorRequests db
  \/ exists request,
       DoctorRequest.status request = "pending"
       /\ doctorRequests (snd (create_doctor_request db now s body))
          = (doctorRequests db ++ [request])%list.
Proof.
  destruct (create_doctor_request_cases db now s body)
    as [[code [message [db' [E Hdb]]]] | [user [patient [d [h [_ [_ [_ [_ [_ E]]]]]]]]]];
    rewrite E; simpl.
  - left. destruct Hdb as [-> | ->]; reflexivity.
  - right. eexists. split; [ | reflexivity]. reflexivity.
Qed.

(** The rows a [PATCH] leaves: those it found when it replies with a
    failure, and otherwise the rows with the given id rewritten; it then
    comes from the doctor the request with that id is addressed to. *)
Lemma update_doctor_request_rows db now s id body :
  match fst (update_doctor_request db now s id body) with
  | Failure _ _ => snd (update_doctor_request db now s id body) = db
  | Json200 _ =>
      doctorRequests (snd (update_doctor_request db now s id body))
      = patch_rows now id body (doctorRequests db)
      /\ upd_status body <> Null
      /\ signed_in_as s "doctor"
      /\ exists existing,
           getDoctorRequestById db id = Some existing
           /\ actor_doctorId db s = Some (DoctorRequest.doctorId existing)
  end.
Proof.
  destruct (update_doctor_request_cases db now s id body)
    as [[code [message E]] | [e [d [q [Hs [He [Hd [Ho [Hn E]]]]]]]]];
    rewrite E; simpl; [reflexivity | ].
  repeat split; try assumption; try apply Hs.
  exists e. split; [assumption | ].
  unfold actor_doctorId. rewrite Hd. simpl. congruence.
Qed.




(** The handler stores a status string as it comes. *)
Lemma status_outside_the_four_values :
  let db := sample_db "accepted" in
  let body := mkUpdateBody (Str "cancelled") Undefined Undefined in
  let request := patched 2000 body (sample_request "accepted") in
  update_doctor_request db 2000 doctor_session 1 body
  = (Json200 (Some request),
     with_doctorRequests db [request] (doctorRequests_id_seq db))
  /\ DoctorRequest.status request = "cancelled"
  /\ ~ status_enum (DoctorRequest.status request).
Proof.
  repeat split.
  unfold status_enum. simpl. intros [H|[H|[H|H]]]; discriminate H.
Qed.

(** While callers send one of the three answers (or no status), the table
    stays inside the four values. *)
Lemma status_enum_preserved db op :
  primary_key db ->
  (forall r, In r (doctorRequests db) -> status_enum (DoctorRequest.status r)) ->
  (forall now s id body st,
      op = PatchDoctorRequest now s id body -> upd_status body = Str st ->
      st = "accepted" \/ st = "declined" \/ st = "reschedule") ->
  forall r', In r' (doctorRequests (run db op)) -> status_enum (DoctorRequest.status r').
Proof.
  intros Hpk Hall Hop r' Hin.
  apply In_nth_error in Hin. destruct Hin as [j Hj].
  assert (H := Hj).
  destruct op as [now s body | now s id body]; simpl in H.
  - destruct (create_doctor_request_rows db now s body) as [E | [request [Hst E]]];
      rewrite E in H.
    + apply Hall. eapply nth_error_In; eassumption.
    + apply nth_error_In in H. apply in_app_iff in H.
      destruct H as [H|[<-|[]]]; [apply Hall; assumption | left; assumption].
  - destruct (update_doctor_request_cases db now s id body)
      as [[code [message E]] | [e [d [q [_ [_ [_ [_ [Hn E]]]]]]]]];
      rewrite E in H; simpl in H.
    + apply Hall. eapply nth_error_In; eassumption.
    + apply nth_error_In in H. unfold patch_rows in H. apply in_map_iff in H.
      destruct H as [r [Er Hr]]. specialize (Hall r Hr).
      destruct (DoctorRequest.id r =? id); [ | subst; assumption].
      subst r'. unfold patched; simpl.
      destruct (upd_status body) as [| |st] eqn:Est; try assumption.
      right. apply (Hop now s id body st); [reflexivity | assumption].
Qed.

(** C6 (amended): a [PATCH] from a signed-in doctor whose id is in the
    range of the column is answered 404 when it names no stored request,
    and 403 when it names a request addressed to another doctor; one whose
    id is outside the range is answered 500.  All three leave the database
    as it was. *)
Theorem update_rejects_foreign_and_missing db now s id body
  (Hs : signed_in_as s "doctor") :
  if int4 id then
    match getDoctorRequestById db id with
    | None =>
        update_doctor_request db now s id body = (Failure 404 "Request not found", db)
    | Some existingRequest =>
        actor_doctorId db s <> Some (DoctorRequest.doctorId existingRequest) ->
        update_doctor_request db now s id body = (Failure 403 "Access denied", db)
    end
  else update_doctor_request db now s id body = (Failure 500 "Server error", db).
Proof.
  destruct Hs as [Ha Hr].
  unfold update_doctor_request, requireRole, actor_doctorId.
  rewrite Ha, Hr. simpl.
  destruct (int4 id); simpl; [ | reflexivity].
  destruct (getDoctorRequestById db id) as [existing|]; [ | reflexivity].
  destruct (getDoctorByUserId db (session_userId s)) as [doctor|]; simpl;
    [ | reflexivity].
  intros Hne.
  destruct (DoctorRequest.doctorId existing =? Doctor.id doctor) eqn:E; simpl;
    [ | reflexivity].
  apply Z.eqb_eq in E. congruence.
Qed.

(** C6 (witness): doctor 8 tries to accept the request addressed to
    doctor 7. *)
Lemma update_rejects_foreign_and_missing_witness :
  update_doctor_request (sample_db "pending") 2000 other_doctor_session 1
    (mkUpdateBody (Str "accepted") Undefined Undefined)
  = (Failure 403 "Access denied", sample_db "pending").
Proof.
  refine (update_rejects_foreign_and_missing (sample_db "pending") 2000
            other_doctor_session 1
            (mkUpdateBody (Str "accepted") Undefined Undefined) _ _).
  - split; reflexivity.
  - simpl. discriminate.
Defined.

(** C6 (counterexample): no request has the id 2^31, and the [PATCH] of
    doctor 7 that names it is answered 500, not 404. *)
Lemma missing_request_out_of_range_counterexample :
  let body := mkUpdateBody (Str "accepted") Undefined Undefined in
  getDoctorRequestById (sample_db "pending") (2 ^ 31) = None
  /\ update_doctor_request (sample_db "pending") 2000 doctor_session (2 ^ 31) body
     = (Failure 500 "Server error", sample_db "pending")
  /\ update_doctor_request (sample_db "pending") 2000 doctor_session (2 ^ 31) body
     <> (Failure 404 "Request not found", sample_db "pending").
Proof. repeat split. discriminate. Qed.

(** C7: a [POST] that succeeds comes from a session with the patient role
    whose user is a patient; the row it stores carries the id of that
    user's patient row and the status "pending", whatever the body says. *)
Theorem created_request_is_own_and_pending db now s body request db'
  (Hok : create_doctor_request db now s body = (Json200 request, db')) :
  signed_in_as s "patient"
  /\ (exists user patient,
         getUserById db (session_userId s) = Some user
         /\ User.id user = session_userId s
         /\ User.role user = "patient"
         /\ getPatientByUserId db (session_userId s) = Some patient
         /\ DoctorRequest.patientId request = Patient.id patient)
  /\ DoctorRequest.status request = "pending"
  /\ doctorRequests db' = (doctorRequests db ++ [request])%list.
Proof.
  destruct (create_doctor_request_cases db now s body)
    as [[code [message [db0 [E _]]]] | [user [patient [d [h [Hs [Hu [Hrole [Hp [_ E]]]]]]]]]];
    rewrite E in Hok; [discriminate Hok | ].
  simpl in Hok. inversion Hok; subst; clear Hok.
  assert (Hid : User.id user = session_userId s).
  { unfold getUserById in Hu. apply find_id_Some in Hu. apply Hu. }
  split; [assumption | split; [ | split; reflexivity]].
  exists user, patient. rewrite <- Hid. repeat split; try assumption.
  rewrite Hid. assumption.
Qed.

(** C7 (witness): patient 3 asks doctor 8, sending a status and another
    patient's id along. *)
Lemma created_request_is_own_and_pending_witness :
  let body := mkCreateBody (Some 8) None (Str "please") None (Str "accepted") (Some 4) in
  signed_in_as patient_session "patient"
  /\ (exists user patient,
         getUserById (sample_db "pending") (session_userId patient_session) = Some user
         /\ User.id user = session_userId patient_session
         /\ User.role user = "patient"
         /\ getPatientByUserId (sample_db "pending") (session_userId patient_session)
            = Some patient
         /\ 3 = Patient.id patient)
  /\ "pending" = "pending"
  /\ doctorRequests (snd (create_doctor_request (sample_db "pending") 2000 patient_session body))
     = (doctorRequests (sample_db "pending")
        ++ [DoctorRequest.mk 2 3 8 None "pending" (Some "please") None None None 2000 2000])%list.
Proof.
  intros body.
  exact (created_request_is_own_and_pending (sample_db "pending") 2000 patient_session body
           (DoctorRequest.mk 2 3 8 None "pending" (Some "please") None None None 2000 2000)
           (snd (create_doctor_request (sample_db "pending") 2000 patient_session body))
           eq_refl).
Defined.

(** C8: an operation keeps every stored request at its place.  A [POST]
    leaves it as it is, and so does a [PATCH] that replies with a failure.
    A [PATCH] that replies with the request leaves it as it is unless it
    is the request with the given id: that one is then the request with
    [status], [scheduleNote] and [proposedSlot] taken from the body where
    the body holds them, [updatedAt] set to the clock, and every other
    column as it was. *)
Theorem update_changes_three_fields_and_clock db op i r
  (Hr : nth_error (doctorRequests db) i = Some r) :
  exists r',
    nth_error (doctorRequests (run db op)) i = Some r'
    /\ match op with
       | PostDoctorRequest _ _ _ => r' = r
       | PatchDoctorRequest now s id body =>
           match fst (update_doctor_request db now s id body) with
           | Failure _ _ => r' = r
           | Json200 _ =>
               if DoctorRequest.id r =? id
               then r' = DoctorRequest.mk
                           (DoctorRequest.id r)
                           (DoctorRequest.patientId r)
                           (DoctorRequest.doctorId r)
                           (DoctorRequest.hospitalId r)
                           (match upd_status body with
                            | Str st => st
                            | _ => DoctorRequest.status r
                            end)
                           (DoctorRequest.note r)
                           (match upd_scheduleNote body with
                            | Undefined => DoctorRequest.scheduleNote r
                            | Null => None
                            | Str n => Some n
                            end)
                           (match upd_proposedSlot body with
                            | Undefined => DoctorRequest.proposedSlot r
                            | Null => None
                            | Str p => Some p
                            end)
                           (DoctorRequest.dataShare r)
                           (DoctorRequest.createdAt r)
                           now
               else r' = r
           end
       end.
Proof.
  destruct op as [now s body | now s id body]; simpl.
  - exists r. split; [ | reflexivity].
    destruct (create_doctor_request_rows db now s body) as [E | [request [_ E]]];
      rewrite E; [assumption | ].
    rewrite nth_error_app1 by (apply nth_error_Some; congruence). assumption.
  - assert (Hrows := update_doctor_request_rows db now s id body).
    destruct (fst (update_doctor_request db now s id body)) as [q | code message].
    + destruct Hrows as [E _]. rewrite E, nth_error_patch_rows, Hr. simpl.
      destruct (DoctorRequest.id r =? id).
      * exists (patched now body r). split; [reflexivity | ].
        unfold patched, set_text. destruct (upd_status body); reflexivity.
      * exists r. split; reflexivity.
    + rewrite Hrows. exists r. split; [assumption | reflexivity].
Qed.

(** C8 (witness): doctor 7 proposes a new slot for request 1. *)
Lemma update_changes_three_fields_and_clock_witness :
  exists r',
    nth_error
      (doctorRequests
         (run (sample_db "pending")
              (PatchDoctorRequest 2000 doctor_session 1
                 (mkUpdateBody (Str "reschedule") (Str "busy") (Str "Monday")))))
      0
    = Some r'
    /\ r' = DoctorRequest.mk 1 3 7 None "reschedule" (Some "hello")
              (Some "busy") (Some "Monday") None 1000 2000.
Proof.
  exact (update_changes_three_fields_and_clock (sample_db "pending")
           (PatchDoctorRequest 2000 doctor_session 1
              (mkUpdateBody (Str "reschedule") (Str "busy") (Str "Monday")))
           0%nat (sample_request "pending") eq_refl).
Defined.

(** ** Rounding on integers *)

Lemma pow2_pos k : 0 <= k -> 0 < 2 ^ k.
Proof. intros. apply Z.pow_pos_nonneg; lia. Qed.

Lemma rne_bounds N k : 0 <= k -> N / 2 ^ k <= rne N k <= N / 2 ^ k + 1.
Proof.
  intros Hk. unfold rne.
  destruct (2 * (N mod 2 ^ k) ?= 2 ^ k); [destruct (Z.even _) | | ]; lia.
Qed.

Lemma rne_exact M k : 0 <= k -> rne (M * 2 ^ k) k = M.
Proof.
  intros Hk. unfold rne. pose proof (pow2_pos k Hk).
  rewrite Z.mod_mul, Z.div_mul by lia.
  destruct (2 * 0 ?= 2 ^ k) eqn:E; try reflexivity.
  - apply Z.compare_eq in E. lia.
  - apply Z.compare_gt_iff in E. lia.
Qed.

(** Rounding to nearest is monotone. *)
Lemma rne_mono N1 N2 k : 0 <= k -> N1 <= N2 -> rne N1 k <= rne N2 k.
Proof.
  intros Hk Hle. pose proof (pow2_pos k Hk) as Hp.
  assert (Hq : N1 / 2 ^ k <= N2 / 2 ^ k) by (apply Z.div_le_mono; lia).
  destruct (Z.eq_dec (N1 / 2 ^ k) (N2 / 2 ^ k)) as [Heq|Hne].
  - assert (Hr : N1 mod 2 ^ k <= N2 mod 2 ^ k).
    { rewrite !Z.mod_eq by lia. rewrite Heq. lia. }
    unfold rne. rewrite Heq. cbv zeta.
    destruct (Z.compare_spec (2 * (N1 mod 2 ^ k)) (2 ^ k));
      destruct (Z.compare_spec (2 * (N2 mod 2 ^ k)) (2 ^ k));
      try destruct (Z.even (N2 / 2 ^ k)); lia.
  - pose proof (rne_bounds N1 k Hk). pose proof (rne_bounds N2 k Hk). lia.
Qed.

Lemma rne_0 k : 0 <= k -> rne 0 k = 0.
Proof. intros Hk. rewrite <- (rne_exact 0 k Hk) at 2. reflexivity. Qed.

(** Rounding cannot cross a multiple of the unit. *)
Lemma rne_le_multiple N A k : 0 <= k -> N <= A * 2 ^ k -> rne N k <= A.
Proof.
  intros Hk H. rewrite <- (rne_exact A k Hk). apply rne_mono; assumption.
Qed.

Lemma rne_ge_multiple N A k : 0 <= k -> A * 2 ^ k <= N -> A <= rne N k.
Proof.
  intros Hk H. rewrite <- (rne_exact A k Hk). apply rne_mono; assumption.
Qed.

(** Rounding to a coarser unit after scaling. *)
Lemma rne_scale N k j : 0 <= k -> 0 <= j -> rne (N * 2 ^ j) (k + j) = rne N k.
Proof.
  intros Hk Hj. unfold rne.
  pose proof (pow2_pos k Hk). pose proof (pow2_pos j Hj).
  rewrite Z.pow_add_r by lia.
  rewrite Z.div_mul_cancel_r by lia.
  rewrite Z.mul_mod_distr_r by lia.
  replace (2 * (N mod 2 ^ k * 2 ^ j)) with ((2 * (N mod 2 ^ k)) * 2 ^ j) by ring.
  destruct (Z.compare_spec (2 * (N mod 2 ^ k)) (2 ^ k));
    destruct (Z.compare_spec (2 * (N mod 2 ^ k) * 2 ^ j) (2 ^ k * 2 ^ j));
    try reflexivity; nia.
Qed.

Lemma dig_bounds N : 0 < N -> 2 ^ (dig N - 1) <= N < 2 ^ dig N.
Proof.
  intros H. unfold dig. destruct (N <=? 0) eqn:E; [apply Z.leb_le in E; lia | ].
  replace (Z.log2 N + 1 - 1) with (Z.log2 N) by lia.
  replace (Z.log2 N + 1) with (Z.succ (Z.log2 N)) by lia.
  apply Z.log2_spec. assumption.
Qed.

Lemma dig_pos N : 0 < N -> 0 < dig N.
Proof.
  intros H. unfold dig. destruct (N <=? 0) eqn:E; [apply Z.leb_le in E; lia | ].
  pose proof (Z.log2_nonneg N). lia.
Qed.

Lemma dig_unique N d : 0 < d -> 2 ^ (d - 1) <= N < 2 ^ d -> dig N = d.
Proof.
  intros Hd H. assert (0 < N) by (pose proof (pow2_pos (d - 1)); lia).
  unfold dig. destruct (N <=? 0) eqn:E; [apply Z.leb_le in E; lia | ].
  assert (Z.log2 N = d - 1); [ | lia].
  apply Z.log2_unique; [lia | ]. replace (Z.succ (d - 1)) with d by lia. assumption.
Qed.

Lemma dig_mono N1 N2 : N1 <= N2 -> dig N1 <= dig N2.
Proof.
  intros H. unfold dig.
  destruct (N1 <=? 0) eqn:E1; destruct (N2 <=? 0) eqn:E2;
    rewrite ?Z.leb_le, ?Z.leb_gt in *; try lia.
  - pose proof (Z.log2_nonneg N2). lia.
  - pose proof (Z.log2_le_mono N1 N2). lia.
Qed.

Lemma dig_shift N j : 0 < N -> 0 <= j -> dig (N * 2 ^ j) = dig N + j.
Proof.
  intros HN Hj. pose proof (dig_bounds N HN) as [H1 H2]. pose proof (dig_pos N HN).
  apply dig_unique; [lia | ].
  replace (dig N + j - 1) with (dig N - 1 + j) by lia.
  rewrite !Z.pow_add_r by lia. pose proof (pow2_pos j Hj). nia.
Qed.

Lemma expo_nonneg c N : 0 <= c -> 0 <= expo c N.
Proof. unfold expo. lia. Qed.

Lemma expo_mono c N1 N2 : N1 <= N2 -> expo c N1 <= expo c N2.
Proof. intros H. unfold expo. pose proof (dig_mono N1 N2 H). lia. Qed.

Lemma pow2_le a b : 0 <= a <= b -> 2 ^ a <= 2 ^ b.
Proof. intros. apply Z.pow_le_mono_r; lia. Qed.

Lemma pow2_lt a b : 0 <= a < b -> 2 ^ a < 2 ^ b.
Proof. intros. apply Z.pow_lt_mono_r; lia. Qed.

Lemma pow2_split a b : 0 <= a <= b -> 2 ^ b = 2 ^ (b - a) * 2 ^ a.
Proof. intros. rewrite <- Z.pow_add_r by lia. f_equal. lia. Qed.

Lemma rnd0_upper c N : 0 <= c -> 0 < N -> rnd0 c N <= 2 ^ Z.max (dig N) c.
Proof.
  intros Hc HN. unfold rnd0.
  pose proof (expo_nonneg c N Hc) as HE.
  pose proof (dig_bounds N HN) as [_ Hd]. pose proof (dig_pos N HN).
  assert (Hle : expo c N <= Z.max (dig N) c) by (unfold expo; lia).
  rewrite (pow2_split (expo c N) (Z.max (dig N) c)) by lia.
  apply Z.mul_le_mono_nonneg_r; [pose proof (pow2_pos _ HE); lia | ].
  apply rne_le_multiple; [assumption | ].
  rewrite <- pow2_split by lia.
  pose proof (pow2_le (dig N) (Z.max (dig N) c)). lia.
Qed.

Lemma rnd0_lower c N : 0 <= c -> 0 < N -> c < dig N - 53 -> 2 ^ (dig N - 1) <= rnd0 c N.
Proof.
  intros Hc HN Hbig. unfold rnd0.
  pose proof (dig_bounds N HN) as [Hd _].
  assert (HE : expo c N = dig N - 53) by (unfold expo; lia).
  rewrite HE.
  rewrite (pow2_split (dig N - 53) (dig N - 1)) by lia.
  apply Z.mul_le_mono_nonneg_r; [pose proof (pow2_pos (dig N - 53)); lia | ].
  apply rne_ge_multiple; [lia | ].
  rewrite <- pow2_split by lia. assumption.
Qed.

(** The rounding is monotone across exponents: below a change of
    exponent a value rounds to at most the power of two that opens the next one. *)
Lemma rnd0_mono c N1 N2 : 0 <= c -> 0 <= N1 <= N2 -> rnd0 c N1 <= rnd0 c N2.
Proof.
  intros Hc [H0 Hle].
  destruct (Z.eq_dec N1 0) as [->|Hn0].
  { unfold rnd0 at 1. rewrite rne_0 by (apply expo_nonneg; assumption).
    unfold rnd0. pose proof (expo_nonneg c N2 Hc) as HE.
    pose proof (pow2_pos _ HE).
    assert (0 <= rne N2 (expo c N2)); [ | nia].
    apply rne_ge_multiple; lia. }
  assert (HN1 : 0 < N1) by lia. assert (HN2 : 0 < N2) by lia.
  pose proof (expo_mono c N1 N2 Hle) as HEm.
  destruct (Z.eq_dec (expo c N1) (expo c N2)) as [Heq|Hne].
  - unfold rnd0. rewrite Heq.
    pose proof (expo_nonneg c N2 Hc) as HE. pose proof (pow2_pos _ HE).
    apply Z.mul_le_mono_nonneg_r; [lia | ]. apply rne_mono; assumption.
  - assert (Hlt : expo c N1 < expo c N2) by lia.
    assert (Hbig : c < dig N2 - 53) by (unfold expo in *; lia).
    pose proof (rnd0_upper c N1 Hc HN1). pose proof (rnd0_lower c N2 Hc HN2 Hbig).
    assert (Z.max (dig N1) c <= dig N2 - 1) by (unfold expo in *; lia).
    pose proof (dig_pos N1 HN1).
    pose proof (pow2_le (Z.max (dig N1) c) (dig N2 - 1)). lia.
Qed.

(** The binary64 rounding is monotone. *)
Lemma rnd_mono c N1 N2 : 0 <= c -> 0 <= N1 <= N2 -> rnd c N1 <= rnd c N2.
Proof.
  intros Hc H. unfold rnd. fold (rnd0 c N1). fold (rnd0 c N2).
  pose proof (rnd0_mono c N1 N2 Hc H). lia.
Qed.

(** A value that fits in 53 bits of the unit 2^E0, E0 >= c, is kept. *)
Lemma rnd0_exact c M E0 : 0 <= c <= E0 -> 0 <= M < 2 ^ 53 -> rnd0 c (M * 2 ^ E0) = M * 2 ^ E0.
Proof.
  intros Hc HM. unfold rnd0.
  destruct (Z.eq_dec M 0) as [->|Hn0].
  { rewrite Z.mul_0_l. rewrite rne_0 by (apply expo_nonneg; lia). reflexivity. }
  assert (HMp : 0 < M) by lia.
  assert (HE : expo c (M * 2 ^ E0) <= E0).
  { unfold expo. rewrite dig_shift by lia.
    assert (dig M <= 53); [ | lia].
    pose proof (dig_bounds M HMp) as [Hd _].
    destruct (Z_le_gt_dec (dig M) 53); [assumption | ].
    pose proof (pow2_le 53 (dig M - 1)). lia. }
  pose proof (expo_nonneg c (M * 2 ^ E0) (proj1 Hc)) as HE0.
  set (E := expo c (M * 2 ^ E0)) in *.
  rewrite (pow2_split E E0) by lia.
  rewrite Z.mul_assoc. rewrite rne_exact by lia. reflexivity.
Qed.

Lemma rnd_exact c M E0 :
  0 <= c <= E0 -> 0 <= M < 2 ^ 53 -> M * 2 ^ E0 <= 2 ^ (2098 + c) ->
  rnd c (M * 2 ^ E0) = M * 2 ^ E0.
Proof.
  intros Hc HM Hcap. unfold rnd. fold (rnd0 c (M * 2 ^ E0)).
  rewrite rnd0_exact by assumption. lia.
Qed.

Lemma rnd_overflow c N : 0 <= c -> 2 ^ (2098 + c) <= N -> rnd c N = 2 ^ (2098 + c).
Proof.
  intros Hc HN. unfold rnd. fold (rnd0 c N).
  assert (H : rnd0 c (1 * 2 ^ (2098 + c)) <= rnd0 c N).
  { apply rnd0_mono; [assumption | ]. pose proof (pow2_pos (2098 + c)). lia. }
  rewrite rnd0_exact in H; [lia | lia | ].
  pose proof (pow2_pos 53). lia.
Qed.

Lemma rnd_le_cap c N : rnd c N <= 2 ^ (2098 + c).
Proof. unfold rnd. lia. Qed.

Lemma rnd_0 c : 0 <= c -> rnd c 0 = 0.
Proof.
  intros Hc. unfold rnd. rewrite rne_0 by (apply expo_nonneg; assumption).
  pose proof (pow2_pos (2098 + c)). lia.
Qed.

Lemma rnd_nonneg c N : 0 <= c -> 0 <= N -> 0 <= rnd c N.
Proof.
  intros Hc HN. rewrite <- (rnd_0 c Hc). apply rnd_mono; lia.
Qed.

(** A finer unit does not change the rounding. *)
Lemma rnd_scale c N j : 0 <= c -> 0 <= j -> 0 <= N -> rnd (c + j) (N * 2 ^ j) = rnd c N * 2 ^ j.
Proof.
  intros Hc Hj HN. pose proof (pow2_pos j Hj) as Hpj.
  destruct (Z.eq_dec N 0) as [->|Hn0].
  { rewrite Z.mul_0_l, !rnd_0 by lia. reflexivity. }
  unfold rnd.
  assert (HE : expo (c + j) (N * 2 ^ j) = expo c N + j).
  { unfold expo. rewrite dig_shift by lia. lia. }
  rewrite HE. pose proof (expo_nonneg c N Hc).
  rewrite rne_scale by lia.
  replace (2098 + (c + j)) with (2098 + c + j) by lia.
  rewrite !Z.pow_add_r by lia.
  rewrite Z.mul_assoc.
  rewrite Z.mul_min_distr_nonneg_r by lia. reflexivity.
Qed.

(** ** The rounding of [SpecFloat] computes [rne] *)

Lemma digits2_pos_bounds p :
  2 ^ (Zpos (digits2_pos p) - 1) <= Zpos p < 2 ^ Zpos (digits2_pos p).
Proof.
  induction p as [p IH|p IH|]; simpl digits2_pos.
  - rewrite Pos2Z.inj_succ. rewrite (Pos2Z.inj_xI p).
    replace (Z.succ (Z.pos (digits2_pos p)) - 1) with (Z.succ (Z.pos (digits2_pos p) - 1)) by lia.
    rewrite !Z.pow_succ_r by lia. lia.
  - rewrite Pos2Z.inj_succ. rewrite (Pos2Z.inj_xO p).
    replace (Z.succ (Z.pos (digits2_pos p)) - 1) with (Z.succ (Z.pos (digits2_pos p) - 1)) by lia.
    rewrite !Z.pow_succ_r by lia. lia.
  - change (2 ^ (1 - 1)) with 1. change (2 ^ 1) with 2. lia.
Qed.

Lemma digits2_pos_dig p : Zpos (digits2_pos p) = dig (Zpos p).
Proof.
  symmetry. apply dig_unique; [lia | apply digits2_pos_bounds].
Qed.

Lemma Zdigits2_dig N : 0 <= N -> Zdigits2 N = dig N.
Proof.
  intros H. destruct N as [|p|p]; [reflexivity | apply digits2_pos_dig | lia].
Qed.

(** [iter_pos] iterates as often as its argument says. *)
Lemma iter_pos_nat {A : Type} (f : A -> A) p x :
  SpecFloat.iter_pos f p x = Nat.iter (Pos.to_nat p) f x.
Proof.
  revert x. induction p as [p IH|p IH|]; intros x; simpl SpecFloat.iter_pos.
  - rewrite !IH, Pos2Nat.inj_xI, Nat.iter_succ_r.
    replace (2 * Pos.to_nat p)%nat with (Pos.to_nat p + Pos.to_nat p)%nat by lia.
    rewrite Nat.iter_add. reflexivity.
  - rewrite !IH, Pos2Nat.inj_xO.
    replace (2 * Pos.to_nat p)%nat with (Pos.to_nat p + Pos.to_nat p)%nat by lia.
    rewrite Nat.iter_add. reflexivity.
  - reflexivity.
Qed.

(** One halving: the quotient, the bit shifted out, and the sticky bit. *)
Lemma shr_1_nonneg q r s :
  0 <= q -> shr_1 (Build_shr_record q r s) = Build_shr_record (q / 2) (Z.odd q) (r || s).
Proof.
  intros Hq. destruct q as [|p|p]; [reflexivity | | lia].
  destruct p as [p|p|]; simpl shr_1.
  - rewrite Pos2Z.inj_xI. f_equal.
    rewrite Z.mul_comm, Z.div_add_l by lia. simpl. lia.
  - rewrite Pos2Z.inj_xO. f_equal.
    rewrite Z.mul_comm, Z.div_mul by lia. reflexivity.
  - reflexivity.
Qed.

Lemma shr_state_step m n : 0 <= m -> shr_1 (shr_state m n) = shr_state m (S n).
Proof.
  intros Hm. destruct n as [|k].
  - unfold shr_state. rewrite shr_1_nonneg by assumption.
    change (Z.of_nat 1) with 1. change (Z.of_nat 0) with 0.
    rewrite Z.pow_1_r, Z.pow_0_r, Z.div_1_r, Z.mod_1_r. reflexivity.
  - unfold shr_state.
    assert (Hk : 0 <= Z.of_nat k) by lia.
    pose proof (pow2_pos _ Hk) as Hp.
    assert (Hq : 0 <= m / 2 ^ Z.of_nat (S k)).
    { apply Z.div_pos; [assumption | apply pow2_pos; lia]. }
    rewrite shr_1_nonneg by assumption.
    assert (E1 : Z.of_nat (S (S k)) = Z.of_nat (S k) + 1) by lia.
    assert (E2 : Z.of_nat (S k) = Z.of_nat k + 1) by lia.
    f_equal.
    + rewrite E1, Z.pow_add_r, Z.pow_1_r by lia.
      rewrite Z.div_div by (try apply pow2_pos; lia). reflexivity.
    + rewrite E2, Z.pow_add_r, Z.pow_1_r by lia.
      rewrite Z.rem_mul_r by lia.
      destruct (Z.odd (m / 2 ^ Z.of_nat k)) eqn:Eo.
      * rewrite Zmod_odd, Eo.
        pose proof (Z.mod_pos_bound m (2 ^ Z.of_nat k) Hp).
        simpl orb. symmetry. apply negb_true_iff. apply Z.eqb_neq. lia.
      * rewrite Zmod_odd, Eo. simpl orb. f_equal. f_equal. lia.
Qed.

Lemma iter_shr_1 m n : 0 <= m -> Nat.iter n shr_1 (Build_shr_record m false false) = shr_state m n.
Proof.
  intros Hm. induction n as [|n IH]; [reflexivity | ].
  simpl Nat.iter. rewrite IH. apply shr_state_step. assumption.
Qed.

(** Rounding the record of [n] halvings to nearest even is [rne]. *)
Lemma round_shr_state m n :
  0 <= m ->
  round_nearest_even (shr_m (shr_state m n)) (loc_of_shr_record (shr_state m n))
  = rne m (Z.of_nat n).
Proof.
  intros Hm. destruct n as [|k].
  - simpl. change (Z.of_nat 0) with 0.
    rewrite <- (Z.mul_1_r m) at 2. rewrite <- (Z.pow_0_r 2). rewrite rne_exact by lia. reflexivity.
  - unfold shr_state, rne.
    assert (Hk : 0 <= Z.of_nat k) by lia.
    pose proof (pow2_pos _ Hk) as Hp.
    assert (E2 : Z.of_nat (S k) = Z.of_nat k + 1) by lia.
    set (q := m / 2 ^ Z.of_nat (S k)).
    assert (ER : m mod 2 ^ Z.of_nat (S k)
                 = m mod 2 ^ Z.of_nat k + 2 ^ Z.of_nat k * ((m / 2 ^ Z.of_nat k) mod 2)).
    { rewrite E2, Z.pow_add_r, Z.pow_1_r by lia. apply Z.rem_mul_r; lia. }
    assert (EP : 2 ^ Z.of_nat (S k) = 2 * 2 ^ Z.of_nat k).
    { rewrite E2, Z.pow_add_r, Z.pow_1_r by lia. ring. }
    rewrite ER, EP.
    pose proof (Z.mod_pos_bound m (2 ^ Z.of_nat k) Hp) as Hb.
    cbv zeta.
    destruct (Z.odd (m / 2 ^ Z.of_nat k)) eqn:Eo.
    + rewrite Zmod_odd, Eo.
      destruct (m mod 2 ^ Z.of_nat k =? 0) eqn:Es; simpl negb; simpl loc_of_shr_record;
        simpl shr_m; unfold round_nearest_even.
      * apply Z.eqb_eq in Es. rewrite Es.
        replace (2 * (0 + 2 ^ Z.of_nat k * 1) ?= 2 * 2 ^ Z.of_nat k) with Eq; [reflexivity | ].
        symmetry. apply Z.compare_eq_iff. ring.
      * apply Z.eqb_neq in Es.
        replace (2 * (m mod 2 ^ Z.of_nat k + 2 ^ Z.of_nat k * 1) ?= 2 * 2 ^ Z.of_nat k) with Gt;
          [reflexivity | ].
        symmetry. apply Z.compare_gt_iff. lia.
    + rewrite Zmod_odd, Eo.
      replace (2 * (m mod 2 ^ Z.of_nat k + 2 ^ Z.of_nat k * 0) ?= 2 * 2 ^ Z.of_nat k) with Lt.
      * destruct (m mod 2 ^ Z.of_nat k =? 0); reflexivity.
      * symmetry. apply Z.compare_lt_iff. lia.
Qed.

(** [shr] from an exact record, for a shift that is not negative. *)
Lemma shr_exact m e n :
  0 <= m -> 0 <= n ->
  let '(mrs, e') := shr (Build_shr_record m false false) e n in
  e' = e + n
  /\ round_nearest_even (shr_m mrs) (loc_of_shr_record mrs) = rne m n.
Proof.
  intros Hm Hn. unfold shr. destruct n as [|p|p]; [ | | lia].
  - split; [lia | ]. apply (round_shr_state m 0 Hm).
  - split; [reflexivity | ].
    rewrite iter_pos_nat, iter_shr_1 by assumption.
    rewrite round_shr_state by assumption. rewrite positive_nat_Z. reflexivity.
Qed.

(** ** Values of non-negative binary64 numbers, in units of 2^-1074 *)

Lemma fexp_eq z : fexp 53 1024 z = Z.max (z - 53) (-1074).
Proof. reflexivity. Qed.

Lemma dig_le_53 M : 0 <= M < 2 ^ 53 -> dig M <= 53.
Proof.
  intros [H0 H1]. destruct (Z.eq_dec M 0) as [->|Hn]; [unfold dig; simpl; lia | ].
  pose proof (dig_bounds M ltac:(lia)) as [Hd _].
  destruct (Z_le_gt_dec (dig M) 53); [assumption | ].
  pose proof (pow2_le 53 (dig M - 1)). lia.
Qed.

(** The second normalisation of [binary_round_aux] only acts when the
    rounding carried into a 54th digit. *)
Lemma second_shr M E :
  -1074 <= E -> 0 <= M <= 2 ^ 53 ->
  shr_fexp 53 1024 M E loc_Exact
  = if M =? 2 ^ 53 then (Build_shr_record (2 ^ 52) false false, E + 1)
    else (Build_shr_record M false false, E).
Proof.
  intros HE HM. unfold shr_fexp. rewrite Zdigits2_dig by lia. rewrite fexp_eq.
  simpl shr_record_of_loc.
  destruct (M =? 2 ^ 53) eqn:EM.
  - apply Z.eqb_eq in EM. subst M.
    replace (dig (2 ^ 53)) with 54 by reflexivity.
    replace (Z.max (54 + E - 53) (-1074) - E) with 1 by lia.
    reflexivity.
  - apply Z.eqb_neq in EM.
    pose proof (dig_le_53 M ltac:(lia)).
    unfold shr.
    destruct (Z.max (dig M + E - 53) (-1074) - E) as [|p|p] eqn:En; try reflexivity.
    pose proof (Pos2Z.is_pos p). lia.
Qed.

(** [binary_round_aux] on an exact positive mantissa: round to nearest
    even at the exponent of the format, renormalise, test the overflow. *)
Lemma binary_round_aux_eq m e :
  e <= fexp 53 1024 (Zpos (digits2_pos m) + e) ->
  binary_round_aux 53 1024 false (Zpos m) e loc_Exact
  = let E := fexp 53 1024 (Zpos (digits2_pos m) + e) in
    let '(mrs, e2) := shr_fexp 53 1024 (rne (Zpos m) (E - e)) E loc_Exact in
    match shr_m mrs with
    | 0 => S754_zero false
    | Zpos m2 => if e2 <=? 1024 - 53 then S754_finite false m2 e2 else S754_infinity false
    | Zneg _ => S754_nan
    end.
Proof.
  intros Hn. cbv zeta.
  set (E := fexp 53 1024 (Zpos (digits2_pos m) + e)) in *.
  unfold binary_round_aux. unfold shr_fexp at 1.
  simpl Zdigits2. fold E. simpl shr_record_of_loc.
  pose proof (shr_exact (Zpos m) e (E - e) ltac:(lia) ltac:(lia)) as Hshr.
  destruct (shr (Build_shr_record (Zpos m) false false) e (E - e)) as [mrs' e'].
  destruct Hshr as [He' HM]. rewrite HM.
  replace e' with E by lia. reflexivity.
Qed.

Lemma mul_pow2_le M k x y :
  0 <= M <= 2 ^ k -> 0 <= k -> 0 <= x -> k + x <= y -> M * 2 ^ x <= 2 ^ y.
Proof.
  intros HM Hk Hx Hy. pose proof (pow2_le (k + x) y ltac:(lia)) as H.
  rewrite Z.pow_add_r in H by lia. pose proof (pow2_pos x Hx). nia.
Qed.

Lemma mul_pow2_ge M k x y :
  2 ^ k <= M -> 0 <= k -> 0 <= x -> 0 <= y <= k + x -> 2 ^ y <= M * 2 ^ x.
Proof.
  intros HM Hk Hx Hy. pose proof (pow2_le y (k + x) ltac:(lia)) as H.
  rewrite Z.pow_add_r in H by lia. pose proof (pow2_pos x Hx). nia.
Qed.

(** The result of [binary_round_aux] has a clear sign bit, and its value is
    the rounding [rnd] of the exact value; [c] counts how much finer than
    2^-1074 the unit of the exact value is. *)
Lemma binary_round_aux_spec m e c :
  0 <= c -> -1074 - c <= e -> e <= fexp 53 1024 (Zpos (digits2_pos m) + e) ->
  SFnonneg (binary_round_aux 53 1024 false (Zpos m) e loc_Exact) = true
  /\ SFunits (binary_round_aux 53 1024 false (Zpos m) e loc_Exact) * 2 ^ c
     = rnd c (Zpos m * 2 ^ (e + 1074 + c)).
Proof.
  intros Hc He Hn.
  rewrite (binary_round_aux_eq m e Hn). cbv zeta.
  rewrite digits2_pos_dig, fexp_eq in *.
  set (d := dig (Zpos m)) in *.
  set (E := Z.max (d + e - 53) (-1074)) in *.
  assert (Hd : 2 ^ (d - 1) <= Zpos m < 2 ^ d) by (apply dig_bounds; lia).
  assert (Hdpos : 0 < d) by (apply dig_pos; lia).
  set (M := rne (Zpos m) (E - e)).
  (* the rounded integer *)
  assert (HE : expo c (Zpos m * 2 ^ (e + 1074 + c)) = E + 1074 + c).
  { unfold expo. rewrite dig_shift by lia. fold d. lia. }
  assert (HR : rnd0 c (Zpos m * 2 ^ (e + 1074 + c)) = M * 2 ^ (E + 1074 + c)).
  { unfold rnd0. rewrite HE.
    replace (E + 1074 + c) with ((E - e) + (e + 1074 + c)) at 1 by lia.
    rewrite rne_scale by lia. reflexivity. }
  assert (HM0 : 0 <= M) by (apply rne_ge_multiple; lia).
  assert (HM1 : M <= 2 ^ 53).
  { unfold M. destruct (Z_le_gt_dec (E - e) d).
    - assert (rne (Z.pos m) (E - e) <= 2 ^ (d - (E - e))).
      { apply rne_le_multiple; [lia | ]. rewrite <- pow2_split by lia. lia. }
      pose proof (pow2_le (d - (E - e)) 53). lia.
    - assert (rne (Z.pos m) (E - e) <= 1).
      { apply rne_le_multiple; [lia | ]. pose proof (pow2_le d (E - e)). lia. }
      pose proof (pow2_pos 53). lia. }
  assert (HM2 : -1074 < E -> 2 ^ 52 <= M).
  { intros HEn. unfold M. apply rne_ge_multiple; [lia | ].
    replace (E - e) with (d - 53) by lia.
    replace (2 ^ 52 * 2 ^ (d - 53)) with (2 ^ (d - 1)); [lia | ].
    rewrite (pow2_split (d - 53) (d - 1)) by lia.
    replace (d - 1 - (d - 53)) with 52 by lia. reflexivity. }
  rewrite second_shr by lia.
  unfold rnd. fold (rnd0 c (Zpos m * 2 ^ (e + 1074 + c))). rewrite HR.
  destruct (M =? 2 ^ 53) eqn:EM.
  - apply Z.eqb_eq in EM. cbn [shr_m].
    change (2 ^ 52) with (Z.pos 4503599627370496). cbv iota beta.
    destruct (E + 1 <=? 1024 - 53) eqn:Eo.
    + apply Z.leb_le in Eo. split; [reflexivity | ].
      unfold SFunits.
      rewrite Z.min_l by (apply (mul_pow2_le M 53); lia).
      rewrite EM. change (Z.pos 4503599627370496) with (2 ^ 52).
      rewrite <- Z.mul_assoc, <- !Z.pow_add_r by lia. f_equal. lia.
    + apply Z.leb_gt in Eo. split; [reflexivity | ].
      unfold SFunits.
      rewrite Z.min_r by (apply (mul_pow2_ge M 53); lia).
      rewrite <- Z.pow_add_r by lia. reflexivity.
  - apply Z.eqb_neq in EM. cbn [shr_m].
    destruct M as [|mm|mm] eqn:EMM; [ | | lia].
    + split; [reflexivity | ]. simpl SFunits. pose proof (pow2_pos (2098 + c)). lia.
    + destruct (E <=? 1024 - 53) eqn:Eo.
      * apply Z.leb_le in Eo. split; [reflexivity | ].
        unfold SFunits.
        rewrite Z.min_l by (apply (mul_pow2_le _ 53); lia).
        rewrite <- Z.mul_assoc, <- !Z.pow_add_r by lia. reflexivity.
      * apply Z.leb_gt in Eo. split; [reflexivity | ].
        unfold SFunits. specialize (HM2 ltac:(lia)).
        rewrite Z.min_r by (apply (mul_pow2_ge _ 52); lia).
        rewrite <- Z.pow_add_r by lia. reflexivity.
Qed.

(** ** Valid numbers and their order *)

(** The mantissa and the exponent of a valid finite number. *)
Lemma valid_finite s m e :
  SpecFloat.valid_binary 53 1024 (S754_finite s m e) = true ->
  -1074 <= e <= 971
  /\ Zpos m < 2 ^ 53
  /\ (-1074 < e -> 2 ^ 52 <= Zpos m)
  /\ fexp 53 1024 (Zpos (digits2_pos m) + e) = e.
Proof.
  unfold valid_binary, bounded, canonical_mantissa. intros H.
  apply andb_true_iff in H. destruct H as [Hc Hb].
  apply Z.eqb_eq in Hc. apply Z.leb_le in Hb.
  assert (Hc' := Hc). rewrite digits2_pos_dig, fexp_eq in Hc.
  pose proof (dig_bounds (Zpos m) ltac:(lia)) as [Hd1 Hd2].
  pose proof (dig_pos (Zpos m) ltac:(lia)).
  repeat split; try lia; try assumption.
  - pose proof (pow2_le (dig (Zpos m)) 53 ltac:(lia)). lia.
  - intros He. replace (dig (Zpos m)) with 53 in Hd1 by lia. exact Hd1.
Qed.

Lemma SFunits_finite_lt s m e :
  SpecFloat.valid_binary 53 1024 (S754_finite s m e) = true ->
  0 < SFunits (S754_finite s m e) < 2 ^ 2098.
Proof.
  intros H. apply valid_finite in H. destruct H as [He [Hm _]].
  unfold SFunits. split.
  - pose proof (pow2_pos (e + 1074)). lia.
  - assert (Zpos m * 2 ^ (e + 1074) <= (2 ^ 53 - 1) * 2 ^ 2045).
    { pose proof (pow2_le (e + 1074) 2045 ltac:(lia)).
      pose proof (pow2_pos (e + 1074) ltac:(lia)). nia. }
    change (2 ^ 2098) with (2 ^ 53 * 2 ^ 2045).
    pose proof (pow2_pos 2045). lia.
Qed.

Lemma SFunits_nonneg x : 0 <= SFunits x.
Proof.
  pose proof (Z.pow_nonneg 2 2098).
  destruct x as [s|s| |s m e]; unfold SFunits; lia.
Qed.

Lemma SFunits_le_cap x : SpecFloat.valid_binary 53 1024 x = true -> SFunits x <= 2 ^ 2098.
Proof.
  intros H. pose proof (Z.pow_nonneg 2 2098).
  destruct x as [s|s| |s m e]; unfold SFunits; try lia.
  pose proof (SFunits_finite_lt s m e H) as H1. unfold SFunits in H1. lia.
Qed.

Lemma finite_lt_by_exponent mx ex my ey :
  -1074 <= ex < ey -> Zpos mx < 2 ^ 53 -> 2 ^ 52 <= Zpos my ->
  Zpos mx * 2 ^ (ex + 1074) < Zpos my * 2 ^ (ey + 1074).
Proof.
  intros He Hx Hy.
  replace (ey + 1074) with ((ey - ex) + (ex + 1074)) by lia.
  rewrite (Z.pow_add_r 2 (ey - ex) (ex + 1074)) by lia.
  pose proof (pow2_le 1 (ey - ex) ltac:(lia)) as HK.
  pose proof (pow2_pos (ex + 1074) ltac:(lia)) as HP.
  change (2 ^ 1) with 2 in HK. change (2 ^ 53) with (2 * 2 ^ 52) in Hx.
  set (K := 2 ^ (ey - ex)) in *. set (P := 2 ^ (ex + 1074)) in *.
  set (T := 2 ^ 52) in *.
  assert (HT : 0 < T) by (apply pow2_pos; lia).
  clearbody T K P.
  assert (H1 : Zpos mx * P < 2 * T * P) by (apply Z.mul_lt_mono_pos_r; lia).
  assert (H2 : T * (2 * P) <= Zpos my * (K * P)).
  { apply Z.mul_le_mono_nonneg; try lia.
    apply Z.mul_le_mono_nonneg_r; lia. }
  lia.
Qed.

(** On valid numbers with a clear sign bit the comparison of
    [SpecFloat] is the comparison of the values. *)
Lemma SFcompare_units x y :
  SpecFloat.valid_binary 53 1024 x = true -> SpecFloat.valid_binary 53 1024 y = true ->
  SFnonneg x = true -> SFnonneg y = true ->
  SFcompare x y = Some (SFunits x ?= SFunits y).
Proof.
  intros Vx Vy Px Py.
  destruct x as [[|]|[|]| |[|] mx ex]; try discriminate Px;
    destruct y as [[|]|[|]| |[|] my ey]; try discriminate Py; clear Px Py.
  - reflexivity.
  - unfold SFcompare, SFunits. pose proof (pow2_pos 2098).
    destruct (Z.compare_spec 0 (2 ^ 2098)); try reflexivity; lia.
  - pose proof (SFunits_finite_lt _ _ _ Vy). simpl SFcompare.
    change (SFunits (S754_zero false)) with 0.
    destruct (Z.compare_spec 0 (SFunits (S754_finite false my ey))); try reflexivity; lia.
  - unfold SFcompare, SFunits. pose proof (pow2_pos 2098).
    destruct (Z.compare_spec (2 ^ 2098) 0); try reflexivity; lia.
  - unfold SFcompare, SFunits. rewrite Z.compare_refl. reflexivity.
  - pose proof (SFunits_finite_lt _ _ _ Vy). simpl SFcompare.
    change (SFunits (S754_infinity false)) with (2 ^ 2098).
    destruct (Z.compare_spec (2 ^ 2098) (SFunits (S754_finite false my ey))); try reflexivity; lia.
  - pose proof (SFunits_finite_lt _ _ _ Vx). simpl SFcompare.
    change (SFunits (S754_zero false)) with 0.
    destruct (Z.compare_spec (SFunits (S754_finite false mx ex)) 0); try reflexivity; lia.
  - pose proof (SFunits_finite_lt _ _ _ Vx). simpl SFcompare.
    change (SFunits (S754_infinity false)) with (2 ^ 2098).
    destruct (Z.compare_spec (SFunits (S754_finite false mx ex)) (2 ^ 2098)); try reflexivity; lia.
  - apply valid_finite in Vx, Vy.
    destruct Vx as [Hex [Hmx [Hnx _]]]. destruct Vy as [Hey [Hmy [Hny _]]].
    unfold SFcompare, SFunits. f_equal.
    pose proof (pow2_pos (ex + 1074) ltac:(lia)) as Hpx.
    pose proof (pow2_pos (ey + 1074) ltac:(lia)) as Hpy.
    destruct (Z.compare_spec ex ey) as [Heq|Hlt|Hgt].
    + subst ey. rewrite Pos.compare_cont_spec. unfold Pos.switch_Eq.
      change (Pos.compare mx my) with (Z.compare (Zpos mx) (Zpos my)).
      destruct (Z.compare_spec (Zpos mx) (Zpos my)) as [H|H|H]; symmetry.
      * apply Z.compare_eq_iff. rewrite H. reflexivity.
      * apply Z.compare_lt_iff. apply Z.mul_lt_mono_pos_r; assumption.
      * apply Z.compare_gt_iff. apply Z.mul_lt_mono_pos_r; assumption.
    + specialize (Hny ltac:(lia)).
      assert (Z.pos mx * 2 ^ (ex + 1074) < Z.pos my * 2 ^ (ey + 1074)).
      { apply (finite_lt_by_exponent mx ex my ey); assumption || lia. }
      symmetry. apply Z.compare_lt_iff. assumption.
    + specialize (Hnx ltac:(lia)).
      assert (Z.pos my * 2 ^ (ey + 1074) < Z.pos mx * 2 ^ (ex + 1074)).
      { apply (finite_lt_by_exponent my ey mx ex); assumption || lia. }
      symmetry. apply Z.compare_gt_iff. assumption.
Qed.

(** Equal values, equal numbers. *)
Lemma SFunits_inj x y :
  SpecFloat.valid_binary 53 1024 x = true -> SpecFloat.valid_binary 53 1024 y = true ->
  SFnonneg x = true -> SFnonneg y = true ->
  SFunits x = SFunits y -> x = y.
Proof.
  intros Vx Vy Px Py HS.
  pose proof (SFcompare_units x y Vx Vy Px Py) as Hc.
  rewrite HS, Z.compare_refl in Hc.
  destruct x as [[|]|[|]| |[|] mx ex]; try discriminate Px;
    destruct y as [[|]|[|]| |[|] my ey]; try discriminate Py;
    try discriminate Hc; try reflexivity.
  unfold SFcompare in Hc.
  destruct (Z.compare_spec ex ey) as [Heq|Hlt|Hgt]; try discriminate Hc.
  subst ey. inversion Hc as [Hm]. rewrite Pos.compare_cont_spec in Hm. unfold Pos.switch_Eq in Hm.
  assert (Hmm : (mx ?= my)%positive = Eq) by (destruct (mx ?= my)%positive; congruence).
  apply Pos.compare_eq in Hmm. congruence.
Qed.

(** ** Multiplication and addition of non-negative numbers *)

Lemma dig_pow2 k : 0 <= k -> dig (2 ^ k) = k + 1.
Proof.
  intros Hk. apply dig_unique; [lia | ].
  replace (k + 1 - 1) with k by lia. split; [lia | apply pow2_lt; lia].
Qed.

Lemma dig_mul a b : 0 < a -> 0 < b -> dig a + dig b - 1 <= dig (a * b).
Proof.
  intros Ha Hb.
  pose proof (dig_bounds a Ha) as [Ha1 _]. pose proof (dig_bounds b Hb) as [Hb1 _].
  pose proof (dig_pos a Ha). pose proof (dig_pos b Hb).
  assert (H1 : 2 ^ (dig a - 1 + (dig b - 1)) <= a * b).
  { rewrite Z.pow_add_r by lia.
    apply Z.mul_le_mono_nonneg; try assumption; apply Z.pow_nonneg; lia. }
  apply dig_mono in H1. rewrite dig_pow2 in H1 by lia. lia.
Qed.

(** The product of two finite numbers is the rounding of the exact
    product, which is counted in units of 2^-2148. *)
Lemma SFmul_finite mx ex my ey :
  SpecFloat.valid_binary 53 1024 (S754_finite false mx ex) = true ->
  SpecFloat.valid_binary 53 1024 (S754_finite false my ey) = true ->
  SFnonneg (SFmul 53 1024 (S754_finite false mx ex) (S754_finite false my ey)) = true
  /\ SFunits (SFmul 53 1024 (S754_finite false mx ex) (S754_finite false my ey)) * 2 ^ 1074
     = rnd 1074 (SFunits (S754_finite false mx ex) * SFunits (S754_finite false my ey)).
Proof.
  intros Vx Vy.
  apply valid_finite in Vx, Vy.
  destruct Vx as [Hex [Hmx [Hnx Hcx]]]. destruct Vy as [Hey [Hmy [Hny Hcy]]].
  rewrite digits2_pos_dig, fexp_eq in Hcx, Hcy.
  unfold SFmul. simpl xorb.
  assert (Hpre : ex + ey <= fexp 53 1024 (Zpos (digits2_pos (mx * my)) + (ex + ey))).
  { rewrite digits2_pos_dig, fexp_eq, Pos2Z.inj_mul.
    pose proof (dig_mul (Zpos mx) (Zpos my) ltac:(lia) ltac:(lia)).
    pose proof (dig_pos (Zpos mx) ltac:(lia)). pose proof (dig_pos (Zpos my) ltac:(lia)).
    lia. }
  pose proof (binary_round_aux_spec (mx * my) (ex + ey) 1074 ltac:(lia) ltac:(lia) Hpre)
    as [Hp Hs].
  split; [assumption | ].
  rewrite Hs. f_equal. unfold SFunits. rewrite Pos2Z.inj_mul.
  replace (ex + ey + 1074 + 1074) with ((ex + 1074) + (ey + 1074)) by lia.
  rewrite Z.pow_add_r by lia. ring.
Qed.

Lemma iter_xO m d : Zpos (Pos.iter xO m d) = Zpos m * 2 ^ Zpos d.
Proof.
  induction d as [|d IH] using Pos.peano_ind.
  - simpl Pos.iter. rewrite (Pos2Z.inj_xO m). change (2 ^ 1) with 2. ring.
  - rewrite Pos.iter_succ, (Pos2Z.inj_xO (Pos.iter xO m d)), IH, Pos2Z.inj_succ.
    rewrite Z.pow_succ_r by lia. ring.
Qed.

Lemma shl_align_spec mx ex ez :
  snd (shl_align mx ex ez) = Z.min ex ez
  /\ Zpos (fst (shl_align mx ex ez)) = Zpos mx * 2 ^ (ex - Z.min ex ez).
Proof.
  unfold shl_align. destruct (ez - ex) as [|p|p] eqn:E; simpl fst; simpl snd.
  - replace (Z.min ex ez) with ex by lia. rewrite Z.sub_diag. change (2 ^ 0) with 1. lia.
  - pose proof (Pos2Z.is_pos p). replace (Z.min ex ez) with ex by lia.
    rewrite Z.sub_diag. change (2 ^ 0) with 1. lia.
  - pose proof (Pos2Z.neg_is_neg p). replace (Z.min ex ez) with ez by lia.
    split; [reflexivity | ]. rewrite iter_xO. f_equal. f_equal. lia.
Qed.

(** [binary_round], which first aligns the mantissa, rounds the exact value. *)
Lemma binary_round_spec m e :
  -1074 <= e ->
  SFnonneg (binary_round 53 1024 false m e) = true
  /\ SFunits (binary_round 53 1024 false m e) = rnd 0 (Zpos m * 2 ^ (e + 1074)).
Proof.
  intros He. unfold binary_round.
  set (t := fexp 53 1024 (Zpos (digits2_pos m) + e)).
  pose proof (shl_align_spec m e t) as [H2 H1].
  destruct (shl_align m e t) as [mz ez]. simpl fst in H1. simpl snd in H2.
  assert (Ht : -1074 <= t) by (unfold t; rewrite fexp_eq; lia).
  assert (Hpre : ez <= fexp 53 1024 (Zpos (digits2_pos mz) + ez)).
  { rewrite digits2_pos_dig, H1, dig_shift by lia.
    replace (dig (Zpos m) + (e - Z.min e t) + ez) with (dig (Zpos m) + e) by lia.
    rewrite <- digits2_pos_dig. fold t. lia. }
  pose proof (binary_round_aux_spec mz ez 0 ltac:(lia) ltac:(lia) Hpre) as [Hp Hs].
  split; [assumption | ].
  rewrite Z.pow_0_r, Z.mul_1_r in Hs. rewrite Hs. f_equal.
  rewrite H1, <- Z.mul_assoc, <- Z.pow_add_r by lia. f_equal. f_equal. lia.
Qed.

(** The sum of two finite numbers is the rounding of the exact sum. *)
Lemma SFadd_finite mx ex my ey :
  SpecFloat.valid_binary 53 1024 (S754_finite false mx ex) = true ->
  SpecFloat.valid_binary 53 1024 (S754_finite false my ey) = true ->
  SFnonneg (SFadd 53 1024 (S754_finite false mx ex) (S754_finite false my ey)) = true
  /\ SFunits (SFadd 53 1024 (S754_finite false mx ex) (S754_finite false my ey))
     = rnd 0 (SFunits (S754_finite false mx ex) + SFunits (S754_finite false my ey)).
Proof.
  intros Vx Vy.
  apply valid_finite in Vx, Vy.
  destruct Vx as [Hex _]. destruct Vy as [Hey _].
  unfold SFadd, cond_Zopp.
  pose proof (shl_align_spec mx ex (Z.min ex ey)) as [_ Hx].
  pose proof (shl_align_spec my ey (Z.min ex ey)) as [_ Hy].
  replace (Z.min ex (Z.min ex ey)) with (Z.min ex ey) in Hx by lia.
  replace (Z.min ey (Z.min ex ey)) with (Z.min ex ey) in Hy by lia.
  set (sx := fst (shl_align mx ex (Z.min ex ey))) in *.
  set (sy := fst (shl_align my ey (Z.min ex ey))) in *.
  change (Z.pos sx + Z.pos sy) with (Zpos (sx + sy)).
  unfold binary_normalize.
  pose proof (binary_round_spec (sx + sy) (Z.min ex ey) ltac:(lia)) as [Hp Hs].
  split; [assumption | ].
  rewrite Hs. f_equal. unfold SFunits.
  rewrite Pos2Z.inj_add, Hx, Hy, Z.mul_add_distr_r.
  rewrite <- !Z.mul_assoc, <- !Z.pow_add_r by lia.
  f_equal; f_equal; f_equal; lia.
Qed.

(** The two operations on any numbers with a clear sign bit. *)
Lemma SFadd_nonneg x y :
  SpecFloat.valid_binary 53 1024 x = true -> SpecFloat.valid_binary 53 1024 y = true ->
  SFnonneg x = true -> SFnonneg y = true ->
  SFnonneg (SFadd 53 1024 x y) = true
  /\ SFunits (SFadd 53 1024 x y) = rnd 0 (SFunits x + SFunits y).
Proof.
  intros Vx Vy Px Py.
  destruct x as [[|]|[|]| |[|] mx ex]; try discriminate Px;
    destruct y as [[|]|[|]| |[|] my ey]; try discriminate Py; clear Px Py.
  - split; [reflexivity | ]. unfold SFadd, SFunits. rewrite rnd_0; lia.
  - split; [reflexivity | ]. unfold SFadd, SFunits. rewrite rnd_overflow; lia.
  - split; [reflexivity | ]. unfold SFadd.
    pose proof (SFunits_finite_lt _ _ _ Vy) as Hlt. apply valid_finite in Vy.
    change (SFunits (S754_zero false)) with 0. rewrite Z.add_0_l.
    unfold SFunits in *. rewrite rnd_exact; lia.
  - split; [reflexivity | ]. unfold SFadd, SFunits. rewrite rnd_overflow; lia.
  - split; [reflexivity | ]. unfold SFadd, SFunits. rewrite rnd_overflow; lia.
  - split; [reflexivity | ]. unfold SFadd.
    pose proof (SFunits_nonneg (S754_finite false my ey)).
    change (SFunits (S754_infinity false)) with (2 ^ 2098). rewrite rnd_overflow; lia.
  - split; [reflexivity | ]. unfold SFadd.
    pose proof (SFunits_finite_lt _ _ _ Vx) as Hlt. apply valid_finite in Vx.
    change (SFunits (S754_zero false)) with 0. rewrite Z.add_0_r.
    unfold SFunits in *. rewrite rnd_exact; lia.
  - split; [reflexivity | ]. unfold SFadd.
    pose proof (SFunits_nonneg (S754_finite false mx ex)).
    change (SFunits (S754_infinity false)) with (2 ^ 2098). rewrite rnd_overflow; lia.
  - apply SFadd_finite; assumption.
Qed.

(** Multiplication by a finite factor that is at least 1. *)
Lemma SFmul_nonneg x my ey :
  SpecFloat.valid_binary 53 1024 x = true ->
  SpecFloat.valid_binary 53 1024 (S754_finite false my ey) = true ->
  SFnonneg x = true ->
  2 ^ 1074 <= SFunits (S754_finite false my ey) ->
  SFnonneg (SFmul 53 1024 x (S754_finite false my ey)) = true
  /\ SFunits (SFmul 53 1024 x (S754_finite false my ey)) * 2 ^ 1074
     = rnd 1074 (SFunits x * SFunits (S754_finite false my ey)).
Proof.
  intros Vx Vy Px Hy.
  destruct x as [[|]|[|]| |[|] mx ex]; try discriminate Px; clear Px.
  - split; [reflexivity | ]. unfold SFmul. simpl xorb.
    change (SFunits (S754_zero false)) with 0. rewrite Z.mul_0_l, rnd_0; lia.
  - split; [reflexivity | ]. unfold SFmul. simpl xorb.
    change (SFunits (S754_infinity false)) with (2 ^ 2098).
    rewrite rnd_overflow; [rewrite Z.pow_add_r by lia; reflexivity | lia | ].
    rewrite Z.pow_add_r by lia.
    apply Z.mul_le_mono_nonneg_l; [apply Z.pow_nonneg; lia | assumption].
  - apply SFmul_finite; assumption.
Qed.

(** ** Primitive floats *)

(** One is 2^1074 units, a half is 2^1073, and 21.6 lies between 21.5
    and 22.5. *)
Example units_examples :
  units 1 = 2 ^ 1074
  /\ units 0.5 = 2 ^ 1073
  /\ 43 * 2 ^ 1074 <= 2 * units 21.6 < 45 * 2 ^ 1074
  /\ nonneg 21.6 = true /\ nonneg (-1) = false /\ nonneg nan = false.
Proof. vm_compute. repeat split; discriminate. Qed.

Lemma Prim2SF_valid' a : SpecFloat.valid_binary 53 1024 (Prim2SF a) = true.
Proof. exact (Prim2SF_valid a). Qed.

Lemma units_nonneg a : 0 <= units a.
Proof. apply SFunits_nonneg. Qed.

Lemma units_le_cap a : units a <= 2 ^ 2098.
Proof. apply SFunits_le_cap. apply Prim2SF_valid'. Qed.

(** Addition of numbers with a clear sign bit. *)
Lemma add_units a b :
  nonneg a = true -> nonneg b = true ->
  nonneg (a + b) = true /\ units (a + b) = rnd 0 (units a + units b).
Proof.
  intros Pa Pb. unfold nonneg, units. rewrite FloatAxioms.add_spec.
  apply SFadd_nonneg; try assumption; apply Prim2SF_valid'.
Qed.

(** Multiplication by a finite factor that is at least 1. *)
Lemma mul_units a k :
  nonneg a = true -> nonneg k = true -> 2 ^ 1074 <= units k < 2 ^ 2098 ->
  nonneg (a * k) = true /\ units (a * k) * 2 ^ 1074 = rnd 1074 (units a * units k).
Proof.
  intros Pa Pk Hk. unfold nonneg, units in *. rewrite FloatAxioms.mul_spec.
  pose proof (Prim2SF_valid' k) as Vk.
  destruct (Prim2SF k) as [[|]|[|]| |[|] mk ek]; try discriminate Pk.
  - unfold SFunits in Hk. pose proof (pow2_pos 1074). lia.
  - unfold SFunits in Hk. lia.
  - apply SFmul_nonneg; try assumption. apply Prim2SF_valid'. lia.
Qed.

Lemma compare_units a b :
  nonneg a = true -> nonneg b = true ->
  SFcompare (Prim2SF a) (Prim2SF b) = Some (units a ?= units b).
Proof.
  intros Pa Pb. apply SFcompare_units; try assumption; apply Prim2SF_valid'.
Qed.

(** The comparisons of numbers with a clear sign bit are those of their
    values. *)
Lemma ltb_units a b : nonneg a = true -> nonneg b = true -> (a <? b)%float = (units a <? units b).
Proof.
  intros Pa Pb. rewrite FloatAxioms.ltb_spec. unfold SFltb. rewrite (compare_units a b Pa Pb).
  unfold Z.ltb. destruct (units a ?= units b); reflexivity.
Qed.

Lemma leb_units a b : nonneg a = true -> nonneg b = true -> (a <=? b)%float = (units a <=? units b).
Proof.
  intros Pa Pb. rewrite FloatAxioms.leb_spec. unfold SFleb. rewrite (compare_units a b Pa Pb).
  unfold Z.leb. destruct (units a ?= units b); reflexivity.
Qed.

Lemma units_inj a b : nonneg a = true -> nonneg b = true -> units a = units b -> a = b.
Proof.
  intros Pa Pb H. apply Prim2SF_inj.
  apply SFunits_inj; try assumption; apply Prim2SF_valid'.
Qed.

Lemma is_nan_nonneg a : nonneg a = true -> is_nan a = false.
Proof.
  intros Pa. unfold is_nan. rewrite FloatAxioms.eqb_spec. unfold SFeqb.
  rewrite (compare_units a a Pa Pa), Z.compare_refl. reflexivity.
Qed.

(** A number above zero has a clear sign bit. *)
Lemma nonneg_of_ltb_0 t : (0 <? t)%float = true -> nonneg t = true /\ 0 < units t.
Proof.
  intros H. rewrite FloatAxioms.ltb_spec in H. unfold SFltb in H.
  change (Prim2SF 0) with (S754_zero false) in H.
  unfold nonneg, units.
  pose proof (Prim2SF_valid' t) as V.
  destruct (Prim2SF t) as [[|]|[|]| |[|] m e]; try discriminate H.
  - split; [reflexivity | ]. unfold SFunits. apply pow2_pos. lia.
  - split; [reflexivity | ]. apply (SFunits_finite_lt _ _ _ V).
Qed.

(** ** Math.min, Math.round and integers *)

(** [Math.min] of two numbers with a clear sign bit is the smaller one. *)
Lemma Math_min_units a b :
  nonneg a = true -> nonneg b = true ->
  nonneg (Math_min a b) = true /\ units (Math_min a b) = Z.min (units a) (units b).
Proof.
  intros Pa Pb. unfold Math_min.
  rewrite (is_nan_nonneg a Pa), (is_nan_nonneg b Pb). simpl orb. cbv iota.
  rewrite (ltb_units a b Pa Pb), (ltb_units b a Pb Pa).
  destruct (Z.ltb_spec (units a) (units b)) as [H1|H1].
  - split; [assumption | lia].
  - destruct (Z.ltb_spec (units b) (units a)) as [H2|H2].
    + split; [assumption | lia].
    + destruct (classify a); split; solve [assumption | lia].
Qed.

(** The number of an integer below 2^53 has that integer as its value. *)
Lemma float_of_Z_units n :
  0 <= n < 2 ^ 53 ->
  nonneg (float_of_Z n) = true /\ units (float_of_Z n) = n * 2 ^ 1074.
Proof.
  intros Hn. unfold nonneg, units, float_of_Z. rewrite of_uint63_spec.
  rewrite Uint63.of_Z_spec.
  rewrite Z.mod_small.
  2:{ split; [lia | ]. pose proof (pow2_lt 53 63 ltac:(lia)).
      change Uint63.wB with (2 ^ 63). lia. }
  destruct n as [|p|p]; [split; reflexivity | | lia].
  unfold binary_normalize.
  pose proof (binary_round_spec p 0 ltac:(lia)) as [Hp Hs].
  split; [exact Hp | ].
  change (SpecFloat.binary_round prec emax false p 0) with (binary_round 53 1024 false p 0).
  rewrite Hs. change (0 + 1074) with 1074.
  apply rnd_exact; lia.
Qed.

Lemma roundZ_multiple A : roundZ (A * 2 ^ 1074) = A.
Proof.
  unfold roundZ. change (2 ^ 1075) with (2 * 2 ^ 1074).
  pose proof (pow2_pos 1074 ltac:(lia)) as Hp. set (P := 2 ^ 1074) in *. clearbody P.
  replace (2 * (A * P) + P) with ((2 * A + 1) * P) by ring.
  rewrite Z.div_mul_cancel_r by lia.
  replace (2 * A + 1) with (1 + A * 2) by ring.
  rewrite Z.div_add by lia. reflexivity.
Qed.

Lemma roundZ_mono v1 v2 : v1 <= v2 -> roundZ v1 <= roundZ v2.
Proof.
  intros H. unfold roundZ. apply Z.div_le_mono; [apply pow2_pos; lia | lia].
Qed.

(** [Math.round] of a finite number with a clear sign bit has the value
    [floor (x + 1/2)]; infinity stays. *)
Lemma Math_round_units x :
  nonneg x = true ->
  nonneg (Math_round x) = true
  /\ units (Math_round x) = if units x <? 2 ^ 2098 then roundZ (units x) * 2 ^ 1074 else 2 ^ 2098.
Proof.
  intros Px. unfold Math_round.
  pose proof (Prim2SF_valid' x) as V.
  assert (Pv := Px). unfold nonneg in Pv.
  destruct (Prim2SF x) as [[|]|[|]| |[|] m e] eqn:E; try discriminate Pv; clear Pv.
  - split; [assumption | ]. unfold units. rewrite E. unfold SFunits.
    destruct (Z.ltb_spec 0 (2 ^ 2098)) as [_|H]; [ | pose proof (pow2_pos 2098); lia].
    rewrite <- (Z.mul_0_l (2 ^ 1074)) at 2. rewrite roundZ_multiple. reflexivity.
  - split; [assumption | ]. unfold units. rewrite E. unfold SFunits.
    rewrite Z.ltb_irrefl. reflexivity.
  - pose proof (SFunits_finite_lt _ _ _ V) as [_ Hlt].
    assert (Ev : units x = Zpos m * 2 ^ (e + 1074)) by (unfold units; rewrite E; reflexivity).
    unfold SFunits in Hlt. rewrite <- Ev in Hlt.
    destruct (Z.ltb_spec (units x) (2 ^ 2098)) as [_|H]; [ | lia].
    apply valid_finite in V. destruct V as [He [Hm _]].
    destruct (Z.leb_spec 0 e) as [He0|He0].
    + split; [assumption | ]. rewrite Ev.
      rewrite Z.pow_add_r by lia. rewrite Z.mul_assoc, roundZ_multiple. reflexivity.
    + unfold cond_Zopp. cbv zeta.
      set (n := (2 * Zpos m + 2 ^ (- e)) / 2 ^ (1 - e)).
      assert (Hn : roundZ (units x) = n).
      { unfold roundZ, n. rewrite Ev.
        replace (2 ^ 1074) with (2 ^ (- e) * 2 ^ (e + 1074))
          by (rewrite <- Z.pow_add_r by lia; f_equal; lia).
        replace (2 ^ 1075) with (2 ^ (1 - e) * 2 ^ (e + 1074))
          by (rewrite <- Z.pow_add_r by lia; f_equal; lia).
        replace (2 * (Zpos m * 2 ^ (e + 1074)) + 2 ^ (- e) * 2 ^ (e + 1074))
          with ((2 * Zpos m + 2 ^ (- e)) * 2 ^ (e + 1074)) by ring.
        apply Z.div_mul_cancel_r.
        - pose proof (pow2_pos (1 - e)). lia.
        - pose proof (pow2_pos (e + 1074)). lia. }
      rewrite Hn.
      assert (Hn0 : 0 <= n).
      { unfold n. apply Z.div_pos; [ | apply pow2_pos; lia].
        pose proof (pow2_pos (- e)). lia. }
      assert (Hn1 : n < 2 ^ 53).
      { unfold n. apply Z.div_lt_upper_bound; [apply pow2_pos; lia | ].
        replace (1 - e) with (1 + - e) by lia. rewrite Z.pow_add_r by lia.
        change (2 ^ 1) with 2.
        pose proof (pow2_le 1 (- e) ltac:(lia)) as Hk. change (2 ^ 1) with 2 in Hk.
        pose proof (pow2_pos 53 ltac:(lia)) as H53.
        set (K := 2 ^ (- e)) in *. set (T := 2 ^ 53) in *. clearbody K T. nia. }
      destruct (Z.eqb_spec n 0) as [En|En].
      * rewrite En. split; reflexivity.
      * destruct (Z.ltb_spec n 0) as [Hneg|_]; [lia | ].
        apply float_of_Z_units. lia.
Qed.

(** ** Monotonicity and bounds of the operations *)

Lemma rnd_units a : nonneg a = true -> rnd 0 (units a) = units a.
Proof.
  intros Pa. unfold nonneg, units in *. pose proof (Prim2SF_valid' a) as V.
  destruct (Prim2SF a) as [[|]|[|]| |[|] m e]; try discriminate Pa.
  - apply rnd_0. lia.
  - unfold SFunits. apply rnd_overflow; lia.
  - pose proof (SFunits_finite_lt _ _ _ V) as [_ Hlt].
    apply valid_finite in V. destruct V as [He [Hm _]].
    unfold SFunits in *. apply rnd_exact; lia.
Qed.

Lemma add_ge_l c a : nonneg c = true -> nonneg a = true -> units c <= units (c + a).
Proof.
  intros Pc Pa. destruct (add_units c a Pc Pa) as [_ ->].
  rewrite <- (rnd_units c Pc) at 1.
  apply rnd_mono; [lia | ]. pose proof (units_nonneg c). pose proof (units_nonneg a). lia.
Qed.

Lemma add_mono c a1 a2 :
  nonneg c = true -> nonneg a1 = true -> nonneg a2 = true ->
  units a1 <= units a2 -> units (c + a1) <= units (c + a2).
Proof.
  intros Pc P1 P2 H.
  destruct (add_units c a1 Pc P1) as [_ ->]. destruct (add_units c a2 Pc P2) as [_ ->].
  apply rnd_mono; [lia | ]. pose proof (units_nonneg c). pose proof (units_nonneg a1). lia.
Qed.

Lemma mul_ge a k :
  nonneg a = true -> nonneg k = true -> 2 ^ 1074 <= units k < 2 ^ 2098 -> units a <= units (a * k).
Proof.
  intros Pa Pk Hk. destruct (mul_units a k Pa Pk Hk) as [_ H].
  assert (H1 : rnd 1074 (units a * 2 ^ 1074) <= rnd 1074 (units a * units k)).
  { apply rnd_mono; [lia | ]. pose proof (units_nonneg a). split; [lia | ].
    apply Z.mul_le_mono_nonneg_l; lia. }
  pose proof (rnd_scale 0 (units a) 1074 ltac:(lia) ltac:(lia) (units_nonneg a)) as Hs.
  change (0 + 1074) with 1074 in Hs. rewrite Hs, (rnd_units a Pa) in H1. rewrite <- H in H1.
  apply Z.mul_le_mono_pos_r in H1; [assumption | lia].
Qed.

Lemma mul_mono a1 a2 k :
  nonneg a1 = true -> nonneg a2 = true -> nonneg k = true -> 2 ^ 1074 <= units k < 2 ^ 2098 ->
  units a1 <= units a2 -> units (a1 * k) <= units (a2 * k).
Proof.
  intros P1 P2 Pk Hk H.
  destruct (mul_units a1 k P1 Pk Hk) as [_ H1]. destruct (mul_units a2 k P2 Pk Hk) as [_ H2].
  assert (H3 : rnd 1074 (units a1 * units k) <= rnd 1074 (units a2 * units k)).
  { apply rnd_mono; [lia | ]. pose proof (units_nonneg a1). split; [lia | ].
    apply Z.mul_le_mono_nonneg_r; lia. }
  rewrite <- H1, <- H2 in H3.
  apply Z.mul_le_mono_pos_r in H3; [assumption | lia].
Qed.

Lemma roundZ_nonneg v : 0 <= v -> 0 <= roundZ v.
Proof.
  intros H. unfold roundZ. apply Z.div_pos; lia.
Qed.

(** [Math.round] is monotone. *)
Lemma Math_round_mono x1 x2 :
  nonneg x1 = true -> nonneg x2 = true -> units x1 <= units x2 ->
  units (Math_round x1) <= units (Math_round x2).
Proof.
  intros P1 P2 H.
  pose proof (units_le_cap (Math_round x1)) as Hc.
  destruct (Math_round_units x1 P1) as [_ E1]. destruct (Math_round_units x2 P2) as [_ E2].
  rewrite E1 in *. rewrite E2.
  destruct (Z.ltb_spec (units x1) (2 ^ 2098)); destruct (Z.ltb_spec (units x2) (2 ^ 2098)); try lia.
  apply Z.mul_le_mono_nonneg_r; [lia | apply roundZ_mono; assumption].
Qed.

Lemma Math_round_ge n x :
  nonneg x = true -> 0 <= n -> n * 2 ^ 1074 <= units x -> n * 2 ^ 1074 <= units (Math_round x).
Proof.
  intros Px Hn H. destruct (Math_round_units x Px) as [_ ->].
  pose proof (units_le_cap x).
  destruct (Z.ltb_spec (units x) (2 ^ 2098)); [ | lia].
  apply Z.mul_le_mono_nonneg_r; [lia | ].
  rewrite <- (roundZ_multiple n). apply roundZ_mono. assumption.
Qed.

(** The shape of every band: a base plus a capped term. *)
Lemma base_plus_capped c u cap :
  nonneg c = true -> nonneg u = true -> nonneg cap = true ->
  nonneg (c + Math_min u cap) = true /\ units c <= units (c + Math_min u cap).
Proof.
  intros Pc Pu Pcap. destruct (Math_min_units u cap Pu Pcap) as [Pm _].
  split; [apply add_units; assumption | apply add_ge_l; assumption].
Qed.

Lemma base_plus_capped_mono c u1 u2 cap :
  nonneg c = true -> nonneg u1 = true -> nonneg u2 = true -> nonneg cap = true ->
  units u1 <= units u2 ->
  units (c + Math_min u1 cap) <= units (c + Math_min u2 cap).
Proof.
  intros Pc P1 P2 Pcap H.
  destruct (Math_min_units u1 cap P1 Pcap) as [Q1 E1].
  destruct (Math_min_units u2 cap P2 Pcap) as [Q2 E2].
  apply add_mono; try assumption. lia.
Qed.

Lemma times_multiplier x k :
  nonneg x = true -> nonneg k = true -> 2 ^ 1074 <= units k < 2 ^ 2098 ->
  nonneg (x * k) = true /\ units x <= units (x * k).
Proof.
  intros Px Pk Hk. split; [apply mul_units; assumption | apply mul_ge; assumption].
Qed.

(** ** The raw score *)

(** What the schema lets through is a valid input. *)
Lemma diagnosisSchema_parse_valid body data :
  diagnosisSchema_parse body = Some data -> valid_input data.
Proof.
  unfold diagnosisSchema_parse, valid_input. intros H.
  destruct (match body_cancerType body with
            | Str "liver" => Some liver
            | Str "lung" => Some lung
            | Str "breast" => Some breast
            | _ => None
            end) as [c|]; [ | discriminate H].
  destruct (body_tumorSize body) as [t|]; [ | discriminate H].
  destruct (body_biomarker1 body) as [b|]; [ | discriminate H].
  destruct (is_nan t) eqn:Et; [discriminate H | ].
  destruct (is_nan b) eqn:Eb; [discriminate H | ].
  simpl in H. destruct (0 <? t)%float eqn:E0; [ | discriminate H].
  inversion H. simpl. split; assumption.
Qed.


(** Whatever the handler sends with success is the risk calculation on a
    valid input. *)
Lemma diagnosis_calculate_sends s body r :
  diagnosis_calculate s body = Json200 r ->
  exists data,
    diagnosisSchema_parse body = Some data /\ valid_input data /\ r = computeRisk data.
Proof.
  unfold diagnosis_calculate. intros H.
  destruct (requireRole "doctor" s) as [f|] eqn:Er.
  - unfold requireRole in Er.
    destruct (not_authenticated s); [injection Er as <-; discriminate H | ].
    destruct (negb (role_is s "doctor")); [injection Er as <-; discriminate H | ].
    discriminate Er.
  - destruct (diagnosisSchema_parse body) as [data|] eqn:Ep; [ | discriminate H].
    exists data. inversion H.
    split; [reflexivity | split; [ | reflexivity]].
    apply (diagnosisSchema_parse_valid body). assumption.
Qed.

(** The raw score has a clear sign bit and is at least 10: every band is a
    base of at least 10 plus a capped term, times a multiplier of at least 1. *)
Lemma switch_probability_lower data :
  valid_input data ->
  nonneg (switch_probability data) = true
  /\ 10 * 2 ^ 1074 <= units (switch_probability data).
Proof.
  intros [Ht _]. apply nonneg_of_ltb_0 in Ht. destruct Ht as [Pt _].
  unfold switch_probability.
  set (t := DiagnosisInput.tumorSize data) in *.
  assert (P3 : nonneg (t * 3) = true) by (apply mul_units; [assumption | float_const ..]).
  assert (P2 : nonneg (t * 2) = true) by (apply mul_units; [assumption | float_const ..]).
  assert (P4 : nonneg (t * 4) = true) by (apply mul_units; [assumption | float_const ..]).
  destruct (DiagnosisInput.cancerType data).
  - repeat match goal with |- context [if ?b then _ else _] => destruct b end;
      match goal with
      | |- nonneg (?c + Math_min ?u ?cap) = true /\ _ =>
          destruct (base_plus_capped c u cap) as [Q H];
          [float_const | assumption | float_const | split; [exact Q | ] ];
          apply (Z.le_trans _ (units c)); [float_const | exact H]
      end.
  - cbv zeta.
    repeat match goal with |- context [if ?b then _ else _] => destruct b end;
      match goal with
      | |- nonneg ((?c + Math_min ?u ?cap) * ?k) = true /\ _ =>
          destruct (base_plus_capped c u cap) as [Q H];
          [float_const | assumption | float_const | ];
          destruct (times_multiplier (c + Math_min u cap) k) as [Q' H'];
          [exact Q | float_const | float_const | split; [exact Q' | ] ];
          apply (Z.le_trans _ (units c)); [float_const | lia]
      end.
  - cbv zeta.
    repeat match goal with |- context [if ?b then _ else _] => destruct b end;
      match goal with
      | |- nonneg ((?c + Math_min ?u ?cap) * ?k) = true /\ _ =>
          destruct (base_plus_capped c u cap) as [Q H];
          [float_const | assumption | float_const | ];
          destruct (times_multiplier (c + Math_min u cap) k) as [Q' H'];
          [exact Q | float_const | float_const | split; [exact Q' | ] ];
          apply (Z.le_trans _ (units c)); [float_const | lia]
      end.
Qed.

Lemma base_plus_capped_upper c u cap :
  nonneg c = true -> nonneg u = true -> nonneg cap = true ->
  units (c + Math_min u cap) <= units (c + cap).
Proof.
  intros Pc Pu Pcap. destruct (Math_min_units u cap Pu Pcap) as [Pm Em].
  apply add_mono; try assumption. lia.
Qed.

(** The raw score is at most (60 + 25) * 1.8, below 200. *)
Lemma switch_probability_upper data :
  valid_input data -> units (switch_probability data) <= 200 * 2 ^ 1074.
Proof.
  intros [Ht _]. apply nonneg_of_ltb_0 in Ht. destruct Ht as [Pt _].
  unfold switch_probability.
  set (t := DiagnosisInput.tumorSize data) in *.
  assert (P3 : nonneg (t * 3) = true) by (apply mul_units; [assumption | float_const ..]).
  assert (P2 : nonneg (t * 2) = true) by (apply mul_units; [assumption | float_const ..]).
  assert (P4 : nonneg (t * 4) = true) by (apply mul_units; [assumption | float_const ..]).
  destruct (DiagnosisInput.cancerType data); cbv zeta;
    repeat match goal with |- context [if ?b then _ else _] => destruct b end;
    match goal with
    | |- units (?c + Math_min ?u ?cap) <= _ =>
        apply (Z.le_trans _ (units (c + cap)));
        [apply base_plus_capped_upper; [float_const | assumption | float_const]
        | float_const]
    | |- units ((?c + Math_min ?u ?cap) * ?k) <= _ =>
        apply (Z.le_trans _ (units ((c + cap) * k)));
        [apply mul_mono;
         [apply base_plus_capped; [float_const | assumption | float_const]
         | float_const | float_const | float_const
         | apply base_plus_capped_upper; [float_const | assumption | float_const] ]
        | float_const]
    end.
Qed.

(** The probability the handler sends. *)
Lemma probability_eq data :
  DiagnosisResult.probability (computeRisk data)
  = Math_min (Math_round (switch_probability data)) 98.
Proof.
  unfold computeRisk.
  destruct (70 <=? Math_min (Math_round (switch_probability data)) 98)%float;
    [reflexivity | ].
  destruct (40 <=? Math_min (Math_round (switch_probability data)) 98)%float; reflexivity.
Qed.

(** The integer [Math.round] returns on the raw score, and the probability
    made of it. *)
Lemma probability_rounding data :
  valid_input data ->
  exists n : Z,
    10 <= n <= 200
    /\ Math_round (switch_probability data) = float_of_Z n
    /\ (2 * n - 1) * 2 ^ 1074 <= 2 * units (switch_probability data) < (2 * n + 1) * 2 ^ 1074
    /\ DiagnosisResult.probability (computeRisk data) = float_of_Z (Z.min n 98).
Proof.
  intros Hv.
  destruct (switch_probability_lower data Hv) as [Praw Hlo].
  pose proof (switch_probability_upper data Hv) as Hhi.
  set (raw := switch_probability data) in *.
  destruct (Math_round_units raw Praw) as [Pr Er].
  destruct (Z.ltb_spec (units raw) (2 ^ 2098)) as [_|Hbig]; [ | lia].
  set (n := roundZ (units raw)) in *.
  assert (Hn : 10 <= n <= 200).
  { unfold n. split.
    - rewrite <- (roundZ_multiple 10). apply roundZ_mono. assumption.
    - rewrite <- (roundZ_multiple 200). apply roundZ_mono. assumption. }
  assert (Hround : Math_round raw = float_of_Z n).
  { destruct (float_of_Z_units n ltac:(lia)) as [Pn En].
    apply units_inj; try assumption. lia. }
  exists n. split; [assumption | split; [assumption | split]].
  - unfold n, roundZ. change (2 ^ 1075) with (2 * 2 ^ 1074).
    pose proof (pow2_pos 1074 ltac:(lia)) as HU. set (U := 2 ^ 1074) in *.
    pose proof (units_nonneg raw) as Hv0. set (v := units raw) in *. clearbody U v.
    pose proof (Z.div_mod (2 * v + U) (2 * U) ltac:(lia)) as Hd.
    pose proof (Z.mod_pos_bound (2 * v + U) (2 * U) ltac:(lia)) as Hm.
    set (q := (2 * v + U) / (2 * U)) in *. clearbody q. nia.
  - rewrite probability_eq. fold raw.
    assert (P98 : nonneg 98 = true) by float_const.
    destruct (Math_min_units (Math_round raw) 98 Pr P98) as [Pm Em].
    destruct (float_of_Z_units (Z.min n 98) ltac:(lia)) as [Pz Ez].
    apply units_inj; try assumption.
    rewrite Em, Ez, Er.
    change (units 98) with (98 * 2 ^ 1074).
    rewrite Z.mul_min_distr_nonneg_r by lia. reflexivity.
Qed.

(** ** Comparisons of numbers that are not NaN *)

Lemma SFcompare_antisym x y : SFcompare y x = option_map CompOpp (SFcompare x y).
Proof.
  destruct x as [[|]|[|]| |[|] mx ex]; destruct y as [[|]|[|]| |[|] my ey];
    try reflexivity; unfold SFcompare, option_map; f_equal;
    assert (H : Pos.compare_cont Eq my mx = CompOpp (Pos.compare_cont Eq mx my))
      by (symmetry; apply (Pos.compare_cont_antisym mx my Eq));
    rewrite (Z.compare_antisym ex ey), H;
    destruct (ex ?= ey); simpl CompOpp; try reflexivity;
    destruct (Pos.compare_cont Eq mx my); reflexivity.
Qed.

Lemma SFcompare_refl x : x <> S754_nan -> SFcompare x x = Some Eq.
Proof.
  intros H. destruct x as [[|]|[|]| |[|] m e]; try reflexivity; try congruence;
    unfold SFcompare; rewrite Z.compare_refl, Pos.compare_cont_refl; reflexivity.
Qed.

Lemma is_nan_false a : is_nan a = false <-> Prim2SF a <> S754_nan.
Proof.
  unfold is_nan. rewrite FloatAxioms.eqb_spec. unfold SFeqb. split.
  - intros H E. rewrite E in H. discriminate H.
  - intros H. rewrite (SFcompare_refl _ H). reflexivity.
Qed.

Lemma SFcompare_total x y :
  x <> S754_nan -> y <> S754_nan -> exists c, SFcompare x y = Some c.
Proof.
  intros Hx Hy.
  destruct x as [[|]|[|]| |[|] mx ex]; destruct y as [[|]|[|]| |[|] my ey];
    try congruence; eexists; reflexivity.
Qed.

Lemma ltb_false_leb a b :
  is_nan a = false -> is_nan b = false ->
  (a <? b)%float = false -> (b <=? a)%float = true.
Proof.
  rewrite !is_nan_false, FloatAxioms.ltb_spec, FloatAxioms.leb_spec. intros Ha Hb.
  unfold SFltb, SFleb. rewrite (SFcompare_antisym (Prim2SF a) (Prim2SF b)).
  destruct (SFcompare_total _ _ Ha Hb) as [c ->]. destruct c; simpl; congruence.
Qed.

Lemma nonneg_of_leb a b :
  nonneg a = true -> 0 < units a -> (a <=? b)%float = true ->
  nonneg b = true /\ units a <= units b.
Proof.
  intros Pa Ha H.
  assert (Pb : nonneg b = true).
  { rewrite FloatAxioms.leb_spec in H. unfold SFleb, nonneg, units in *.
    destruct (Prim2SF a) as [[|]|[|]| |[|] ma ea]; try discriminate Pa;
      destruct (Prim2SF b) as [[|]|[|]| |[|] mb eb]; try reflexivity;
      try discriminate H; unfold SFunits in Ha; lia. }
  split; [assumption | ].
  rewrite (leb_units a b Pa Pb) in H. apply Z.leb_le. assumption.
Qed.

(** ** The distance between the handler's arithmetic and the table *)

(** Rounding moves a value below 2^B by at most the unit of its last kept
    digit. *)
Lemma rnd_error c N B :
  0 <= c <= B - 53 -> B <= 2097 + c -> 0 <= N < 2 ^ B ->
  Z.abs (rnd c N - N) <= 2 ^ (B - 53).
Proof.
  intros Hc HB HN.
  assert (Hdig : dig N <= B).
  { destruct (Z.eq_dec N 0) as [-> | Hn0]; [unfold dig; simpl; lia | ].
    pose proof (dig_bounds N ltac:(lia)) as [Hd _].
    destruct (Z_le_gt_dec (dig N) B) as [H | H]; [exact H | ].
    pose proof (pow2_le B (dig N - 1) ltac:(lia)). lia. }
  pose proof (expo_nonneg c N ltac:(lia)) as Hk0.
  assert (Hk : expo c N <= B - 53) by (unfold expo; lia).
  pose proof (pow2_le (expo c N) (B - 53) ltac:(lia)) as Hp.
  pose proof (pow2_pos (expo c N) Hk0) as Hpos.
  pose proof (rne_bounds N (expo c N) Hk0) as [Hl Hu].
  pose proof (Z.div_mod N (2 ^ expo c N) ltac:(lia)) as Hdm.
  pose proof (Z.mod_pos_bound N (2 ^ expo c N) Hpos) as Hmod.
  assert (H0 : Z.abs (rnd0 c N - N) <= 2 ^ expo c N).
  { unfold rnd0. set (k := 2 ^ expo c N) in *. set (q := N / k) in *.
    set (r := rne N (expo c N)) in *. clearbody k q r. nia. }
  assert (Hcap : rnd0 c N <= 2 ^ (2098 + c)).
  { pose proof (pow2_le (B - 53) B ltac:(lia)).
    pose proof (pow2_lt B (2098 + c) ltac:(lia)).
    assert (2 ^ B + 2 ^ B <= 2 ^ (2098 + c)).
    { replace (2 ^ B + 2 ^ B) with (2 ^ (B + 1)) by (rewrite Z.pow_add_r by lia; lia).
      apply pow2_le. lia. }
    lia. }
  unfold rnd. fold (rnd0 c N). rewrite Z.min_l by exact Hcap. lia.
Qed.

Lemma abs_le_mul a b A B :
  Z.abs a <= A -> Z.abs b <= B -> Z.abs (a * b) <= A * B.
Proof.
  intros Ha Hb. rewrite Z.abs_mul.
  apply Z.mul_le_mono_nonneg; try assumption; apply Z.abs_nonneg.
Qed.

(** A product by 2, 3 or 4: exact up to 2^-47 below 64, and at least 64
    from there on. *)
Lemma times_error t k K :
  nonneg t = true -> nonneg k = true -> units k = K * 2 ^ 1074 -> 1 <= K <= 4 ->
  nonneg (t * k) = true
  /\ (units t * K < 64 * 2 ^ 1074 -> Z.abs (units (t * k) - units t * K) <= 2 ^ 1027)
  /\ (64 * 2 ^ 1074 <= units t * K -> 64 * 2 ^ 1074 <= units (t * k)).
Proof.
  intros Pt Pk Ek HK.
  pose proof (pow2_pos 1074 ltac:(lia)) as HU.
  assert (HUU : 2 ^ 1074 * 2 ^ 1074 = 2 ^ 2148)
    by (rewrite <- Z.pow_add_r by lia; reflexivity).
  assert (Hk : 2 ^ 1074 <= units k < 2 ^ 2098).
  { rewrite Ek. split; [nia | ].
    apply (Z.le_lt_trans _ (2 ^ 2 * 2 ^ 1074)); [change (2 ^ 2) with 4; nia | ].
    rewrite <- Z.pow_add_r by lia. apply pow2_lt. lia. }
  destruct (mul_units t k Pt Pk Hk) as [Pm Em].
  pose proof (units_nonneg t) as Ht0.
  split; [exact Pm | split].
  - intros Hsmall.
    assert (HN : 0 <= units t * units k < 2 ^ 2154).
    { rewrite Ek. split; [nia | ].
      replace (2 ^ 2154) with (64 * 2 ^ 1074 * 2 ^ 1074)
        by (change 64 with (2 ^ 6); rewrite <- !Z.pow_add_r by lia; reflexivity).
      nia. }
    pose proof (rnd_error 1074 (units t * units k) 2154 ltac:(lia) ltac:(lia) HN) as He.
    rewrite <- Em in He. change (2154 - 53) with 2101 in He.
    replace (2 ^ 2101) with (2 ^ 1027 * 2 ^ 1074) in He
      by (rewrite <- Z.pow_add_r by lia; reflexivity).
    rewrite Ek in He.
    set (U := 2 ^ 1074) in *. set (D := 2 ^ 1027) in *.
    set (y := units (t * k)) in *. set (T := units t) in *. clearbody U D y T.
    replace (y * U - T * (K * U)) with ((y - T * K) * U) in He by ring.
    rewrite Z.abs_mul, (Z.abs_eq U) in He by lia.
    apply Z.mul_le_mono_pos_r in He; lia.
  - intros Hlarge.
    assert (H1 : rnd 1074 (64 * 2 ^ 2148) <= rnd 1074 (units t * units k)).
    { apply rnd_mono; [lia | ]. rewrite Ek, <- HUU. split; [nia | nia]. }
    rewrite (rnd_exact 1074 64 2148) in H1; [ | lia | lia | ].
    2:{ change 64 with (2 ^ 6). rewrite <- Z.pow_add_r by lia. apply pow2_le. lia. }
    rewrite <- Em, <- HUU in H1. nia.
Qed.

(** The capped term of a band. *)
Lemma capped_error u cap ue CAP :
  nonneg u = true -> nonneg cap = true -> units cap = CAP * 2 ^ 1074 -> 0 <= CAP <= 25 ->
  (ue < 64 * 2 ^ 1074 -> Z.abs (units u - ue) <= 2 ^ 1027) ->
  (64 * 2 ^ 1074 <= ue -> 64 * 2 ^ 1074 <= units u) ->
  nonneg (Math_min u cap) = true
  /\ Z.abs (units (Math_min u cap) - Z.min ue (CAP * 2 ^ 1074)) <= 2 ^ 1027.
Proof.
  intros Pu Pcap Ecap HCAP Hsmall Hlarge.
  destruct (Math_min_units u cap Pu Pcap) as [Pm Em].
  split; [exact Pm | ]. rewrite Em, Ecap.
  pose proof (pow2_pos 1074 ltac:(lia)) as HU.
  pose proof (pow2_pos 1027 ltac:(lia)) as HD.
  destruct (Z.lt_ge_cases ue (64 * 2 ^ 1074)) as [H | H].
  - specialize (Hsmall H). lia.
  - specialize (Hlarge H). lia.
Qed.

(** The base plus the capped term. *)
Lemma plus_error c C m me :
  nonneg c = true -> units c = C * 2 ^ 1074 -> 0 <= C <= 75 ->
  nonneg m = true -> 0 <= me <= 25 * 2 ^ 1074 -> Z.abs (units m - me) <= 2 ^ 1027 ->
  nonneg (c + m) = true
  /\ Z.abs (units (c + m) - (C * 2 ^ 1074 + me)) <= 2 ^ 1028 + 2 ^ 1027.
Proof.
  intros Pc Ec HC Pm Hme Hm.
  destruct (add_units c m Pc Pm) as [Ps Es].
  split; [exact Ps | ]. rewrite Es, Ec.
  pose proof (pow2_pos 1074 ltac:(lia)) as HU.
  pose proof (pow2_lt 1027 1074 ltac:(lia)) as HD.
  pose proof (units_nonneg m) as Hm0.
  assert (HN : 0 <= C * 2 ^ 1074 + units m < 2 ^ 1081).
  { replace (2 ^ 1081) with (128 * 2 ^ 1074)
      by (change 128 with (2 ^ 7); rewrite <- Z.pow_add_r by lia; reflexivity).
    lia. }
  pose proof (rnd_error 0 (C * 2 ^ 1074 + units m) 1081 ltac:(lia) ltac:(lia) HN) as He.
  change (1081 - 53) with 1028 in He. lia.
Qed.

(** The product by the multiplier. *)
Lemma product_error x kf :
  nonneg x = true -> units x <= 127 * 2 ^ 1074 ->
  nonneg kf = true -> 2 ^ 1074 <= units kf <= 2 * 2 ^ 1074 ->
  nonneg (x * kf) = true
  /\ Z.abs (units (x * kf) * 2 ^ 1074 - units x * units kf) <= 2 ^ 1029 * 2 ^ 1074.
Proof.
  intros Px Hx Pk Hk.
  pose proof (pow2_pos 1074 ltac:(lia)) as HU.
  assert (Hk' : 2 ^ 1074 <= units kf < 2 ^ 2098).
  { split; [lia | ]. apply (Z.le_lt_trans _ (2 ^ 1 * 2 ^ 1074)); [change (2 ^ 1) with 2; lia | ].
    rewrite <- Z.pow_add_r by lia. apply pow2_lt. lia. }
  destruct (mul_units x kf Px Pk Hk') as [Pm Em].
  split; [exact Pm | ]. rewrite Em.
  pose proof (units_nonneg x) as Hx0.
  assert (HN : 0 <= units x * units kf < 2 ^ 2156).
  { replace (2 ^ 2156) with (256 * 2 ^ 1074 * 2 ^ 1074)
      by (change 256 with (2 ^ 8); rewrite <- !Z.pow_add_r by lia; reflexivity).
    split; [nia | nia]. }
  pose proof (rnd_error 1074 (units x * units kf) 2156 ltac:(lia) ltac:(lia) HN) as He.
  change (2156 - 53) with 2103 in He.
  replace (2 ^ 2103) with (2 ^ 1029 * 2 ^ 1074) in He
    by (rewrite <- Z.pow_add_r by lia; reflexivity).
  exact He.
Qed.

(** The three errors together, ten times the value against the table's
    entry with the multiplier in tenths. *)
Lemma entry_error_Z U P x se y Kf m10 :
  0 < P -> U = 2 ^ 53 * P -> 0 <= se <= 100 * U ->
  Z.abs (x - se) <= 192 * P ->
  Z.abs (y * U - x * Kf) <= 256 * P * U ->
  Z.abs (10 * Kf - m10 * U) <= 20 * P ->
  10 <= m10 <= 18 ->
  Z.abs (10 * y - se * m10) <= 8192 * P.
Proof.
  intros HP EU Hse Hx Hy Hk Hm.
  assert (H53 : 0 < 2 ^ 53) by (apply pow2_pos; lia).
  assert (HUpos : 0 < U) by nia.
  assert (HPU : 1024 * P <= U).
  { rewrite EU. assert (1024 <= 2 ^ 53) by (change 1024 with (2 ^ 10); apply pow2_le; lia). nia. }
  assert (Hx0 : Z.abs x <= 101 * U) by lia.
  pose proof (abs_le_mul x (10 * Kf - m10 * U) _ _ Hx0 Hk) as H2.
  pose proof (abs_le_mul (x - se) (m10 * U) (192 * P) (18 * U) Hx ltac:(rewrite Z.abs_eq; nia)) as H3.
  assert (Hid : (10 * y - se * m10) * U
                = 10 * (y * U - x * Kf) + x * (10 * Kf - m10 * U) + (x - se) * (m10 * U)) by ring.
  assert (Habs : Z.abs ((10 * y - se * m10) * U) <= 8036 * P * U).
  { rewrite Hid.
    set (a := y * U - x * Kf) in *. set (b := x * (10 * Kf - m10 * U)) in *.
    set (d := (x - se) * (m10 * U)) in *. clearbody a b d.
    assert (101 * U * (20 * P) = 2020 * P * U) by ring.
    assert (192 * P * (18 * U) = 3456 * P * U) by ring.
    set (PU := P * U) in *.
    replace (256 * P * U) with (256 * PU) in Hy by (unfold PU; ring).
    replace (2020 * P * U) with (2020 * PU) in * by (unfold PU; ring).
    replace (3456 * P * U) with (3456 * PU) in * by (unfold PU; ring).
    replace (8036 * P * U) with (8036 * PU) by (unfold PU; ring).
    clearbody PU. lia. }
  rewrite Z.abs_mul, (Z.abs_eq U) in Habs by lia.
  apply Z.mul_le_mono_pos_r in Habs; lia.
Qed.

(** A band with a multiplier: ten times the raw score of the handler
    against the entry of the table with the multiplier in tenths. *)
Lemma band_error c C u ue cap CAP kf m10 :
  nonneg c = true -> units c = C * 2 ^ 1074 -> 0 <= C <= 75 ->
  nonneg cap = true -> units cap = CAP * 2 ^ 1074 -> 0 <= CAP <= 25 ->
  nonneg u = true -> 0 <= ue ->
  (ue < 64 * 2 ^ 1074 -> Z.abs (units u - ue) <= 2 ^ 1027) ->
  (64 * 2 ^ 1074 <= ue -> 64 * 2 ^ 1074 <= units u) ->
  nonneg kf = true -> 2 ^ 1074 <= units kf <= 2 * 2 ^ 1074 ->
  Z.abs (10 * units kf - m10 * 2 ^ 1074) <= 20 * 2 ^ 1021 -> 10 <= m10 <= 18 ->
  nonneg ((c + Math_min u cap) * kf) = true
  /\ Z.abs (10 * units ((c + Math_min u cap) * kf)
            - (C * 2 ^ 1074 + Z.min ue (CAP * 2 ^ 1074)) * m10) <= 2 ^ 1034.
Proof.
  intros Pc Ec HC Pcap Ecap HCAP Pu Hue Hsmall Hlarge Pk Hk Ek Hm.
  destruct (capped_error u cap ue CAP Pu Pcap Ecap HCAP Hsmall Hlarge) as [Pm Em].
  pose proof (pow2_pos 1074 ltac:(lia)) as HU.
  pose proof (pow2_pos 1021 ltac:(lia)) as HP.
  assert (EU : 2 ^ 1074 = 2 ^ 53 * 2 ^ 1021) by (rewrite <- Z.pow_add_r by lia; reflexivity).
  assert (E27 : 2 ^ 1027 = 64 * 2 ^ 1021)
    by (change 64 with (2 ^ 6); rewrite <- Z.pow_add_r by lia; reflexivity).
  assert (E28 : 2 ^ 1028 = 128 * 2 ^ 1021)
    by (change 128 with (2 ^ 7); rewrite <- Z.pow_add_r by lia; reflexivity).
  assert (E29 : 2 ^ 1029 = 256 * 2 ^ 1021)
    by (change 256 with (2 ^ 8); rewrite <- Z.pow_add_r by lia; reflexivity).
  assert (E34 : 2 ^ 1034 = 8192 * 2 ^ 1021)
    by (change 8192 with (2 ^ 13); rewrite <- Z.pow_add_r by lia; reflexivity).
  assert (H53 : 1024 <= 2 ^ 53) by (change 1024 with (2 ^ 10); apply pow2_le; lia).
  set (me := Z.min ue (CAP * 2 ^ 1074)) in *.
  assert (Hme : 0 <= me <= 25 * 2 ^ 1074) by (unfold me; lia).
  destruct (plus_error c C (Math_min u cap) me Pc Ec HC Pm Hme Em) as [Ps Es].
  assert (Hs : units (c + Math_min u cap) <= 127 * 2 ^ 1074).
  { rewrite E27, E28, EU in *. set (P := 2 ^ 1021) in *. clearbody P. nia. }
  destruct (product_error (c + Math_min u cap) kf Ps Hs Pk Hk) as [Pp Ep].
  split; [exact Pp | ].
  rewrite E34.
  apply (entry_error_Z (2 ^ 1074) (2 ^ 1021) (units (c + Math_min u cap))
           (C * 2 ^ 1074 + me) _ (units kf) m10); try assumption; lia.
Qed.

(** A band without a multiplier. *)
Lemma band_error_plain c C u ue cap CAP :
  nonneg c = true -> units c = C * 2 ^ 1074 -> 0 <= C <= 75 ->
  nonneg cap = true -> units cap = CAP * 2 ^ 1074 -> 0 <= CAP <= 25 ->
  nonneg u = true -> 0 <= ue ->
  (ue < 64 * 2 ^ 1074 -> Z.abs (units u - ue) <= 2 ^ 1027) ->
  (64 * 2 ^ 1074 <= ue -> 64 * 2 ^ 1074 <= units u) ->
  nonneg (c + Math_min u cap) = true
  /\ Z.abs (10 * units (c + Math_min u cap)
            - (C * 2 ^ 1074 + Z.min ue (CAP * 2 ^ 1074)) * 10) <= 2 ^ 1034.
Proof.
  intros Pc Ec HC Pcap Ecap HCAP Pu Hue Hsmall Hlarge.
  destruct (capped_error u cap ue CAP Pu Pcap Ecap HCAP Hsmall Hlarge) as [Pm Em].
  pose proof (pow2_pos 1074 ltac:(lia)) as HU.
  pose proof (pow2_pos 1021 ltac:(lia)) as HP.
  assert (E27 : 2 ^ 1027 = 64 * 2 ^ 1021)
    by (change 64 with (2 ^ 6); rewrite <- Z.pow_add_r by lia; reflexivity).
  assert (E28 : 2 ^ 1028 = 128 * 2 ^ 1021)
    by (change 128 with (2 ^ 7); rewrite <- Z.pow_add_r by lia; reflexivity).
  assert (E34 : 2 ^ 1034 = 8192 * 2 ^ 1021)
    by (change 8192 with (2 ^ 13); rewrite <- Z.pow_add_r by lia; reflexivity).
  set (me := Z.min ue (CAP * 2 ^ 1074)) in *.
  assert (Hme : 0 <= me <= 25 * 2 ^ 1074) by (unfold me; lia).
  destruct (plus_error c C (Math_min u cap) me Pc Ec HC Pm Hme Em) as [Ps Es].
  split; [exact Ps | ]. rewrite E27, E28 in Es. rewrite E34. lia.
Qed.

(** The tumor size itself as the term: exact. *)
Lemma term_exact t :
  (units t < 64 * 2 ^ 1074 -> Z.abs (units t - units t) <= 2 ^ 1027)
  /\ (64 * 2 ^ 1074 <= units t -> 64 * 2 ^ 1074 <= units t).
Proof.
  pose proof (pow2_pos 1027 ltac:(lia)).
  split; [intros _; rewrite Z.sub_diag; simpl; lia | trivial].
Qed.

(** ** The table over the rationals *)

Lemma Upos_eq : Z.pos (2 ^ 1074) = 2 ^ 1074.
Proof. apply Pos2Z.inj_pow. Qed.

Lemma value_nonneg x : nonneg x = true -> value x = units x # (2 ^ 1074).
Proof. intros H. unfold value. rewrite H. reflexivity. Qed.

Lemma Qmin_same_den a b d : (Qmin (a # d) (b # d) == Z.min a b # d)%Q.
Proof.
  destruct (Z.le_gt_cases a b) as [H | H].
  - rewrite Z.min_l by assumption. apply Q.min_l.
    unfold Qle. cbn [Qnum Qden]. nia.
  - rewrite Z.min_r by lia. apply Q.min_r.
    unfold Qle. cbn [Qnum Qden]. nia.
Qed.

Lemma Qterm_times T K :
  ((T # (2 ^ 1074)) * inject_Z K == (T * K) # (2 ^ 1074))%Q.
Proof.
  unfold Qeq, Qmult, inject_Z. cbn [Qnum Qden]. rewrite Pos.mul_1_r. reflexivity.
Qed.

(** An entry of the table, with the multiplier in tenths. *)
Lemma table_entry q ue C CAP m10 :
  (q == ue # (2 ^ 1074))%Q ->
  ((inject_Z C + Qmin q (inject_Z CAP)) * (m10 # 10)
   == ((C * 2 ^ 1074 + Z.min ue (CAP * 2 ^ 1074)) * m10) # (10 * 2 ^ 1074))%Q.
Proof.
  intros Hq.
  assert (Hcap : (inject_Z CAP == (CAP * 2 ^ 1074) # (2 ^ 1074))%Q).
  { unfold Qeq, inject_Z. cbn [Qnum Qden]. rewrite Upos_eq. ring. }
  rewrite Hq, Hcap, Qmin_same_den.
  set (me := Z.min ue (CAP * 2 ^ 1074)). clearbody me.
  unfold Qeq, Qmult, Qplus, inject_Z. cbn [Qnum Qden].
  rewrite !Pos2Z.inj_mul, !Upos_eq.
  set (U := 2 ^ 1074). clearbody U. ring.
Qed.

Lemma table_entry_plain q ue C CAP :
  (q == ue # (2 ^ 1074))%Q ->
  (inject_Z C + Qmin q (inject_Z CAP)
   == ((C * 2 ^ 1074 + Z.min ue (CAP * 2 ^ 1074)) * 10) # (10 * 2 ^ 1074))%Q.
Proof.
  intros Hq.
  assert (Hcap : (inject_Z CAP == (CAP * 2 ^ 1074) # (2 ^ 1074))%Q).
  { unfold Qeq, inject_Z. cbn [Qnum Qden]. rewrite Upos_eq. ring. }
  rewrite Hq, Hcap, Qmin_same_den.
  set (me := Z.min ue (CAP * 2 ^ 1074)). clearbody me.
  unfold Qeq, Qplus, inject_Z. cbn [Qnum Qden].
  rewrite !Pos2Z.inj_mul, !Upos_eq.
  set (U := 2 ^ 1074). clearbody U. ring.
Qed.


(** ** The bands *)

Lemma ltb_negative c x :
  nonneg c = true -> nonneg x = false -> is_nan x = false -> (c <? x)%float = false.
Proof.
  intros Pc Px Hx. rewrite FloatAxioms.ltb_spec. unfold SFltb, nonneg in *.
  apply is_nan_false in Hx.
  destruct (Prim2SF c) as [[|]|[|]| |[|] mc ec]; try discriminate Pc;
    destruct (Prim2SF x) as [[|]|[|]| |[|] m e]; try discriminate Px;
    try congruence; reflexivity.
Qed.

(** The test of a band on the number is the test on its value. *)
Lemma band_test c C x :
  nonneg c = true -> units c = C * 2 ^ 1074 -> 0 <= C -> is_nan x = false ->
  (c <? x)%float = if Qlt_le_dec (C # 1) (value x) then true else false.
Proof.
  intros Pc Ec HC Hx.
  pose proof (pow2_pos 1074 ltac:(lia)) as HU.
  pose proof (units_nonneg x) as Hx0.
  unfold value. destruct (nonneg x) eqn:Px.
  - rewrite (ltb_units c x Pc Px), Ec.
    destruct (Qlt_le_dec (C # 1) (units x # 2 ^ 1074)) as [H | H];
      [unfold Qlt in H | unfold Qle in H]; cbn [Qnum Qden] in H; rewrite Upos_eq in H.
    + apply Z.ltb_lt. lia.
    + apply Z.ltb_ge. lia.
  - rewrite (ltb_negative c x Pc Px Hx).
    destruct (Qlt_le_dec (C # 1) (- units x # 2 ^ 1074)) as [H | H]; [ | reflexivity].
    unfold Qlt in H. cbn [Qnum Qden] in H. rewrite Upos_eq in H. nia.
Qed.

(** A band of the handler and the entry of the table: the term is the
    tumor size times 2, 3 or 4. *)
Lemma band_times t c C k K cap CAP kf m10 :
  nonneg t = true ->
  nonneg c = true -> units c = C * 2 ^ 1074 -> 0 <= C <= 75 ->
  nonneg k = true -> units k = K * 2 ^ 1074 -> 1 <= K <= 4 ->
  nonneg cap = true -> units cap = CAP * 2 ^ 1074 -> 0 <= CAP <= 25 ->
  nonneg kf = true -> 2 ^ 1074 <= units kf <= 2 * 2 ^ 1074 ->
  Z.abs (10 * units kf - m10 * 2 ^ 1074) <= 20 * 2 ^ 1021 -> 10 <= m10 <= 18 ->
  exists E10,
    Z.abs (10 * units ((c + Math_min (t * k) cap) * kf) - E10) <= 2 ^ 1034
    /\ ((inject_Z C + Qmin ((units t # 2 ^ 1074) * inject_Z K) (inject_Z CAP)) * (m10 # 10)
        == E10 # (10 * 2 ^ 1074))%Q.
Proof.
  intros Pt Pc Ec HC Pk Ek HK Pcap Ecap HCAP Pkf Hkf Ekf Hm.
  destruct (times_error t k K Pt Pk Ek HK) as [Pu [Hsmall Hlarge]].
  pose proof (units_nonneg t) as Ht0.
  exists ((C * 2 ^ 1074 + Z.min (units t * K) (CAP * 2 ^ 1074)) * m10). split.
  - apply (band_error c C (t * k) (units t * K) cap CAP kf m10); try assumption. nia.
  - apply table_entry. apply Qterm_times.
Qed.

(** The same when the term is the tumor size itself. *)
Lemma band_size t c C cap CAP kf m10 :
  nonneg t = true ->
  nonneg c = true -> units c = C * 2 ^ 1074 -> 0 <= C <= 75 ->
  nonneg cap = true -> units cap = CAP * 2 ^ 1074 -> 0 <= CAP <= 25 ->
  nonneg kf = true -> 2 ^ 1074 <= units kf <= 2 * 2 ^ 1074 ->
  Z.abs (10 * units kf - m10 * 2 ^ 1074) <= 20 * 2 ^ 1021 -> 10 <= m10 <= 18 ->
  exists E10,
    Z.abs (10 * units ((c + Math_min t cap) * kf) - E10) <= 2 ^ 1034
    /\ ((inject_Z C + Qmin (units t # 2 ^ 1074) (inject_Z CAP)) * (m10 # 10)
        == E10 # (10 * 2 ^ 1074))%Q.
Proof.
  intros Pt Pc Ec HC Pcap Ecap HCAP Pkf Hkf Ekf Hm.
  destruct (term_exact t) as [Hsmall Hlarge].
  pose proof (units_nonneg t) as Ht0.
  exists ((C * 2 ^ 1074 + Z.min (units t) (CAP * 2 ^ 1074)) * m10). split.
  - apply (band_error c C t (units t) cap CAP kf m10); assumption.
  - apply table_entry. reflexivity.
Qed.

(** The bands of the liver, which have no multiplier. *)
Lemma band_times_plain t c C k K cap CAP :
  nonneg t = true ->
  nonneg c = true -> units c = C * 2 ^ 1074 -> 0 <= C <= 75 ->
  nonneg k = true -> units k = K * 2 ^ 1074 -> 1 <= K <= 4 ->
  nonneg cap = true -> units cap = CAP * 2 ^ 1074 -> 0 <= CAP <= 25 ->
  exists E10,
    Z.abs (10 * units (c + Math_min (t * k) cap) - E10) <= 2 ^ 1034
    /\ (inject_Z C + Qmin ((units t # 2 ^ 1074) * inject_Z K) (inject_Z CAP)
        == E10 # (10 * 2 ^ 1074))%Q.
Proof.
  intros Pt Pc Ec HC Pk Ek HK Pcap Ecap HCAP.
  destruct (times_error t k K Pt Pk Ek HK) as [Pu [Hsmall Hlarge]].
  pose proof (units_nonneg t) as Ht0.
  exists ((C * 2 ^ 1074 + Z.min (units t * K) (CAP * 2 ^ 1074)) * 10). split.
  - apply (band_error_plain c C (t * k) (units t * K) cap CAP); try assumption. nia.
  - apply table_entry_plain. apply Qterm_times.
Qed.

Lemma band_size_plain t c C cap CAP :
  nonneg t = true ->
  nonneg c = true -> units c = C * 2 ^ 1074 -> 0 <= C <= 75 ->
  nonneg cap = true -> units cap = CAP * 2 ^ 1074 -> 0 <= CAP <= 25 ->
  exists E10,
    Z.abs (10 * units (c + Math_min t cap) - E10) <= 2 ^ 1034
    /\ (inject_Z C + Qmin (units t # 2 ^ 1074) (inject_Z CAP)
        == E10 # (10 * 2 ^ 1074))%Q.
Proof.
  intros Pt Pc Ec HC Pcap Ecap HCAP.
  destruct (term_exact t) as [Hsmall Hlarge].
  pose proof (units_nonneg t) as Ht0.
  exists ((C * 2 ^ 1074 + Z.min (units t) (CAP * 2 ^ 1074)) * 10). split.
  - apply (band_error_plain c C t (units t) cap CAP); assumption.
  - apply table_entry_plain. reflexivity.
Qed.

(** The multipliers of the handler are those of the table. *)
Lemma spec_smokingMultiplier_eq f :
  spec_smokingMultiplier f
  = if strict_equal f "current" then 1.8%Q
    else if strict_equal f "former" then 1.3%Q else 1.0%Q.
Proof.
  destruct f as [| |s]; try reflexivity. unfold strict_equal, spec_smokingMultiplier.
  destruct (String.eqb_spec s "current") as [->|H1]; [reflexivity | ].
  destruct (String.eqb_spec s "former") as [->|H2]; [reflexivity | ].
  repeat (destruct s as [|[[|] [|] [|] [|] [|] [|] [|] [|]] s]; try reflexivity;
          try congruence).
Qed.

Lemma spec_her2Multiplier_eq f :
  spec_her2Multiplier f = if strict_equal f "positive" then 1.4%Q else 1.0%Q.
Proof.
  destruct f as [| |s]; try reflexivity. unfold strict_equal, spec_her2Multiplier.
  destruct (String.eqb_spec s "positive") as [->|H1]; [reflexivity | ].
  repeat (destruct s as [|[[|] [|] [|] [|] [|] [|] [|] [|]] s]; try reflexivity;
          try congruence).
Qed.


(** On a valid input the raw score of the handler is within 2^-40 of the
    entry of the table, which is a fraction of denominator 10 * 2^1074. *)
Lemma raw_error data :
  valid_input data ->
  exists E10,
    Z.abs (10 * units (switch_probability data) - E10) <= 2 ^ 1034
    /\ (spec_raw_probability data == E10 # (10 * 2 ^ 1074))%Q.
Proof.
  intros [Ht Hb]. apply nonneg_of_ltb_0 in Ht. destruct Ht as [Pt _].
  unfold switch_probability, spec_raw_probability. cbv zeta.
  rewrite spec_smokingMultiplier_eq, spec_her2Multiplier_eq.
  rewrite (value_nonneg _ Pt).
  set (t := DiagnosisInput.tumorSize data) in *.
  set (x := DiagnosisInput.biomarker1 data) in *.
  destruct (DiagnosisInput.cancerType data).
  - rewrite (band_test 400 400 x ltac:(table_const) ltac:(table_const) ltac:(lia) Hb).
    rewrite (band_test 20 20 x ltac:(table_const) ltac:(table_const) ltac:(lia) Hb).
    destruct (Qlt_le_dec 400 (value x)); [ | destruct (Qlt_le_dec 20 (value x))].
    + apply (band_times_plain t 75 75 3 3 20 20); assumption || table_const.
    + apply (band_times_plain t 45 45 2 2 25 25); assumption || table_const.
    + apply (band_size_plain t 15 15 15 15); assumption || table_const.
  - rewrite (band_test 10 10 x ltac:(table_const) ltac:(table_const) ltac:(lia) Hb).
    rewrite (band_test 5 5 x ltac:(table_const) ltac:(table_const) ltac:(lia) Hb).
    destruct (strict_equal (DiagnosisInput.additionalFactor data) "current");
      [ | destruct (strict_equal (DiagnosisInput.additionalFactor data) "former")];
      (destruct (Qlt_le_dec 10 (value x)); [ | destruct (Qlt_le_dec 5 (value x))]).
    + apply (band_times t 60 60 4 4 25 25 1.8 18); assumption || table_const.
    + apply (band_times t 35 35 3 3 20 20 1.8 18); assumption || table_const.
    + apply (band_times t 10 10 2 2 15 15 1.8 18); assumption || table_const.
    + apply (band_times t 60 60 4 4 25 25 1.3 13); assumption || table_const.
    + apply (band_times t 35 35 3 3 20 20 1.3 13); assumption || table_const.
    + apply (band_times t 10 10 2 2 15 15 1.3 13); assumption || table_const.
    + apply (band_times t 60 60 4 4 25 25 1 10); assumption || table_const.
    + apply (band_times t 35 35 3 3 20 20 1 10); assumption || table_const.
    + apply (band_times t 10 10 2 2 15 15 1 10); assumption || table_const.
  - rewrite (band_test 100 100 x ltac:(table_const) ltac:(table_const) ltac:(lia) Hb).
    rewrite (band_test 30 30 x ltac:(table_const) ltac:(table_const) ltac:(lia) Hb).
    destruct (strict_equal (DiagnosisInput.biomarker2 data) "positive");
      (destruct (Qlt_le_dec 100 (value x)); [ | destruct (Qlt_le_dec 30 (value x))]).
    + apply (band_times t 70 70 3 3 20 20 1.4 14); assumption || table_const.
    + apply (band_times t 40 40 2 2 25 25 1.4 14); assumption || table_const.
    + apply (band_size t 12 12 15 15 1.4 14); assumption || table_const.
    + apply (band_times t 70 70 3 3 20 20 1 10); assumption || table_const.
    + apply (band_times t 40 40 2 2 25 25 1 10); assumption || table_const.
    + apply (band_size t 12 12 15 15 1 10); assumption || table_const.
Qed.

(** ** Rounding the table and rounding the raw score *)

Lemma Qfloor_make a d : Qfloor (a # d) = a / Z.pos d.
Proof. reflexivity. Qed.

(** The integer [Math.round] returns on a raw score within 2^-40 of the
    table lies between the nearest integers of the table's value moved by
    2^-40 either way. *)
Lemma nearest_integer_bracket raw E10 p n :
  (raw == E10 # (10 * 2 ^ 1074))%Q ->
  Z.abs (10 * p - E10) <= 2 ^ 1034 ->
  (2 * n - 1) * 2 ^ 1074 <= 2 * p < (2 * n + 1) * 2 ^ 1074 ->
  nearest_integer (raw - tolerance) <= n <= nearest_integer (raw + tolerance).
Proof.
  intros Hraw Herr Hn. unfold nearest_integer.
  rewrite (Qfloor_comp (raw - tolerance + (1 # 2))
                       ((E10 # (10 * 2 ^ 1074)) - tolerance + (1 # 2)))
    by (rewrite Hraw; reflexivity).
  rewrite (Qfloor_comp (raw + tolerance + (1 # 2))
                       ((E10 # (10 * 2 ^ 1074)) + tolerance + (1 # 2)))
    by (rewrite Hraw; reflexivity).
  unfold tolerance, Qminus, Qplus, Qopp. cbn [Qnum Qden]. rewrite !Qfloor_make.
  rewrite !Pos2Z.inj_mul, Upos_eq, (Pos2Z.inj_pow 2 40).
  assert (EU : 2 ^ 1074 = 2 ^ 1034 * 2 ^ 40) by (rewrite <- Z.pow_add_r by lia; reflexivity).
  pose proof (pow2_pos 1034 ltac:(lia)) as HD.
  pose proof (pow2_pos 40 ltac:(lia)) as HW.
  rewrite EU in *.
  set (D := 2 ^ 1034) in *. set (W := 2 ^ 40) in *. clearbody D W.
  split.
  - assert (H : (E10 * W + - (1) * (10 * (D * W))) * 2 + 1 * (10 * (D * W) * W)
                < 10 * (D * W) * W * 2 * (n + 1)) by nia.
    apply Z.div_lt_upper_bound in H; [lia | nia].
  - apply Z.div_le_lower_bound; [nia | nia].
Qed.

Lemma nearest_integer_mono q1 q2 : (q1 <= q2)%Q -> nearest_integer q1 <= nearest_integer q2.
Proof.
  intros H. unfold nearest_integer. apply Qfloor_resp_le.
  apply Qplus_le_compat; [exact H | apply Qle_refl].
Qed.

Lemma tolerance_below q : (q - tolerance <= q)%Q.
Proof.
  rewrite <- (Qplus_0_r q) at 2. unfold Qminus. apply Qplus_le_compat; [apply Qle_refl | ].
  unfold tolerance, Qle. reflexivity || (cbn; lia).
Qed.

Lemma tolerance_above q : (q <= q + tolerance)%Q.
Proof.
  rewrite <- (Qplus_0_r q) at 1. apply Qplus_le_compat; [apply Qle_refl | ].
  unfold tolerance, Qle. cbn. lia.
Qed.

(** ** The properties of the risk calculation *)

(** The examples of the specification, run. *)
Example liver_example_result :
  DiagnosisResult.probability (computeRisk liver_example) = 90%float
  /\ DiagnosisResult.riskLevel (computeRisk liver_example) = "High"
  /\ DiagnosisResult.cancerType (computeRisk liver_example) = "Liver".
Proof. repeat split; vm_compute; reflexivity. Qed.

Example lung_example_result :
  switch_probability lung_example = 21.6%float
  /\ DiagnosisResult.probability (computeRisk lung_example) = 22%float
  /\ DiagnosisResult.riskLevel (computeRisk lung_example) = "Low".
Proof. repeat split; vm_compute; reflexivity. Qed.

Example breast_example_result :
  switch_probability breast_example = 114.8%float
  /\ DiagnosisResult.probability (computeRisk breast_example) = 98%float
  /\ DiagnosisResult.riskLevel (computeRisk breast_example) = "High".
Proof. repeat split; vm_compute; reflexivity. Qed.

Example breast_low_example_result :
  DiagnosisResult.probability (computeRisk breast_low_example) = 14%float
  /\ DiagnosisResult.riskLevel (computeRisk breast_low_example) = "Low".
Proof. repeat split; vm_compute; reflexivity. Qed.

(** In binary64 the product 42.5 * 1.4 falls just below 59.5, and
    [Math.round] returns 59. *)
Example breast_tie_example_result :
  switch_probability breast_tie_example = 0x1.dbfffffffffffp+5%float
  /\ (switch_probability breast_tie_example <? 59.5)%float = true
  /\ DiagnosisResult.probability (computeRisk breast_tie_example) = 59%float.
Proof. repeat split; vm_compute; reflexivity. Qed.

(** C2 (amended): on a valid input the probability is the number of an
    integer [n] that lies between the probabilities the table of the
    specification gives, over the real numbers, for its raw value moved by
    2^-40 down and up; so it is the probability of the table whenever
    those two agree, which they do unless the raw value of the table is
    within 2^-40 of a half. *)
Theorem computeRisk_rounds_the_table data
  (Hvalid : valid_input data) :
  exists n : Z,
    DiagnosisResult.probability (computeRisk data) = float_of_Z n
    /\ Z.min (nearest_integer (spec_raw_probability data - tolerance)) 98 <= n
       <= Z.min (nearest_integer (spec_raw_probability data + tolerance)) 98
    /\ (nearest_integer (spec_raw_probability data - tolerance)
        = nearest_integer (spec_raw_probability data + tolerance) ->
        n = spec_probability data).
Proof.
  destruct (probability_rounding data Hvalid) as [n [_ [_ [Hn Hp]]]].
  destruct (raw_error data Hvalid) as [E10 [Herr Hraw]].
  pose proof (nearest_integer_bracket _ E10 _ n Hraw Herr Hn) as [Hlo Hhi].
  exists (Z.min n 98). split; [exact Hp | split; [lia | ]].
  intros Heq. unfold spec_probability.
  pose proof (nearest_integer_mono _ _ (tolerance_below (spec_raw_probability data))) as H1.
  pose proof (nearest_integer_mono _ _ (tolerance_above (spec_raw_probability data))) as H2.
  lia.
Qed.

(** C2 (witness): the lung example of the specification, 21.6. *)
Lemma computeRisk_rounds_the_table_witness :
  exists n : Z,
    DiagnosisResult.probability (computeRisk lung_example) = float_of_Z n
    /\ Z.min (nearest_integer (spec_raw_probability lung_example - tolerance)) 98 <= n
       <= Z.min (nearest_integer (spec_raw_probability lung_example + tolerance)) 98
    /\ (nearest_integer (spec_raw_probability lung_example - tolerance)
        = nearest_integer (spec_raw_probability lung_example + tolerance) ->
        n = spec_probability lung_example).
Proof.
  apply (computeRisk_rounds_the_table lung_example).
  split; reflexivity.
Defined.

(** C2 (counterexample): breast, CA 15-3 of 50, HER2 positive and a tumor
    size of 0x1.6db6db6db6db7p-3, a little above 5/28.  The raw value of
    the table, (40 + 2 * tumorSize) * 1.4, is above 56.5 and its nearest
    integer is 57; the handler multiplies by the binary64 number nearest
    to 1.4, which is below 1.4, gets a product below 56.5, and sends 56. *)
Lemma rounded_table_counterexample :
  valid_input breast_above_half_example
  /\ (56.5 < spec_raw_probability breast_above_half_example)%Q
  /\ spec_probability breast_above_half_example = 57
  /\ (switch_probability breast_above_half_example <? 56.5)%float = true
  /\ DiagnosisResult.probability (computeRisk breast_above_half_example) = float_of_Z 56.
Proof.
  split; [split; reflexivity | ].
  split; [vm_compute; reflexivity | ].
  repeat split; vm_compute; reflexivity.
Qed.

(** C3: on a valid input the probability is the number of an integer
    between 0 and 98. *)
Theorem probability_is_integer_in_0_98 data
  (Hvalid : valid_input data) :
  exists n : Z,
    0 <= n <= 98
    /\ DiagnosisResult.probability (computeRisk data) = float_of_Z n.
Proof.
  destruct (probability_rounding data Hvalid) as [n [Hn [_ [_ H]]]].
  exists (Z.min n 98). split; [lia | assumption].
Qed.

(** C3 (witness): the breast example of the specification, capped at 98. *)
Lemma probability_is_integer_in_0_98_witness :
  exists n : Z,
    0 <= n <= 98
    /\ DiagnosisResult.probability (computeRisk breast_example) = float_of_Z n.
Proof.
  apply (probability_is_integer_in_0_98 breast_example).
  split; reflexivity.
Defined.

(** The probability in units of 2^-1074. *)
Lemma probability_units data :
  valid_input data ->
  exists n, 10 <= n <= 98
            /\ nonneg (DiagnosisResult.probability (computeRisk data)) = true
            /\ units (DiagnosisResult.probability (computeRisk data)) = n * 2 ^ 1074.
Proof.
  intros Hv. destruct (probability_rounding data Hv) as [n [Hn [_ [_ H]]]].
  exists (Z.min n 98). rewrite H.
  destruct (float_of_Z_units (Z.min n 98) ltac:(lia)) as [P E].
  split; [lia | split; assumption].
Qed.

(** C4: on a valid input the risk level is "High" exactly when the
    probability is at least 70, "Moderate" exactly when it is at least 40
    and below 70, and "Low" exactly when it is below 40; the comparisons
    are those of JavaScript numbers. *)
Theorem riskLevel_follows_probability data
  (Hvalid : valid_input data) :
  let r := computeRisk data in
  let p := DiagnosisResult.probability r in
  (DiagnosisResult.riskLevel r = "High" <-> (70 <=? p)%float = true)
  /\ (DiagnosisResult.riskLevel r = "Moderate"
      <-> (40 <=? p)%float = true /\ (p <? 70)%float = true)
  /\ (DiagnosisResult.riskLevel r = "Low" <-> (p <? 40)%float = true).
Proof.
  intros r p.
  destruct (probability_units data Hvalid) as [n [Hn [Pp Ep]]].
  fold r in Pp, Ep. fold p in Pp, Ep.
  assert (P70 : nonneg 70 = true) by float_const.
  assert (P40 : nonneg 40 = true) by float_const.
  assert (Hlevel : DiagnosisResult.riskLevel r
                   = if (70 <=? p)%float then "High"
                     else if (40 <=? p)%float then "Moderate" else "Low").
  { unfold p, r. rewrite probability_eq. unfold computeRisk.
    destruct (70 <=? Math_min (Math_round (switch_probability data)) 98)%float;
      [reflexivity | ].
    destruct (40 <=? Math_min (Math_round (switch_probability data)) 98)%float;
      reflexivity. }
  rewrite Hlevel.
  rewrite (leb_units 70 p P70 Pp), (leb_units 40 p P40 Pp),
    (ltb_units p 70 Pp P70), (ltb_units p 40 Pp P40).
  rewrite Ep. change (units 70) with (70 * 2 ^ 1074). change (units 40) with (40 * 2 ^ 1074).
  pose proof (pow2_pos 1074 ltac:(lia)) as HU. set (U := 2 ^ 1074) in *. clearbody U.
  assert (L : forall k, (k * U <=? n * U) = (k <=? n)).
  { intros k. destruct (Z.leb_spec k n); [apply Z.leb_le | apply Z.leb_gt]; nia. }
  assert (G : forall k, (n * U <? k * U) = (n <? k)).
  { intros k. destruct (Z.ltb_spec n k); [apply Z.ltb_lt | apply Z.ltb_ge]; nia. }
  rewrite !L, !G.
  destruct (Z.leb_spec 70 n); destruct (Z.leb_spec 40 n);
    destruct (Z.ltb_spec n 70); destruct (Z.ltb_spec n 40);
    try lia; intuition congruence.
Qed.

(** C4 (witness): the liver example of the specification. *)
Lemma riskLevel_follows_probability_witness :
  let r := computeRisk liver_example in
  let p := DiagnosisResult.probability r in
  (DiagnosisResult.riskLevel r = "High" <-> (70 <=? p)%float = true)
  /\ (DiagnosisResult.riskLevel r = "Moderate"
      <-> (40 <=? p)%float = true /\ (p <? 70)%float = true)
  /\ (DiagnosisResult.riskLevel r = "Low" <-> (p <? 40)%float = true).
Proof.
  apply (riskLevel_follows_probability liver_example).
  split; reflexivity.
Defined.

(** C10: on a valid input the probability is at least 10. *)
Theorem probability_at_least_10 data
  (Hvalid : valid_input data) :
  (10 <=? DiagnosisResult.probability (computeRisk data))%float = true.
Proof.
  destruct (probability_units data Hvalid) as [n [Hn [Pp Ep]]].
  rewrite (leb_units 10 _ eq_refl Pp), Ep. change (units 10) with (10 * 2 ^ 1074).
  apply Z.leb_le. apply Z.mul_le_mono_nonneg_r; lia.
Qed.

(** C10 (witness): the smallest band, lung with a low CEA. *)
Lemma probability_at_least_10_witness :
  (10 <=? DiagnosisResult.probability
            (computeRisk (DiagnosisInput.mk lung 0.001 3 Undefined Undefined)))%float
  = true.
Proof.
  apply (probability_at_least_10 (DiagnosisInput.mk lung 0.001 3 Undefined Undefined)).
  split; reflexivity.
Defined.

(** C9: for the liver type, with the biomarker and the other fields fixed,
    a tumor size [t2] that is at least [t1 > 0] gives a probability that
    is at least that of [t1]. *)
Theorem liver_probability_monotone_in_tumorSize
  (t1 t2 biomarker1 : float) (biomarker2 additionalFactor : JsField)
  (Hpos : (0 <? t1)%float = true)
  (Hle : (t1 <=? t2)%float = true) :
  (DiagnosisResult.probability
     (computeRisk (DiagnosisInput.mk liver t1 biomarker1 biomarker2 additionalFactor))
   <=? DiagnosisResult.probability
         (computeRisk (DiagnosisInput.mk liver t2 biomarker1 biomarker2 additionalFactor)))%float
  = true.
Proof.
  apply nonneg_of_ltb_0 in Hpos. destruct Hpos as [P1 H1].
  destruct (nonneg_of_leb t1 t2 P1 H1 Hle) as [P2 H12].
  rewrite !probability_eq. unfold switch_probability. cbv zeta.
  simpl DiagnosisInput.cancerType. simpl DiagnosisInput.tumorSize. simpl DiagnosisInput.biomarker1.
  assert (Hraw : forall c k cap,
             nonneg c = true -> nonneg k = true -> 2 ^ 1074 <= units k < 2 ^ 2098 -> nonneg cap = true ->
             nonneg (c + Math_min (t1 * k) cap) = true
             /\ nonneg (c + Math_min (t2 * k) cap) = true
             /\ units (c + Math_min (t1 * k) cap) <= units (c + Math_min (t2 * k) cap)).
  { intros c k cap Pc Pk Hk Pcap.
    destruct (mul_units t1 k P1 Pk Hk) as [Q1 _]. destruct (mul_units t2 k P2 Pk Hk) as [Q2 _].
    split; [apply base_plus_capped; assumption | ].
    split; [apply base_plus_capped; assumption | ].
    apply base_plus_capped_mono; try assumption. apply mul_mono; assumption. }
  assert (Hfinal : forall x1 x2,
             nonneg x1 = true /\ nonneg x2 = true /\ units x1 <= units x2 ->
             (Math_min (Math_round x1) 98 <=? Math_min (Math_round x2) 98)%float = true).
  { intros x1 x2 [Q1 [Q2 H]].
    destruct (Math_round_units x1 Q1) as [R1 _]. destruct (Math_round_units x2 Q2) as [R2 _].
    pose proof (Math_round_mono x1 x2 Q1 Q2 H) as Hr.
    destruct (Math_min_units (Math_round x1) 98 R1 eq_refl) as [M1 E1].
    destruct (Math_min_units (Math_round x2) 98 R2 eq_refl) as [M2 E2].
    rewrite (leb_units _ _ M1 M2), E1, E2. apply Z.leb_le. lia. }
  destruct (400 <? biomarker1)%float; [ | destruct (20 <? biomarker1)%float].
  - apply Hfinal. apply Hraw; float_const.
  - apply Hfinal. apply Hraw; float_const.
  - apply Hfinal.
    split; [apply base_plus_capped; assumption || float_const | ].
    split; [apply base_plus_capped; assumption || float_const | ].
    apply base_plus_capped_mono; assumption || float_const.
Qed.

(** C9 (witness): tumor sizes 2 and 5 with an AFP of 100. *)
Lemma liver_probability_monotone_in_tumorSize_witness :
  (DiagnosisResult.probability
     (computeRisk (DiagnosisInput.mk liver 2 100 Undefined Undefined))
   <=? DiagnosisResult.probability
         (computeRisk (DiagnosisInput.mk liver 5 100 Undefined Undefined)))%float
  = true.
Proof.
  apply (liver_probability_monotone_in_tumorSize 2 5 100 Undefined Undefined);
    reflexivity.
Defined.

(** * Further properties *)

(** ** chunkText *)

(** *** Integers as numbers *)

Lemma rnd0_small m : 0 <= m <= 2 ^ 53 -> rnd0 0 m = m.
Proof.
  intros Hm. destruct (Z.eq_dec m (2 ^ 53)) as [-> | Hne].
  - exact (rnd0_exact 0 (2 ^ 52) 1 ltac:(lia) ltac:(lia)).
  - pose proof (rnd0_exact 0 m 0 ltac:(lia) ltac:(lia)) as H.
    rewrite Z.pow_0_r, Z.mul_1_r in H. exact H.
Qed.

Lemma rnd0_0_nonneg N : 0 <= N -> 0 <= rnd0 0 N.
Proof.
  intros H. pose proof (rnd0_mono 0 0 N (Z.le_refl 0) (conj (Z.le_refl 0) H)) as Hm.
  rewrite (rnd0_small 0) in Hm by lia. exact Hm.
Qed.

Lemma number_of_small n : - 2 ^ 53 <= n <= 2 ^ 53 -> number_of n = n.
Proof.
  intros H. unfold number_of. destruct (n <? 0) eqn:En.
  - apply Z.ltb_lt in En. rewrite rnd0_small by lia. lia.
  - apply Z.ltb_ge in En. apply rnd0_small. lia.
Qed.

Lemma number_of_mono a b : a <= b -> number_of a <= number_of b.
Proof.
  intros H. unfold number_of.
  destruct (a <? 0) eqn:Ea; destruct (b <? 0) eqn:Eb;
    try apply Z.ltb_lt in Ea; try apply Z.ltb_ge in Ea;
    try apply Z.ltb_lt in Eb; try apply Z.ltb_ge in Eb.
  - assert (rnd0 0 (- b) <= rnd0 0 (- a)) by (apply rnd0_mono; lia). lia.
  - pose proof (rnd0_0_nonneg (- a)). pose proof (rnd0_0_nonneg b). lia.
  - lia.
  - apply rnd0_mono; lia.
Qed.

(** Rounding moves an integer by less than the unit of its last kept
    digit. *)
Lemma rnd0_above N : 0 <= N -> rnd0 0 N <= N + 2 ^ expo 0 N.
Proof.
  intros HN. unfold rnd0.
  pose proof (expo_nonneg 0 N (Z.le_refl 0)) as Hk.
  pose proof (pow2_pos _ Hk) as Hp.
  pose proof (rne_bounds N _ Hk) as [_ Hu].
  pose proof (Z.mul_div_le N _ Hp).
  set (k := expo 0 N) in *. clearbody k. nia.
Qed.

(** A number is a multiple of the unit of its last digit. *)
Lemma number_multiple n : 0 <= n -> number_of n = n -> exists q, n = q * 2 ^ expo 0 n.
Proof.
  intros Hn E. unfold number_of in E.
  destruct (n <? 0) eqn:En; [apply Z.ltb_lt in En; lia | ].
  unfold rnd0 in E. eexists. symmetry. exact E.
Qed.

(** Two numbers above 2^53 are apart by the unit of the smaller one. *)
Lemma numbers_apart a b :
  0 <= a < b -> number_of a = a -> number_of b = b -> 2 ^ expo 0 a <= b - a.
Proof.
  intros H Ea Eb.
  destruct (number_multiple a ltac:(lia) Ea) as [qa Ha].
  destruct (number_multiple b ltac:(lia) Eb) as [qb Hb].
  pose proof (expo_nonneg 0 a (Z.le_refl 0)) as Hka.
  pose proof (expo_mono 0 a b ltac:(lia)) as Hkab.
  rewrite (pow2_split (expo 0 a) (expo 0 b)) in Hb by lia.
  pose proof (pow2_pos _ Hka) as Hp.
  set (u := 2 ^ expo 0 a) in *. clearbody u.
  set (m := 2 ^ (expo 0 b - expo 0 a)) in *. clearbody m.
  assert (Hd : b - a = (qb * m - qa) * u) by lia.
  assert (0 < qb * m - qa) by nia.
  nia.
Qed.

(** *** The loop *)

Lemma slice_inside {A : Type} (text : list A) (a b : Z) :
  0 <= a <= Z.of_nat (List.length text) -> 0 <= b ->
  slice text a b
  = firstn (Z.to_nat (Z.min b (Z.of_nat (List.length text))) - Z.to_nat a)
           (skipn (Z.to_nat a) text).
Proof.
  intros Ha Hb. unfold slice.
  destruct (a <? 0) eqn:Ea; [apply Z.ltb_lt in Ea; lia | ].
  destruct (b <? 0) eqn:Eb; [apply Z.ltb_lt in Eb; lia | ].
  rewrite (Z.min_l a) by lia. f_equal. lia.
Qed.

Lemma chunkText_loop_app {A : Type} fuel (text : list A) cs ov start acc :
  chunkText_loop fuel text cs ov start acc
  = option_map (app acc) (chunkText_loop fuel text cs ov start []).
Proof.
  revert start acc. induction fuel as [|fuel IH]; intros start acc; simpl.
  - reflexivity.
  - destruct (start <? Z.of_nat (List.length text)); simpl;
      [ | rewrite app_nil_r; reflexivity].
    match goal with |- context [if ?c then _ else _] => destruct c end; simpl.
    + reflexivity.
    + rewrite (IH _ (acc ++ _)%list), (IH _ [_]).
      destruct (chunkText_loop fuel text cs ov _ []); simpl; [ | reflexivity].
      rewrite <- app_assoc. reflexivity.
Qed.

(** One turn of the loop from a start inside the text, for an overlap up
    to 2^53: every sum and difference that decides is exact. *)
Lemma chunkText_loop_step {A : Type} fuel (text : list A) cs ov start :
  0 <= ov <= 2 ^ 53 -> 0 <= cs ->
  Z.of_nat (List.length text) < 2 ^ 53 ->
  0 <= start < Z.of_nat (List.length text) ->
  chunkText_loop (S fuel) text cs ov start []
  = if Z.of_nat (List.length text) <=? start + cs
    then Some [slice text start (Z.of_nat (List.length text))]
    else option_map (cons (slice text start (start + cs)))
                    (chunkText_loop fuel text cs ov (start + (cs - ov)) []).
Proof.
  intros Hov Hcs Hlen Hs. cbn [chunkText_loop].
  set (L := Z.of_nat (List.length text)) in *.
  destruct (start <? L) eqn:E; [ | apply Z.ltb_ge in E; lia].
  assert (Hend : Z.min (number_of (start + cs)) L = Z.min (start + cs) L).
  { destruct (Z.le_gt_cases (start + cs) (2 ^ 53)) as [H|H].
    - rewrite number_of_small by lia. reflexivity.
    - pose proof (number_of_mono (2 ^ 53) (start + cs) ltac:(lia)) as Hm.
      rewrite (number_of_small (2 ^ 53)) in Hm by lia. lia. }
  rewrite Hend.
  assert (Hnext : number_of (Z.min (start + cs) L - ov) = Z.min (start + cs) L - ov)
    by (apply number_of_small; lia).
  rewrite Hnext.
  replace (Z.min (start + cs) L - ov + ov) with (Z.min (start + cs) L) by lia.
  rewrite (number_of_small (Z.min (start + cs) L)) by lia.
  simpl app.
  destruct (L <=? start + cs) eqn:E1.
  - apply Z.leb_le in E1. rewrite Z.min_r by lia.
    rewrite Z.leb_refl. reflexivity.
  - apply Z.leb_gt in E1. rewrite Z.min_l by lia.
    destruct (L <=? start + cs) eqn:E2; [apply Z.leb_le in E2; lia | ].
    rewrite chunkText_loop_app. simpl.
    replace (start + cs - ov) with (start + (cs - ov)) by lia. reflexivity.
Qed.

Lemma slice_window {A : Type} (text : list A) (start cs : Z) :
  0 <= start <= Z.of_nat (List.length text) -> 0 <= cs ->
  slice text start (start + cs)
  = firstn (Z.to_nat cs) (skipn (Z.to_nat start) text).
Proof.
  intros Hs Hc. rewrite slice_inside by lia.
  destruct (Z.le_gt_cases (start + cs) (Z.of_nat (List.length text))) as [H|H].
  - rewrite Z.min_l by lia. f_equal. lia.
  - rewrite Z.min_r by lia.
    rewrite !firstn_all2; try reflexivity; rewrite length_skipn; lia.
Qed.

Lemma slice_to_end {A : Type} (text : list A) (start : Z) :
  0 <= start <= Z.of_nat (List.length text) ->
  slice text start (Z.of_nat (List.length text)) = skipn (Z.to_nat start) text.
Proof.
  intros Hs. rewrite slice_inside by lia. rewrite Z.min_id.
  apply firstn_all2. rewrite length_skipn. lia.
Qed.

(** What the loop returns, when it returns, for an overlap up to 2^53. *)
Lemma chunkText_loop_chunks {A : Type} (text : list A) cs ov :
  0 <= ov < cs -> ov <= 2 ^ 53 -> Z.of_nat (List.length text) < 2 ^ 53 ->
  forall fuel start chunks,
    0 <= start < Z.of_nat (List.length text) ->
    chunkText_loop fuel text cs ov start [] = Some chunks ->
    (forall i c, nth_error chunks i = Some c ->
                 c = firstn (Z.to_nat cs)
                            (skipn (Z.to_nat start + i * Z.to_nat (cs - ov)) text)
                 /\ start + Z.of_nat i * (cs - ov) < Z.of_nat (List.length text)
                 /\ ((S i < List.length chunks)%nat ->
                     start + Z.of_nat i * (cs - ov) + cs < Z.of_nat (List.length text)))
    /\ List.concat (map (skipn (Z.to_nat ov)) chunks) = skipn (Z.to_nat (start + ov)) text
    /\ Z.of_nat (List.length chunks)
       = 1 + (Z.max 0 (Z.of_nat (List.length text) - start - cs) + (cs - ov) - 1) / (cs - ov).
Proof.
  intros Hov Hov53 Hlen. induction fuel as [|fuel IH]; intros start chunks Hs Hr;
    [discriminate Hr | ].
  rewrite chunkText_loop_step in Hr by lia.
  destruct (Z.of_nat (List.length text) <=? start + cs) eqn:E.
  - apply Z.leb_le in E. injection Hr as <-.
    rewrite slice_to_end by lia. split; [ | split].
    + intros [|i] c Hc; simpl in Hc; [ | destruct i; discriminate Hc].
      injection Hc as <-. rewrite Nat.add_0_r. split; [ | split].
      * symmetry. apply firstn_all2. rewrite length_skipn. lia.
      * lia.
      * simpl. lia.
    + simpl. rewrite app_nil_r, skipn_skipn. f_equal. lia.
    + simpl List.length. rewrite Z.max_l by lia.
      rewrite Z.div_small by lia. reflexivity.
  - apply Z.leb_gt in E.
    destruct (chunkText_loop fuel text cs ov (start + (cs - ov)) []) as [ws|] eqn:Ew;
      [ | discriminate Hr].
    injection Hr as <-.
    assert (Hs' : 0 <= start + (cs - ov) < Z.of_nat (List.length text)) by lia.
    destruct (IH _ _ Hs' Ew) as [Hn [Hc Hl]].
    rewrite slice_window by lia. split; [ | split].
    + intros [|i] c Hi; simpl in Hi.
      * injection Hi as <-. rewrite Nat.add_0_r. split; [reflexivity | split; [lia | ]].
        intros _. simpl. lia.
      * destruct (Hn i c Hi) as [-> [H1 H2]]. split; [ | split].
        -- f_equal. f_equal. rewrite Z2Nat.inj_add by lia. simpl. lia.
        -- lia.
        -- simpl List.length. intros H3.
           assert (H4 : (S i < List.length ws)%nat) by lia.
           specialize (H2 H4). lia.
    + simpl. rewrite Hc.
      rewrite skipn_firstn_comm, skipn_skipn.
      replace (Z.to_nat (start + (cs - ov) + ov))
        with ((Z.to_nat cs - Z.to_nat ov) + (Z.to_nat ov + Z.to_nat start))%nat by lia.
      rewrite <- (skipn_skipn (Z.to_nat cs - Z.to_nat ov)).
      rewrite firstn_skipn. f_equal. lia.
    + simpl List.length. rewrite Nat2Z.inj_succ, Hl.
      rewrite (Z.max_r 0 (Z.of_nat (List.length text) - start - cs)) by lia.
      destruct (Z.le_gt_cases (cs - ov) (Z.of_nat (List.length text) - start - cs)) as [H|H].
      * rewrite Z.max_r by lia.
        replace (Z.of_nat (List.length text) - start - cs + (cs - ov) - 1)
          with (Z.of_nat (List.length text) - (start + (cs - ov)) - cs + (cs - ov) - 1
                + 1 * (cs - ov)) by lia.
        rewrite Z.div_add by lia. lia.
      * rewrite Z.max_l by lia.
        rewrite (Z.div_small (0 + (cs - ov) - 1)) by lia.
        replace (Z.of_nat (List.length text) - start - cs + (cs - ov) - 1)
          with (Z.of_nat (List.length text) - start - cs - 1 + 1 * (cs - ov)) by lia.
        rewrite Z.div_add by lia. rewrite Z.div_small by lia. lia.
Qed.

(** The loop returns once the fuel exceeds what is left of the text. *)
Lemma chunkText_loop_returns {A : Type} (text : list A) cs ov :
  0 <= ov < cs -> ov <= 2 ^ 53 -> Z.of_nat (List.length text) < 2 ^ 53 ->
  forall fuel start,
    0 <= start < Z.of_nat (List.length text) ->
    Z.of_nat (List.length text) - start <= Z.of_nat fuel ->
    exists chunks, chunkText_loop fuel text cs ov start [] = Some chunks.
Proof.
  intros Hov Hov53 Hlen. induction fuel as [|fuel IH]; intros start Hs Hf; [lia | ].
  rewrite chunkText_loop_step by lia.
  destruct (Z.of_nat (List.length text) <=? start + cs) eqn:E; [eauto | ].
  apply Z.leb_gt in E.
  destruct (IH (start + (cs - ov))) as [ws Hw]; [lia | lia | ].
  rewrite Hw. simpl. eauto.
Qed.

(** A state the loop comes back to. *)
Lemma chunkText_loop_stuck {A : Type} (text : list A) cs ov start :
  start < Z.of_nat (List.length text) ->
  Z.of_nat (List.length text) <= number_of (start + cs) ->
  number_of (Z.of_nat (List.length text) - ov) = start ->
  number_of (start + ov) < Z.of_nat (List.length text) ->
  forall fuel chunks, chunkText_loop fuel text cs ov start chunks = None.
Proof.
  intros Hs Hend Hnext Htest.
  induction fuel as [|fuel IH]; intros chunks; cbn [chunkText_loop]; [reflexivity | ].
  set (L := Z.of_nat (List.length text)) in *.
  destruct (start <? L) eqn:E; [ | apply Z.ltb_ge in E; lia].
  rewrite (Z.min_r _ L) by lia. rewrite Hnext.
  destruct (L <=? number_of (start + ov)) eqn:E1; [apply Z.leb_le in E1; lia | ].
  apply IH.
Qed.

(** With an overlap above 2^53 the first chunk is the text, and the loop
    ends there or never. *)
Lemma chunkText_loop_large_overlap {A : Type} (text : list A) cs ov fuel :
  2 ^ 53 < ov < cs -> number_of cs = cs -> number_of ov = ov ->
  0 < Z.of_nat (List.length text) < 2 ^ 53 ->
  chunkText_loop fuel text cs ov 0 [] = None
  \/ chunkText_loop fuel text cs ov 0 [] = Some [text].
Proof.
  intros Hov Ecs Eov Hlen. destruct fuel as [|fuel]; [left; reflexivity | ].
  cbn [chunkText_loop].
  set (L := Z.of_nat (List.length text)) in *.
  destruct (0 <? L) eqn:E; [ | apply Z.ltb_ge in E; lia].
  rewrite Z.add_0_l, Ecs. rewrite (Z.min_r cs L) by lia.
  assert (Hslice : slice text 0 L = text) by (unfold L; rewrite slice_to_end by lia; reflexivity).
  rewrite Hslice. simpl app.
  destruct (L <=? number_of (number_of (L - ov) + ov)) eqn:E1; [right; reflexivity | left].
  apply Z.leb_gt in E1.
  apply chunkText_loop_stuck; fold L; try assumption; try reflexivity.
  - pose proof (number_of_mono (L - ov) 0 ltac:(lia)) as H0.
    rewrite (number_of_small 0) in H0 by lia. lia.
  - assert (Hs1 : number_of (L - ov) = - rnd0 0 (ov - L)).
    { unfold number_of. destruct (L - ov <? 0) eqn:E2; [ | apply Z.ltb_ge in E2; lia].
      f_equal. f_equal. lia. }
    pose proof (rnd0_above (ov - L) ltac:(lia)) as Hup.
    pose proof (expo_mono 0 (ov - L) ov ltac:(lia)) as Hk.
    pose proof (expo_nonneg 0 (ov - L) (Z.le_refl 0)) as Hk0.
    pose proof (pow2_le (expo 0 (ov - L)) (expo 0 ov) ltac:(lia)) as Hp.
    pose proof (numbers_apart ov cs ltac:(lia) Eov Ecs) as Hap.
    pose proof (number_of_mono L (number_of (L - ov) + cs) ltac:(lia)) as Hm.
    rewrite (number_of_small L) in Hm by lia. exact Hm.
Qed.

(** The guard of [chunkText]. *)
Lemma chunkText_Some {A : Type} (text : list A) cs ov fuel chunks :
  chunkText fuel text cs ov = Some chunks ->
  number_of cs = cs /\ number_of ov = ov /\ Z.of_nat (List.length text) < 2 ^ 53
  /\ chunkText_loop fuel text cs ov 0 [] = Some chunks.
Proof.
  unfold chunkText. intros H.
  destruct (is_number cs && is_number ov && (Z.of_nat (List.length text) <? 2 ^ 53)) eqn:G;
    [ | discriminate H].
  apply andb_true_iff in G. destruct G as [G G3].
  apply andb_true_iff in G. destruct G as [G1 G2].
  unfold is_number in G1, G2.
  apply andb_true_iff in G1, G2. destruct G1 as [G1 _]. destruct G2 as [G2 _].
  apply Z.eqb_eq in G1, G2. apply Z.ltb_lt in G3. tauto.
Qed.

Lemma chunkText_small {A : Type} (text : list A) cs ov fuel :
  - 2 ^ 53 <= cs <= 2 ^ 53 -> - 2 ^ 53 <= ov <= 2 ^ 53 ->
  Z.of_nat (List.length text) < 2 ^ 53 ->
  chunkText fuel text cs ov = chunkText_loop fuel text cs ov 0 [].
Proof.
  intros Hcs Hov Hlen. unfold chunkText, is_number.
  rewrite !number_of_small, !Z.eqb_refl by assumption.
  replace (Z.abs cs <? 2 ^ 1024) with true by (symmetry; apply Z.ltb_lt; lia).
  replace (Z.abs ov <? 2 ^ 1024) with true by (symmetry; apply Z.ltb_lt; lia).
  replace (Z.of_nat (List.length text) <? 2 ^ 53) with true
    by (symmetry; apply Z.ltb_lt; lia).
  reflexivity.
Qed.

(** What [chunkText] returns for a text that is not empty, when it
    returns. *)
Lemma chunkText_returned {A : Type} (text : list A) cs ov fuel chunks :
  0 <= ov < cs -> 0 < Z.of_nat (List.length text) ->
  chunkText fuel text cs ov = Some chunks ->
  (forall i c, nth_error chunks i = Some c ->
               c = firstn (Z.to_nat cs) (skipn (i * Z.to_nat (cs - ov)) text)
               /\ Z.of_nat i * (cs - ov) < Z.of_nat (List.length text)
               /\ ((S i < List.length chunks)%nat ->
                   Z.of_nat i * (cs - ov) + cs < Z.of_nat (List.length text)))
  /\ List.concat (map (skipn (Z.to_nat ov)) chunks) = skipn (Z.to_nat ov) text
  /\ Z.of_nat (List.length chunks)
     = 1 + (Z.max 0 (Z.of_nat (List.length text) - cs) + (cs - ov) - 1) / (cs - ov).
Proof.
  intros Hov Hpos Hr.
  apply chunkText_Some in Hr. destruct Hr as [Ecs [Eov [Hlen Hr]]].
  destruct (Z.le_gt_cases ov (2 ^ 53)) as [Hsafe | Hlarge].
  - assert (H0 : 0 <= 0 < Z.of_nat (List.length text)) by lia.
    destruct (chunkText_loop_chunks text cs ov Hov Hsafe Hlen fuel 0 chunks H0 Hr)
      as [Hn [Hc Hl]].
    split; [ | split].
    + intros i c Hi. destruct (Hn i c Hi) as [H1 [H2 H3]].
      split; [exact H1 | split; [lia | intros H; specialize (H3 H); lia]].
    + exact Hc.
    + rewrite Hl. rewrite Z.sub_0_r. reflexivity.
  - destruct (chunkText_loop_large_overlap text cs ov fuel ltac:(lia) Ecs Eov ltac:(lia))
      as [E | E]; rewrite E in Hr; [discriminate Hr | ].
    injection Hr as <-. split; [ | split].
    + intros [|i] c Hi; simpl in Hi; [ | destruct i; discriminate Hi].
      injection Hi as <-. split; [ | split].
      * simpl. symmetry. apply firstn_all2. lia.
      * lia.
      * simpl. lia.
    + simpl. apply app_nil_r.
    + simpl List.length. rewrite Z.max_l by lia. rewrite Z.div_small by lia. reflexivity.
Qed.

Lemma chunkText_empty {A : Type} fuel cs ov chunks :
  chunkText fuel (@nil A) cs ov = Some chunks -> chunks = [].
Proof.
  intros H. apply chunkText_Some in H. destruct H as [_ [_ [_ H]]].
  destruct fuel as [|fuel]; [discriminate H | ]. injection H as <-. reflexivity.
Qed.

(** X1: with an overlap that is not negative and below the chunk size,
    a chunk size of at most 2^53 and a text of fewer than 2^53 units,
    [chunkText] returns (the fuel need only exceed the length of the
    text), and the text is the first chunk followed by every later chunk
    without its first [overlap] units: nothing is lost and nothing is
    added. *)
Theorem chunkText_covers_text {A : Type} (text : list A) (chunkSize overlap : Z) (fuel : nat)
  (Hoverlap : 0 <= overlap < chunkSize)
  (Hsize : chunkSize <= 2 ^ 53)
  (Hlength : Z.of_nat (List.length text) < 2 ^ 53)
  (Hfuel : (List.length text < fuel)%nat) :
  exists chunks,
    chunkText fuel text chunkSize overlap = Some chunks
    /\ text = (hd [] chunks ++ List.concat (map (skipn (Z.to_nat overlap)) (tl chunks)))%list.
Proof.
  rewrite chunkText_small by lia.
  destruct text as [|a text].
  - destruct fuel as [|fuel]; [inversion Hfuel | ].
    exists []. split; reflexivity.
  - set (t := a :: text) in *.
    assert (Hlen : 0 < Z.of_nat (List.length t)) by (simpl; lia).
    assert (Hfuel' : (List.length t < fuel)%nat) by exact Hfuel.
    clearbody t. clear Hfuel.
    destruct (chunkText_loop_returns t chunkSize overlap Hoverlap ltac:(lia) Hlength fuel 0)
      as [chunks Hc]; [lia | lia | ].
    exists chunks. split; [exact Hc | ].
    assert (H0t : 0 <= 0 < Z.of_nat (List.length t)) by lia.
    destruct (chunkText_loop_chunks t chunkSize overlap Hoverlap ltac:(lia) Hlength
                fuel 0 chunks H0t Hc)
      as [Hn [Hcat Hl]].
    destruct chunks as [|c0 ws].
    { exfalso. cbn [List.length Z.of_nat] in Hl.
      match type of Hl with
      | _ = 1 + ?q => assert (0 <= q) by (apply Z.div_pos; lia)
      end.
      lia. }
    destruct (Hn 0%nat c0 eq_refl) as [H0 _]. simpl in H0.
    simpl hd. simpl tl. simpl in Hcat.
    rewrite <- (firstn_skipn (Z.to_nat overlap) c0) at 1.
    rewrite <- app_assoc, Hcat.
    rewrite <- (firstn_skipn (Z.to_nat overlap) t) at 1.
    f_equal.
    rewrite H0. rewrite firstn_firstn. f_equal. lia.
Qed.

(** X1 (witness): five units in chunks of three that overlap by one. *)
Lemma chunkText_covers_text_witness :
  exists chunks,
    chunkText 6 [1; 2; 3; 4; 5] 3 1 = Some chunks
    /\ [1; 2; 3; 4; 5]
       = (hd [] chunks ++ List.concat (map (skipn (Z.to_nat 1)) (tl chunks)))%list.
Proof.
  apply (chunkText_covers_text [1; 2; 3; 4; 5] 3 1 6); [lia | lia | simpl; lia | simpl; lia].
Defined.

(** The chunks of a returned list are the windows, all inside the text. *)
Lemma chunkText_chunks {A : Type} (text : list A) cs ov fuel chunks :
  0 <= ov < cs ->
  chunkText fuel text cs ov = Some chunks ->
  forall i c, nth_error chunks i = Some c ->
    c = window text cs ov i
    /\ Z.of_nat i * (cs - ov) < Z.of_nat (List.length text)
    /\ ((S i < List.length chunks)%nat ->
        Z.of_nat i * (cs - ov) + cs < Z.of_nat (List.length text)).
Proof.
  intros Hov Hr i c Hi.
  destruct text as [|a text].
  - apply chunkText_empty in Hr. subst chunks. destruct i; discriminate Hi.
  - assert (H0 : 0 < Z.of_nat (List.length (a :: text))) by (simpl; lia).
    destruct (chunkText_returned (a :: text) cs ov fuel chunks Hov H0 Hr) as [Hn _].
    exact (Hn i c Hi).
Qed.

Lemma length_window {A : Type} (text : list A) cs ov i :
  0 <= ov < cs ->
  Z.of_nat (List.length (window text cs ov i))
  = Z.max 0 (Z.min cs (Z.of_nat (List.length text) - Z.of_nat i * (cs - ov))).
Proof.
  intros Hov. unfold window. rewrite length_firstn, length_skipn.
  rewrite Nat2Z.inj_min, Nat2Z.inj_sub_max, Nat2Z.inj_mul, !Z2Nat.id by lia.
  lia.
Qed.

(** X2: with such an overlap, the chunk at index [i] of the list
    [chunkText] returns is the window of [chunkSize] units that starts
    [i * (chunkSize - overlap)] units into the text; no chunk is empty,
    none is longer than [chunkSize], and every chunk but the last has
    exactly [chunkSize] units. *)
Theorem chunkText_chunks_are_windows {A : Type} (text : list A) (chunkSize overlap : Z)
  (fuel : nat) (chunks : list (list A)) (i : nat) (c : list A)
  (Hoverlap : 0 <= overlap < chunkSize)
  (Hreturn : chunkText fuel text chunkSize overlap = Some chunks)
  (Hchunk : nth_error chunks i = Some c) :
  c = window text chunkSize overlap i
  /\ 1 <= Z.of_nat (List.length c) <= chunkSize
  /\ ((S i < List.length chunks)%nat -> Z.of_nat (List.length c) = chunkSize).
Proof.
  destruct (chunkText_chunks text chunkSize overlap fuel chunks Hoverlap Hreturn i c Hchunk)
    as [-> [H1 H2]].
  split; [reflexivity | ].
  rewrite length_window by assumption.
  split; [lia | intros H; specialize (H2 H); lia].
Qed.

(** X2 (witness): the first of the two chunks of the five units. *)
Lemma chunkText_chunks_are_windows_witness :
  [1; 2; 3] = window [1; 2; 3; 4; 5] 3 1 0
  /\ 1 <= Z.of_nat (List.length [1; 2; 3]) <= 3
  /\ ((1 < List.length [[1; 2; 3]; [3; 4; 5]])%nat -> Z.of_nat (List.length [1; 2; 3]) = 3).
Proof.
  apply (chunkText_chunks_are_windows [1; 2; 3; 4; 5] 3 1 6 [[1; 2; 3]; [3; 4; 5]]
           0%nat [1; 2; 3]); [lia | reflexivity | reflexivity].
Defined.

(** X3: with such an overlap, two chunks that follow each other share
    exactly [overlap] units: the first [overlap] units of the later chunk
    are the units of the earlier one after its first
    [chunkSize - overlap]. *)
Theorem chunkText_chunks_overlap {A : Type} (text : list A) (chunkSize overlap : Z)
  (fuel : nat) (chunks : list (list A)) (i : nat) (c c' : list A)
  (Hoverlap : 0 <= overlap < chunkSize)
  (Hreturn : chunkText fuel text chunkSize overlap = Some chunks)
  (Hchunk : nth_error chunks i = Some c)
  (Hnext : nth_error chunks (S i) = Some c') :
  firstn (Z.to_nat overlap) c' = skipn (Z.to_nat (chunkSize - overlap)) c
  /\ Z.of_nat (List.length (firstn (Z.to_nat overlap) c')) = overlap.
Proof.
  pose proof (chunkText_chunks text chunkSize overlap fuel chunks Hoverlap Hreturn) as H.
  destruct (H i c Hchunk) as [-> [H1 H2]].
  destruct (H (S i) c' Hnext) as [-> [H3 _]].
  assert (Hlen : (S i < List.length chunks)%nat)
    by (apply nth_error_Some; congruence).
  specialize (H2 Hlen).
  unfold window. split.
  - rewrite firstn_firstn, skipn_firstn_comm, skipn_skipn.
    replace (Nat.min (Z.to_nat overlap) (Z.to_nat chunkSize))
      with (Z.to_nat chunkSize - Z.to_nat (chunkSize - overlap))%nat by lia.
    replace (Z.to_nat (chunkSize - overlap) + i * Z.to_nat (chunkSize - overlap))%nat
      with (S i * Z.to_nat (chunkSize - overlap))%nat by lia.
    reflexivity.
  - rewrite firstn_firstn, length_firstn, length_skipn. nia.
Qed.

(** X3 (witness): the two chunks of the five units share the unit 3. *)
Lemma chunkText_chunks_overlap_witness :
  firstn (Z.to_nat 1) [3; 4; 5] = skipn (Z.to_nat (3 - 1)) [1; 2; 3]
  /\ Z.of_nat (List.length (firstn (Z.to_nat 1) [3; 4; 5])) = 1.
Proof.
  apply (chunkText_chunks_overlap [1; 2; 3; 4; 5] 3 1 6 [[1; 2; 3]; [3; 4; 5]]
           0%nat [1; 2; 3] [3; 4; 5]); [lia | reflexivity | reflexivity | reflexivity].
Defined.

(** X4: with such an overlap, an empty text gives no chunk, and a text
    of [n > 0] units gives one chunk plus one for every further
    [chunkSize - overlap] units, begun or complete, beyond the first
    [chunkSize]. *)
Theorem chunkText_number_of_chunks {A : Type} (text : list A) (chunkSize overlap : Z)
  (fuel : nat) (chunks : list (list A))
  (Hoverlap : 0 <= overlap < chunkSize)
  (Hreturn : chunkText fuel text chunkSize overlap = Some chunks) :
  Z.of_nat (List.length chunks)
  = if Z.of_nat (List.length text) =? 0 then 0
    else 1 + (Z.max 0 (Z.of_nat (List.length text) - chunkSize) + (chunkSize - overlap) - 1)
             / (chunkSize - overlap).
Proof.
  destruct text as [|a text].
  - apply chunkText_empty in Hreturn. subst chunks. reflexivity.
  - assert (H0 : 0 < Z.of_nat (List.length (a :: text))) by (simpl; lia).
    destruct (chunkText_returned (a :: text) chunkSize overlap fuel chunks Hoverlap
                H0 Hreturn) as [_ [_ Hl]].
    destruct (Z.of_nat (List.length (a :: text)) =? 0) eqn:E;
      [apply Z.eqb_eq in E; lia | ].
    exact Hl.
Qed.

(** X4 (witness): five units, chunks of three, overlap one: two chunks. *)
Lemma chunkText_number_of_chunks_witness :
  Z.of_nat (List.length [[1; 2; 3]; [3; 4; 5]])
  = if Z.of_nat (List.length [1; 2; 3; 4; 5]) =? 0 then 0
    else 1 + (Z.max 0 (Z.of_nat (List.length [1; 2; 3; 4; 5]) - 3) + (3 - 1) - 1) / (3 - 1).
Proof.
  apply (chunkText_number_of_chunks [1; 2; 3; 4; 5] 3 1 6 [[1; 2; 3]; [3; 4; 5]]);
    [lia | reflexivity].
Defined.

(** While the start is not positive, the loop goes on. *)
Lemma chunkText_loop_runs_on {A : Type} (text : list A) cs ov :
  - 2 ^ 53 <= cs <= ov -> ov <= 2 ^ 53 ->
  0 < Z.of_nat (List.length text) -> cs < Z.of_nat (List.length text) ->
  forall fuel start chunks,
    start <= 0 -> chunkText_loop fuel text cs ov start chunks = None.
Proof.
  intros Hcs Hov Hlen Hlong.
  set (L := Z.of_nat (List.length text)) in *.
  induction fuel as [|fuel IH]; intros start chunks H0; cbn [chunkText_loop];
    [reflexivity | ].
  fold L.
  destruct (start <? L) eqn:E; [ | apply Z.ltb_ge in E; lia].
  assert (Hend : number_of (start + cs) <= cs).
  { pose proof (number_of_mono (start + cs) cs ltac:(lia)) as H.
    rewrite (number_of_small cs) in H by lia. exact H. }
  rewrite (Z.min_l _ L) by lia.
  set (e := number_of (start + cs)) in *.
  assert (Hw : number_of (e - ov) <= number_of (cs - ov)) by (apply number_of_mono; lia).
  assert (Hnext : number_of (e - ov) <= 0).
  { pose proof (number_of_mono (cs - ov) 0 ltac:(lia)) as H.
    rewrite (number_of_small 0) in H by lia. lia. }
  assert (Htest : number_of (number_of (e - ov) + ov) < L).
  { destruct (Z.le_gt_cases (- 2 ^ 53) (cs - ov)) as [Hexact | Hfar].
    - rewrite (number_of_small (cs - ov)) in Hw by lia.
      pose proof (number_of_mono (number_of (e - ov) + ov) cs ltac:(lia)) as H.
      rewrite (number_of_small cs) in H by lia. lia.
    - pose proof (number_of_mono (cs - ov) (- ov) ltac:(lia)) as H1.
      rewrite (number_of_small (- ov)) in H1 by lia.
      pose proof (number_of_mono (number_of (e - ov) + ov) 0 ltac:(lia)) as H.
      rewrite (number_of_small 0) in H by lia. lia. }
  destruct (L <=? number_of (number_of (e - ov) + ov)) eqn:E2;
    [apply Z.leb_le in E2; lia | ].
  apply IH. exact Hnext.
Qed.

(** X5: when the overlap is not below the chunk size, both within 2^53
    of zero, and the text is not empty and longer than one chunk, the loop
    of [chunkText] never reaches its exit: whatever the fuel, it is used
    up.  The start of the next chunk does not move forward, so the test
    that ends the loop stays false, and the call returns no list; it goes
    on until the list of chunks can grow no more. *)
Theorem chunkText_never_returns {A : Type} (text : list A) (chunkSize overlap : Z) (fuel : nat)
  (Hoverlap : - 2 ^ 53 <= chunkSize <= overlap)
  (Hbound : overlap <= 2 ^ 53)
  (Hnonempty : text <> [])
  (Hlong : chunkSize < Z.of_nat (List.length text))
  (Hlength : Z.of_nat (List.length text) < 2 ^ 53) :
  chunkText fuel text chunkSize overlap = None.
Proof.
  rewrite chunkText_small by lia.
  apply chunkText_loop_runs_on; try lia.
  destruct text; [contradiction | simpl; lia].
Qed.

(** X5 (witness): chunks of two units that overlap by two. *)
Lemma chunkText_never_returns_witness :
  chunkText 1000 [1; 2; 3; 4; 5] 2 2 = None.
Proof.
  apply (chunkText_never_returns [1; 2; 3; 4; 5] 2 2 1000);
    [lia | lia | discriminate | simpl; lia | simpl; lia].
Defined.

(** ** cleanMedicalText *)

Lemma isWhiteSpace_32 : isWhiteSpace 32 = true.
Proof. reflexivity. Qed.

Lemma isKept_32 : isKept 32 = true.
Proof. reflexivity. Qed.

Lemma In_replace_whitespace_runs b text c :
  In c (replace_whitespace_runs b text) ->
  c = 32 \/ (isWhiteSpace c = false /\ In c text).
Proof.
  revert b. induction text as [|x text IH]; intros b H; simpl in H; [contradiction | ].
  destruct (isWhiteSpace x) eqn:E.
  - destruct b; [ | destruct H as [<-|H]; [left; reflexivity | ]];
      destruct (IH _ H) as [->|[H1 H2]]; simpl; tauto.
  - destruct H as [<-|H]; [right; simpl; tauto | ].
    destruct (IH _ H) as [->|[H1 H2]]; simpl; tauto.
Qed.

Lemma In_replace_others text c :
  In c (replace_others text) -> c = 32 \/ (isKept c = true /\ In c text).
Proof.
  unfold replace_others. rewrite in_map_iff. intros [x [Hx Hin]].
  destruct (isKept x) eqn:E; subst; tauto.
Qed.

Lemma trimStart_split text :
  exists w, text = (w ++ trimStart text)%list
            /\ Forall (fun c => isWhiteSpace c = true) w.
Proof.
  induction text as [|c text [w [Hw Hf]]]; simpl.
  - exists []. split; [reflexivity | constructor].
  - destruct (isWhiteSpace c) eqn:E.
    + exists (c :: w). split; [simpl; congruence | constructor; assumption].
    + exists []. split; [reflexivity | constructor].
Qed.

Lemma trimEnd_split text :
  exists w, text = (trimEnd text ++ w)%list
            /\ Forall (fun c => isWhiteSpace c = true) w.
Proof.
  destruct (trimStart_split (rev text)) as [w [Hw Hf]].
  exists (rev w). split.
  - unfold trimEnd. rewrite <- rev_app_distr, <- Hw. symmetry. apply rev_involutive.
  - apply Forall_rev. assumption.
Qed.

Lemma In_trim text c : In c (trim text) -> In c text.
Proof.
  unfold trim. intros H.
  destruct (trimStart_split text) as [w [Hw _]].
  destruct (trimEnd_split (trimStart text)) as [w' [Hw' _]].
  rewrite Hw, Hw'. apply in_or_app. right. apply in_or_app. left. assumption.
Qed.

Lemma hd_trimStart text c :
  hd_error (trimStart text) = Some c -> isWhiteSpace c = false.
Proof.
  induction text as [|x text IH]; simpl; [discriminate | ].
  destruct (isWhiteSpace x) eqn:E; [assumption | ].
  simpl. intros H. injection H as <-. assumption.
Qed.

Lemma trimStart_id text :
  (forall c, hd_error text = Some c -> isWhiteSpace c = false) -> trimStart text = text.
Proof.
  destruct text as [|x text]; simpl; [reflexivity | ].
  intros H. rewrite (H x eq_refl). reflexivity.
Qed.

Lemma trimStart_snoc text c :
  isWhiteSpace c = false -> trimStart (text ++ [c]) = (trimStart text ++ [c])%list.
Proof.
  intros Hc. induction text as [|x text IH]; simpl.
  - rewrite Hc. reflexivity.
  - destruct (isWhiteSpace x); [assumption | reflexivity].
Qed.

Lemma trimEnd_cons c text :
  isWhiteSpace c = false -> trimEnd (c :: text) = c :: trimEnd text.
Proof.
  intros Hc. unfold trimEnd. simpl. rewrite trimStart_snoc by assumption.
  rewrite rev_app_distr. reflexivity.
Qed.

Lemma hd_trim text c : hd_error (trim text) = Some c -> isWhiteSpace c = false.
Proof.
  unfold trim.
  destruct (trimStart text) as [|x rest] eqn:E.
  - discriminate.
  - assert (Hx : isWhiteSpace x = false) by (apply (hd_trimStart text); rewrite E; reflexivity).
    rewrite trimEnd_cons by assumption. simpl. intros H. injection H as <-. assumption.
Qed.

Lemma last_trim text c : hd_error (rev (trim text)) = Some c -> isWhiteSpace c = false.
Proof.
  unfold trim, trimEnd. rewrite rev_involutive. apply hd_trimStart.
Qed.

Lemma trim_id text :
  (forall c, hd_error text = Some c -> isWhiteSpace c = false) ->
  (forall c, hd_error (rev text) = Some c -> isWhiteSpace c = false) ->
  trim text = text.
Proof.
  intros H1 H2. unfold trim, trimEnd.
  rewrite (trimStart_id text H1), (trimStart_id (rev text) H2).
  apply rev_involutive.
Qed.

Lemma length_replace_whitespace_runs b text :
  (List.length (replace_whitespace_runs b text) <= List.length text)%nat.
Proof.
  revert b. induction text as [|c text IH]; intros b; simpl; [lia | ].
  pose proof (IH true). pose proof (IH false).
  destruct (isWhiteSpace c); [destruct b | ]; simpl; lia.
Qed.

Lemma length_trimStart text : (List.length (trimStart text) <= List.length text)%nat.
Proof.
  induction text as [|c text IH]; simpl; [lia | ].
  destruct (isWhiteSpace c); simpl; lia.
Qed.

Lemma length_trim text : (List.length (trim text) <= List.length text)%nat.
Proof.
  unfold trim, trimEnd. rewrite length_rev.
  pose proof (length_trimStart (rev (trimStart text))) as H.
  rewrite length_rev in H. pose proof (length_trimStart text). lia.
Qed.

Lemma length_cleanMedicalText text :
  (List.length (cleanMedicalText text) <= List.length text)%nat.
Proof.
  unfold cleanMedicalText.
  pose proof (length_trim (replace_others (replace_whitespace_runs false text))) as H.
  unfold replace_others in H at 2. rewrite length_map in H.
  pose proof (length_replace_whitespace_runs false text). lia.
Qed.

(** X6: every code unit of the text [cleanMedicalText] returns is a
    space, a letter, a digit, an underscore or one of the punctuation
    marks of the class, and never a line feed or another white space; the
    text neither starts nor ends with white space; and it is never longer
    than the input. *)
Theorem cleanMedicalText_output (text : list CodeUnit) :
  (forall c, In c (cleanMedicalText text) ->
             c = 32 \/ isWord c = true \/ (In c punctuation /\ c <> 10))
  /\ (forall c, hd_error (cleanMedicalText text) = Some c -> isWhiteSpace c = false)
  /\ (forall c, hd_error (rev (cleanMedicalText text)) = Some c -> isWhiteSpace c = false)
  /\ (List.length (cleanMedicalText text) <= List.length text)%nat.
Proof.
  split; [ | split; [ | split]].
  - unfold cleanMedicalText. intros c H. apply In_trim in H.
    apply In_replace_others in H. destruct H as [->|[Hk H]]; [left; reflexivity | ].
    apply In_replace_whitespace_runs in H.
    destruct H as [->|[Hw H]]; [left; reflexivity | ].
    right. unfold isKept in Hk. rewrite Hw, orb_false_r in Hk.
    apply orb_true_iff in Hk. destruct Hk as [Hk|Hk]; [left; assumption | right].
    apply existsb_exists in Hk. destruct Hk as [x [Hx Ex]].
    apply Z.eqb_eq in Ex. subst x. split; [assumption | ].
    intros ->. discriminate Hw.
  - unfold cleanMedicalText. apply hd_trim.
  - unfold cleanMedicalText. apply last_trim.
  - apply length_cleanMedicalText.
Qed.

Lemma replace_whitespace_runs_id b text :
  single_spaced b text = true -> replace_whitespace_runs b text = text.
Proof.
  revert b. induction text as [|c text IH]; intros b H; simpl in *; [reflexivity | ].
  destruct (isWhiteSpace c).
  - apply andb_true_iff in H. destruct H as [H H3].
    apply andb_true_iff in H. destruct H as [H1 H2].
    apply Z.eqb_eq in H1. subst c. destruct b; [discriminate H2 | ].
    rewrite IH by assumption. reflexivity.
  - rewrite IH by assumption. reflexivity.
Qed.

Lemma single_spaced_replace_whitespace_runs b text :
  single_spaced b (replace_whitespace_runs b text) = true.
Proof.
  revert b. induction text as [|c text IH]; intros b; simpl; [reflexivity | ].
  destruct (isWhiteSpace c) eqn:E.
  - destruct b; [apply IH | ]. simpl. apply IH.
  - simpl. rewrite E. apply IH.
Qed.

Lemma replace_others_id text :
  Forall (fun c => isKept c = true) text -> replace_others text = text.
Proof.
  induction 1 as [|c text Hc _ IH]; simpl; [reflexivity | ].
  rewrite Hc. f_equal. exact IH.
Qed.

Lemma Forall_isKept_replace_whitespace_runs b text :
  Forall (fun c => isKept c = true) text ->
  Forall (fun c => isKept c = true) (replace_whitespace_runs b text).
Proof.
  intros H. apply Forall_forall. intros c Hc.
  apply In_replace_whitespace_runs in Hc. destruct Hc as [->|[_ Hc]]; [reflexivity | ].
  rewrite Forall_forall in H. apply H. assumption.
Qed.

Lemma single_spaced_trimStart b b' text :
  single_spaced b text = true -> single_spaced b' (trimStart text) = true.
Proof.
  revert b. induction text as [|c text IH]; intros b H; simpl in *; [reflexivity | ].
  destruct (isWhiteSpace c) eqn:E.
  - apply andb_true_iff in H. destruct H as [_ H]. apply (IH true). assumption.
  - simpl. rewrite E. assumption.
Qed.

Lemma single_spaced_app b text rest :
  single_spaced b (text ++ rest) = true -> single_spaced b text = true.
Proof.
  revert b. induction text as [|c text IH]; intros b H; simpl in *; [reflexivity | ].
  destruct (isWhiteSpace c).
  - apply andb_true_iff in H. destruct H as [H1 H2]. rewrite H1. simpl. apply IH. assumption.
  - apply IH. assumption.
Qed.

Lemma single_spaced_trim b text :
  single_spaced b text = true -> single_spaced false (trim text) = true.
Proof.
  intros H. unfold trim.
  apply (single_spaced_trimStart b false) in H.
  destruct (trimEnd_split (trimStart text)) as [w [Hw _]].
  rewrite Hw in H. apply single_spaced_app in H. assumption.
Qed.

(** A text in the form [cleanMedicalText] aims at is left as it is. *)
Lemma cleanMedicalText_id text :
  single_spaced false text = true ->
  Forall (fun c => isKept c = true) text ->
  (forall c, hd_error text = Some c -> isWhiteSpace c = false) ->
  (forall c, hd_error (rev text) = Some c -> isWhiteSpace c = false) ->
  cleanMedicalText text = text.
Proof.
  intros Hs Hk Hh Hl. unfold cleanMedicalText.
  rewrite replace_whitespace_runs_id, replace_others_id by assumption.
  apply trim_id; assumption.
Qed.

(** On a text of kept code units one pass reaches that form. *)
Lemma cleanMedicalText_of_kept text :
  Forall (fun c => isKept c = true) text ->
  cleanMedicalText (cleanMedicalText text) = cleanMedicalText text.
Proof.
  intros Hk. apply cleanMedicalText_id.
  - unfold cleanMedicalText.
    rewrite replace_others_id by (apply Forall_isKept_replace_whitespace_runs; assumption).
    apply (single_spaced_trim false), single_spaced_replace_whitespace_runs.
  - apply Forall_forall. intros c Hc. unfold cleanMedicalText in Hc.
    apply In_trim, In_replace_others in Hc. destruct Hc as [->|[Hc _]]; [reflexivity | assumption].
  - unfold cleanMedicalText. apply hd_trim.
  - unfold cleanMedicalText. apply last_trim.
Qed.

Lemma Forall_isKept_cleanMedicalText text :
  Forall (fun c => isKept c = true) (cleanMedicalText text).
Proof.
  apply Forall_forall. intros c Hc. unfold cleanMedicalText in Hc.
  apply In_trim, In_replace_others in Hc. destruct Hc as [->|[Hc _]]; [reflexivity | assumption].
Qed.

(** X7: on a text that holds no code unit outside the class of the
    second [replace], the result has single spaces only, and cleaning it
    again changes nothing. *)
Theorem cleanMedicalText_idempotent_on_kept (text : list CodeUnit)
  (Hkept : Forall (fun c => isKept c = true) text) :
  single_spaced false (cleanMedicalText text) = true
  /\ cleanMedicalText (cleanMedicalText text) = cleanMedicalText text.
Proof.
  split; [ | apply cleanMedicalText_of_kept; assumption].
  unfold cleanMedicalText.
  rewrite replace_others_id by (apply Forall_isKept_replace_whitespace_runs; assumption).
  apply (single_spaced_trim false), single_spaced_replace_whitespace_runs.
Qed.

(** X7 (witness): the text "a<tab><space>b<space>". *)
Lemma cleanMedicalText_idempotent_on_kept_witness :
  single_spaced false (cleanMedicalText [97; 9; 32; 98; 32]) = true
  /\ cleanMedicalText (cleanMedicalText [97; 9; 32; 98; 32])
     = cleanMedicalText [97; 9; 32; 98; 32].
Proof.
  apply (cleanMedicalText_idempotent_on_kept [97; 9; 32; 98; 32]).
  repeat constructor.
Defined.

(** X8: on any text a third pass of [cleanMedicalText] changes nothing
    after the second.  The second pass can change the result of the
    first: a code unit outside the class becomes a space after the runs of
    white space were collapsed, so the backslash of "a\ b" leaves two
    spaces, which only the next pass joins. *)
Theorem cleanMedicalText_settles_in_two_passes (text : list CodeUnit) :
  cleanMedicalText (cleanMedicalText (cleanMedicalText text))
  = cleanMedicalText (cleanMedicalText text)
  /\ (let text := [97; 92; 32; 98] in
      cleanMedicalText text = [97; 32; 32; 98]
      /\ cleanMedicalText (cleanMedicalText text) = [97; 32; 98]).
Proof.
  split; [ | split; reflexivity].
  apply cleanMedicalText_of_kept, Forall_isKept_cleanMedicalText.
Qed.

(** ** The handlers of the request table, once more *)

Lemma Permutation_insert_desc r l : Permutation (insert_desc r l) (r :: l).
Proof.
  induction l as [|x l IH]; simpl.
  - apply Permutation_refl.
  - destruct (DoctorRequest.createdAt x <? DoctorRequest.createdAt r).
    + apply Permutation_refl.
    + eapply Permutation_trans; [apply perm_skip, IH | apply perm_swap].
Qed.

Lemma Permutation_orderBy l : Permutation (orderBy_desc_createdAt l) l.
Proof.
  induction l as [|x l IH]; simpl.
  - constructor.
  - eapply Permutation_trans; [apply Permutation_insert_desc | apply perm_skip, IH].
Qed.

Lemma Sorted_insert_desc r l :
  StronglySorted newer_or_same l -> StronglySorted newer_or_same (insert_desc r l).
Proof.
  induction 1 as [|x l Hs IH Hx]; simpl.
  - repeat constructor.
  - destruct (DoctorRequest.createdAt x <? DoctorRequest.createdAt r) eqn:E.
    + apply Z.ltb_lt in E. constructor; [constructor; assumption | ].
      constructor; [unfold newer_or_same; lia | ].
      rewrite Forall_forall in *. intros y Hy. specialize (Hx y Hy).
      unfold newer_or_same in *. lia.
    + apply Z.ltb_ge in E. constructor; [assumption | ].
      apply Forall_forall. intros y Hy. apply In_insert_desc in Hy.
      destruct Hy as [->|Hy]; [exact E | ].
      rewrite Forall_forall in Hx. apply Hx. assumption.
Qed.

Lemma Sorted_orderBy l : StronglySorted newer_or_same (orderBy_desc_createdAt l).
Proof.
  induction l as [|x l IH]; simpl; [constructor | apply Sorted_insert_desc, IH].
Qed.

(** X9: [getDoctorRequestsByPatient] and [getDoctorRequestsByDoctor]
    return the rows of the given patient, or doctor, each as often as the
    table holds it and no other row, the newest first. *)
Theorem request_lists_are_sorted_selections (db : Db) (who : Z) :
  (Permutation (getDoctorRequestsByPatient db who)
               (filter (fun r => DoctorRequest.patientId r =? who) (doctorRequests db))
   /\ StronglySorted newer_or_same (getDoctorRequestsByPatient db who))
  /\ (Permutation (getDoctorRequestsByDoctor db who)
                  (filter (fun r => DoctorRequest.doctorId r =? who) (doctorRequests db))
      /\ StronglySorted newer_or_same (getDoctorRequestsByDoctor db who)).
Proof.
  unfold getDoctorRequestsByPatient, getDoctorRequestsByDoctor.
  repeat split; try apply Permutation_orderBy; apply Sorted_orderBy.
Qed.

Lemma StronglySorted_map {A B : Type} (f : A -> B) (R : B -> B -> Prop) (l : list A) :
  StronglySorted (fun a b => R (f a) (f b)) l -> StronglySorted R (map f l).
Proof.
  induction 1 as [|x l Hs IH Hx]; simpl; constructor; [assumption | ].
  apply Forall_map. assumption.
Qed.

Lemma In_getDoctorRequestsByPatient db p r :
  In r (getDoctorRequestsByPatient db p) <->
  In r (doctorRequests db) /\ DoctorRequest.patientId r = p.
Proof.
  unfold getDoctorRequestsByPatient.
  rewrite In_orderBy, filter_In, Z.eqb_eq. reflexivity.
Qed.

Lemma role_is_eq s r : role_is s r = true <-> role s = Some r.
Proof.
  unfold role_is. destruct (role s) as [x|]; [ | split; discriminate].
  rewrite String.eqb_eq. split; congruence.
Qed.

Lemma role_is_other s r r' : role_is s r = true -> r <> r' -> role_is s r' = false.
Proof.
  intros H Hne. apply role_is_eq in H. unfold role_is. rewrite H.
  apply String.eqb_neq. assumption.
Qed.

(** X10: when [GET /api/patient/requests] replies with a list, the
    session is that of a patient, and the list has one entry for each
    stored request of that patient and for no other request, newest
    first, each entry made of the request's own columns. *)
Theorem patient_sees_exactly_own_requests (db : Db) (s : Session)
  (entries : list PatientRequestEntry)
  (Hok : get_patient_requests db s = Json200 entries) :
  exists patient,
    signed_in_as s "patient"
    /\ getPatientByUserId db (session_userId s) = Some patient
    /\ Permutation (map pr_id entries)
                   (map DoctorRequest.id
                        (filter (fun r => DoctorRequest.patientId r =? Patient.id patient)
                                (doctorRequests db)))
    /\ StronglySorted (fun a b => pr_createdAt b <= pr_createdAt a) entries
    /\ forall e, In e entries ->
         exists r, In r (doctorRequests db)
                   /\ DoctorRequest.patientId r = Patient.id patient
                   /\ e = patient_request_entry db r.
Proof.
  unfold get_patient_requests, requireRole in Hok.
  destruct (not_authenticated s) eqn:Ea; [discriminate Hok | ].
  destruct (role_is s "patient") eqn:Er; simpl in Hok; [ | discriminate Hok].
  destruct (getUserById db (session_userId s)) as [user|] eqn:Eu; [ | discriminate Hok].
  destruct (String.eqb (User.role user) "patient"); simpl in Hok; [ | discriminate Hok].
  destruct (getPatientByUserId db (User.id user)) as [patient|] eqn:Ep; [ | discriminate Hok].
  injection Hok as <-.
  assert (Hid : User.id user = session_userId s).
  { unfold getUserById in Eu. apply find_id_Some in Eu. apply Eu. }
  rewrite Hid in Ep.
  exists patient. split; [split; assumption | split; [assumption | ]].
  split; [ | split].
  - rewrite map_map. simpl.
    change (fun x => DoctorRequest.id x) with DoctorRequest.id.
    apply Permutation_map. apply Permutation_orderBy.
  - apply StronglySorted_map. simpl. apply Sorted_orderBy.
  - intros e He. apply in_map_iff in He. destruct He as [r [<- Hr]].
    apply In_getDoctorRequestsByPatient in Hr. exists r. tauto.
Qed.

(** X10 (witness): patient 3 lists the request to doctor 7. *)
Lemma patient_sees_exactly_own_requests_witness :
  let entries :=
    [mkPatientRequestEntry 1 "Doc" "Unknown" "pending" (Some "hello") None None 1000] in
  exists patient,
    signed_in_as patient_session "patient"
    /\ getPatientByUserId (sample_db "pending") (session_userId patient_session)
       = Some patient
    /\ Permutation (map pr_id entries)
                   (map DoctorRequest.id
                        (filter (fun r => DoctorRequest.patientId r =? Patient.id patient)
                                (doctorRequests (sample_db "pending"))))
    /\ StronglySorted (fun a b => pr_createdAt b <= pr_createdAt a) entries
    /\ forall e, In e entries ->
         exists r, In r (doctorRequests (sample_db "pending"))
                   /\ DoctorRequest.patientId r = Patient.id patient
                   /\ e = patient_request_entry (sample_db "pending") r.
Proof.
  exact (patient_sees_exactly_own_requests (sample_db "pending") patient_session
           [mkPatientRequestEntry 1 "Doc" "Unknown" "pending" (Some "hello") None None 1000]
           eq_refl).
Defined.

(** X11: when [GET /api/doctor/requests] replies with a list, the
    session is that of a doctor, and the list has one entry for each
    stored request addressed to that doctor and for no other request,
    newest first. *)
Theorem doctor_sees_exactly_own_requests (db : Db) (s : Session)
  (entries : list DoctorRequestEntry)
  (Hok : get_doctor_requests db s = Json200 entries) :
  exists doctor,
    signed_in_as s "doctor"
    /\ getDoctorByUserId db (session_userId s) = Some doctor
    /\ Permutation (map dr_id entries)
                   (map DoctorRequest.id
                        (filter (fun r => DoctorRequest.doctorId r =? Doctor.id doctor)
                                (doctorRequests db)))
    /\ StronglySorted (fun a b => dr_createdAt b <= dr_createdAt a) entries
    /\ forall e, In e entries ->
         exists r, In r (doctorRequests db)
                   /\ DoctorRequest.doctorId r = Doctor.id doctor
                   /\ e = doctor_request_entry db r.
Proof.
  unfold get_doctor_requests, requireRole in Hok.
  destruct (not_authenticated s) eqn:Ea; [discriminate Hok | ].
  destruct (role_is s "doctor") eqn:Er; simpl in Hok; [ | discriminate Hok].
  destruct (getUserById db (session_userId s)) as [user|] eqn:Eu; [ | discriminate Hok].
  destruct (String.eqb (User.role user) "doctor"); simpl in Hok; [ | discriminate Hok].
  destruct (getDoctorByUserId db (User.id user)) as [doctor|] eqn:Ed; [ | discriminate Hok].
  injection Hok as <-.
  assert (Hid : User.id user = session_userId s).
  { unfold getUserById in Eu. apply find_id_Some in Eu. apply Eu. }
  rewrite Hid in Ed.
  exists doctor. split; [split; assumption | split; [assumption | ]].
  split; [ | split].
  - rewrite map_map. simpl.
    change (fun x => DoctorRequest.id x) with DoctorRequest.id.
    apply Permutation_map. apply Permutation_orderBy.
  - apply StronglySorted_map. simpl. apply Sorted_orderBy.
  - intros e He. apply in_map_iff in He. destruct He as [r [<- Hr]].
    apply In_getDoctorRequestsByDoctor in Hr. exists r. tauto.
Qed.

(** X11 (witness): doctor 7 lists the request of patient 3. *)
Lemma doctor_sees_exactly_own_requests_witness :
  let entries :=
    [mkDoctorRequestEntry 1 "Pat" "Unknown" "pending" (Some "hello") None 1000] in
  exists doctor,
    signed_in_as doctor_session "doctor"
    /\ getDoctorByUserId (sample_db "pending") (session_userId doctor_session) = Some doctor
    /\ Permutation (map dr_id entries)
                   (map DoctorRequest.id
                        (filter (fun r => DoctorRequest.doctorId r =? Doctor.id doctor)
                                (doctorRequests (sample_db "pending"))))
    /\ StronglySorted (fun a b => dr_createdAt b <= dr_createdAt a) entries
    /\ forall e, In e entries ->
         exists r, In r (doctorRequests (sample_db "pending"))
                   /\ DoctorRequest.doctorId r = Doctor.id doctor
                   /\ e = doctor_request_entry (sample_db "pending") r.
Proof.
  exact (doctor_sees_exactly_own_requests (sample_db "pending") doctor_session
           [mkDoctorRequestEntry 1 "Pat" "Unknown" "pending" (Some "hello") None 1000]
           eq_refl).
Defined.

(** X12: when [GET /api/patients/:id] sends a profile, the session is
    signed in and the profile is that of the stored patient with the id;
    a session with the patient role reads its own profile only, and a
    session with the doctor role only that of a patient with a stored
    request to this doctor whose status is "approved". *)
Theorem get_patient_grants (db : Db) (s : Session) (id : Z) (profile : PatientProfile)
  (Hok : get_patient db s id = Json200 profile) :
  not_authenticated s = false
  /\ getPatientById db id = Some (profile_patient profile)
  /\ (role_is s "patient" = true ->
      Patient.userId (profile_patient profile) = session_userId s)
  /\ (role_is s "doctor" = true ->
      exists doctor r,
        getDoctorByUserId db (session_userId s) = Some doctor
        /\ In r (doctorRequests db)
        /\ DoctorRequest.doctorId r = Doctor.id doctor
        /\ DoctorRequest.patientId r = id
        /\ DoctorRequest.status r = "approved").
Proof.
  unfold get_patient, requireAuth in Hok.
  destruct (not_authenticated s) eqn:Ea; [discriminate Hok | ].
  destruct (int4 id); simpl in Hok; [ | discriminate Hok].
  destruct (getPatientById db id) as [patient|] eqn:Ep; [ | discriminate Hok].
  destruct (role_is s "patient" && negb (Patient.userId patient =? session_userId s)) eqn:Eown;
    [discriminate Hok | ].
  assert (Hp : profile_patient profile = patient).
  { destruct (role_is s "doctor");
      [destruct (getDoctorByUserId db (session_userId s)) as [doctor|]; [ | discriminate Hok];
       destruct (canDoctorAccessPatientCase db (Doctor.id doctor) id); [ | discriminate Hok] | ];
      injection Hok as <-; reflexivity. }
  rewrite Hp. split; [reflexivity | split; [reflexivity | split]].
  - intros Hr. rewrite Hr in Eown. simpl in Eown.
    apply negb_false_iff, Z.eqb_eq in Eown. assumption.
  - intros Hr. rewrite Hr in Hok.
    destruct (getDoctorByUserId db (session_userId s)) as [doctor|]; [ | discriminate Hok].
    destruct (canDoctorAccessPatientCase db (Doctor.id doctor) id) eqn:Ec; [ | discriminate Hok].
    apply canDoctorAccessPatientCase_iff in Ec. destruct Ec as [r Hr'].
    exists doctor, r. tauto.
Qed.

(** X12 (witness): doctor 7 reads patient 3, the request being "approved". *)
Lemma get_patient_grants_witness :
  let profile :=
    mkPatientProfile (Patient.mk 3 10 (Some 50) None) (Some "Pat") (Some "p@x.org") None in
  not_authenticated doctor_session = false
  /\ getPatientById (sample_db "approved") 3 = Some (profile_patient profile)
  /\ (role_is doctor_session "patient" = true ->
      Patient.userId (profile_patient profile) = session_userId doctor_session)
  /\ (role_is doctor_session "doctor" = true ->
      exists doctor r,
        getDoctorByUserId (sample_db "approved") (session_userId doctor_session) = Some doctor
        /\ In r (doctorRequests (sample_db "approved"))
        /\ DoctorRequest.doctorId r = Doctor.id doctor
        /\ DoctorRequest.patientId r = 3
        /\ DoctorRequest.status r = "approved").
Proof.
  exact (get_patient_grants (sample_db "approved") doctor_session 3
           (mkPatientProfile (Patient.mk 3 10 (Some 50) None) (Some "Pat") (Some "p@x.org") None)
           eq_refl).
Defined.

(** X13: while every stored request has one of the four statuses of the
    schema (pending, accepted, declined, reschedule),
    [GET /api/patients/:id] sends no profile to any session with the
    doctor role: it replies 401 without a user, 500 for an id outside the
    range of the column, 404 for an id in the range that names no
    patient, and 403 otherwise. *)
Theorem get_patient_refuses_every_doctor (db : Db) (s : Session) (id : Z)
  (Hdoctor : role_is s "doctor" = true)
  (Hstatus : forall r, In r (doctorRequests db) -> status_enum (DoctorRequest.status r)) :
  get_patient db s id
  = if not_authenticated s then Failure 401 "Not authenticated"
    else if negb (int4 id) then Failure 500 "Server error"
    else match getPatientById db id, getDoctorByUserId db (session_userId s) with
         | None, _ => Failure 404 "Patient not found"
         | Some _, None => Failure 403 "Access denied"
         | Some _, Some _ => Failure 403 "No approved relationship with this patient"
         end.
Proof.
  unfold get_patient, requireAuth.
  destruct (not_authenticated s); [reflexivity | ].
  destruct (int4 id); simpl; [ | reflexivity].
  destruct (getPatientById db id) as [patient|]; [ | reflexivity].
  rewrite (role_is_other s "doctor" "patient" Hdoctor) by discriminate.
  simpl. rewrite Hdoctor.
  destruct (getDoctorByUserId db (session_userId s)) as [doctor|]; [ | reflexivity].
  destruct (canDoctorAccessPatientCase db (Doctor.id doctor) id) eqn:Ec; [ | reflexivity].
  apply canDoctorAccessPatientCase_iff in Ec. destruct Ec as [r [Hin [_ [_ Hs]]]].
  specialize (Hstatus r Hin). rewrite Hs in Hstatus.
  destruct Hstatus as [H|[H|[H|H]]]; discriminate H.
Qed.

(** X13 (witness): doctor 7 and patient 3, whose request is accepted. *)
Lemma get_patient_refuses_every_doctor_witness :
  get_patient (sample_db "accepted") doctor_session 3
  = Failure 403 "No approved relationship with this patient".
Proof.
  apply (get_patient_refuses_every_doctor (sample_db "accepted") doctor_session 3).
  - reflexivity.
  - intros r [<-|[]]. right. left. reflexivity.
Defined.

Lemma NoDup_unique seen ids : NoDup (unique seen ids).
Proof.
  revert seen. induction ids as [|i ids IH]; intros seen; simpl; [constructor | ].
  destruct (existsb (Z.eqb i) seen); [apply IH | ].
  constructor; [ | apply IH].
  intros H. apply In_unique in H. simpl in H. tauto.
Qed.

Lemma In_patientsList db ids p :
  In p (map summary_id (patientsList db ids)) <->
  In p ids /\ p <> 0 /\ exists patient, getPatientById db p = Some patient.
Proof.
  unfold patientsList. rewrite in_map_iff. split.
  - intros [e [He Hin]]. apply in_flat_map in Hin. destruct Hin as [i [Hi Hin]].
    destruct (getPatientById db i) as [patient|] eqn:Ep; [ | contradiction].
    assert (Hid : Patient.id patient = i).
    { unfold getPatientById in Ep. apply find_id_Some in Ep. apply Ep. }
    destruct (Patient.id patient =? 0) eqn:E0; [contradiction | ].
    destruct Hin as [<-|[]]. simpl in He. subst p. apply Z.eqb_neq in E0.
    rewrite Hid in *. repeat split; try assumption. exists patient. assumption.
  - intros [Hin [Hnz [patient Hp]]].
    assert (Hid : Patient.id patient = p).
    { unfold getPatientById in Hp. apply find_id_Some in Hp. apply Hp. }
    exists (mkPatientSummary (Patient.id patient)
              (option_map User.name (getUserById db (Patient.userId patient)))
              (Patient.age patient) (Patient.gender patient)).
    split; [exact Hid | ].
    apply in_flat_map. exists p. split; [exact Hin | ].
    rewrite Hp, Hid. apply Z.eqb_neq in Hnz. rewrite Hnz. left. reflexivity.
Qed.

Lemma NoDup_patientsList db ids :
  NoDup ids -> NoDup (map summary_id (patientsList db ids)).
Proof.
  induction 1 as [|i ids Hi Hnd IH]; simpl; [constructor | ].
  rewrite map_app. apply NoDup_app.
  - destruct (getPatientById db i) as [patient|]; [ | constructor].
    destruct (Patient.id patient =? 0); repeat constructor. simpl. tauto.
  - exact IH.
  - intros a Ha Hb.
    apply In_patientsList in Hb. destruct Hb as [Hb _].
    assert (Ha' : In a (map summary_id (patientsList db [i]))).
    { simpl. rewrite app_nil_r. exact Ha. }
    apply In_patientsList in Ha'. destruct Ha' as [[<-|[]] _]. contradiction.
Qed.

(** X14: when [GET /api/doctor/patients] replies with a list, no
    patient is in it twice, and a patient id is in it exactly when it is
    not zero, names a stored patient, and a stored request of that
    patient to this doctor has the status "accepted". *)
Theorem doctor_patients_are_the_accepted_ones (db : Db) (s : Session)
  (patients : list PatientSummary)
  (Hok : get_doctor_patients db s = Json200 patients) :
  exists doctor,
    getDoctorByUserId db (session_userId s) = Some doctor
    /\ NoDup (map summary_id patients)
    /\ forall p,
         In p (map summary_id patients) <->
         (p <> 0
          /\ (exists patient, getPatientById db p = Some patient)
          /\ exists r, In r (doctorRequests db)
                       /\ DoctorRequest.doctorId r = Doctor.id doctor
                       /\ DoctorRequest.patientId r = p
                       /\ DoctorRequest.status r = "accepted").
Proof.
  unfold get_doctor_patients, requireRole in Hok.
  destruct (not_authenticated s); [discriminate Hok | ].
  destruct (role_is s "doctor"); simpl in Hok; [ | discriminate Hok].
  destruct (getUserById db (session_userId s)) as [user|] eqn:Eu; [ | discriminate Hok].
  destruct (String.eqb (User.role user) "doctor"); simpl in Hok; [ | discriminate Hok].
  destruct (getDoctorByUserId db (User.id user)) as [doctor|] eqn:Ed; [ | discriminate Hok].
  injection Hok as <-.
  assert (Hid : User.id user = session_userId s).
  { unfold getUserById in Eu. apply find_id_Some in Eu. apply Eu. }
  rewrite Hid in Ed. exists doctor. split; [assumption | split].
  - apply NoDup_patientsList. unfold acceptedPatientIds. apply NoDup_unique.
  - intros p. rewrite In_patientsList, acceptedPatientIds_iff. tauto.
Qed.

(** X14 (witness): doctor 7 after accepting the request of patient 3. *)
Lemma doctor_patients_are_the_accepted_ones_witness :
  let patients := [mkPatientSummary 3 (Some "Pat") (Some 50) None] in
  exists doctor,
    getDoctorByUserId (sample_db "accepted") (session_userId doctor_session) = Some doctor
    /\ NoDup (map summary_id patients)
    /\ forall p,
         In p (map summary_id patients) <->
         (p <> 0
          /\ (exists patient, getPatientById (sample_db "accepted") p = Some patient)
          /\ exists r, In r (doctorRequests (sample_db "accepted"))
                       /\ DoctorRequest.doctorId r = Doctor.id doctor
                       /\ DoctorRequest.patientId r = p
                       /\ DoctorRequest.status r = "accepted").
Proof.
  exact (doctor_patients_are_the_accepted_ones (sample_db "accepted") doctor_session
           [mkPatientSummary 3 (Some "Pat") (Some 50) None] eq_refl).
Defined.

(** X15: when [GET /api/auth/me] replies with a user, it is the user of
    the session, with the role of the stored row; at most one of
    [patientId] and [doctorId] is set; a [patientId] is the id of the
    patient row of this user, and a [doctorId] is the doctor id the
    handlers of the doctor requests act with. *)
Theorem auth_me_reports_the_acting_ids (db : Db) (s : Session) (me : Me)
  (Hok : auth_me db s = Json200 me) :
  me_id me = session_userId s
  /\ (exists user, getUserById db (session_userId s) = Some user
                   /\ me_role me = User.role user)
  /\ (me_patientId me = None \/ me_doctorId me = None)
  /\ (forall p, me_patientId me = Some p ->
                me_role me = "patient"
                /\ exists patient, getPatientByUserId db (session_userId s) = Some patient
                                   /\ Patient.id patient = p)
  /\ (forall d, me_doctorId me = Some d ->
                me_role me = "doctor" /\ actor_doctorId db s = Some d).
Proof.
  unfold auth_me in Hok.
  destruct (not_authenticated s); [discriminate Hok | ].
  destruct (getUserById db (session_userId s)) as [user|] eqn:Eu; [ | discriminate Hok].
  injection Hok as <-. simpl.
  assert (Hid : User.id user = session_userId s).
  { unfold getUserById in Eu. apply find_id_Some in Eu. apply Eu. }
  rewrite Hid. split; [reflexivity | split; [exists user; split; reflexivity | ]].
  destruct (String.eqb (User.role user) "patient") eqn:Ep.
  - apply String.eqb_eq in Ep. split; [right; reflexivity | split].
    + intros p Hp. split; [assumption | ].
      destruct (getPatientByUserId db (session_userId s)) as [patient|]; [ | discriminate Hp].
      injection Hp as <-. exists patient. split; reflexivity.
    + intros d Hd. discriminate Hd.
  - split; [left; reflexivity | split; [intros p Hp; discriminate Hp | ]].
    intros d Hd.
    destruct (String.eqb (User.role user) "doctor") eqn:Edoc; [ | discriminate Hd].
    apply String.eqb_eq in Edoc. split; [assumption | exact Hd].
Qed.

(** X15 (witness): the doctor with user id 20. *)
Lemma auth_me_reports_the_acting_ids_witness :
  let me := mkMe 20 "Doc" "d@x.org" "doctor" None (Some 7) in
  me_id me = session_userId doctor_session
  /\ (exists user, getUserById (sample_db "pending") (session_userId doctor_session) = Some user
                   /\ me_role me = User.role user)
  /\ (me_patientId me = None \/ me_doctorId me = None)
  /\ (forall p, me_patientId me = Some p ->
                me_role me = "patient"
                /\ exists patient,
                     getPatientByUserId (sample_db "pending") (session_userId doctor_session)
                     = Some patient
                     /\ Patient.id patient = p)
  /\ (forall d, me_doctorId me = Some d ->
                me_role me = "doctor"
                /\ actor_doctorId (sample_db "pending") doctor_session = Some d).
Proof.
  exact (auth_me_reports_the_acting_ids (sample_db "pending") doctor_session
           (mkMe 20 "Doc" "d@x.org" "doctor" None (Some 7)) eq_refl).
Defined.



Lemma find_app_None {A : Type} (f : A -> bool) (l l' : list A) :
  find f l = None -> find f (l ++ l') = find f l'.
Proof.
  induction l as [|x l IH]; simpl; [reflexivity | ].
  destruct (f x); [discriminate | assumption].
Qed.

Lemma find_app_Some {A : Type} (f : A -> bool) (l l' : list A) x :
  find f l = Some x -> find f (l ++ l') = Some x.
Proof.
  induction l as [|y l IH]; simpl; [discriminate | ].
  destruct (f y); [trivial | assumption].
Qed.

Lemma find_none_iff {A : Type} (f : A -> bool) (l : list A) :
  (forall x, In x l -> f x = false) -> find f l = None.
Proof.
  induction l as [|y l IH]; simpl; intros H; [reflexivity | ].
  rewrite (H y) by tauto. apply IH. intros x Hx. apply H. tauto.
Qed.

(** X17: on a table whose ids are unique and behind the sequence, the
    request a [POST /api/doctor-requests] replies with has an id no stored
    request had; afterwards [getDoctorRequestById] returns it for that id
    and what it returned before for every other id, the request is in the
    list of its patient, and [GET /api/doctor/requests] shows it to the
    doctor it is addressed to. *)
Theorem created_request_can_be_read (db : Db) (now : Z) (s : Session) (body : CreateBody)
  (request : DoctorRequest.t) (db' : Db)
  (Hwf : well_formed db)
  (Hok : create_doctor_request db now s body = (Json200 request, db')) :
  getDoctorRequestById db (DoctorRequest.id request) = None
  /\ getDoctorRequestById db' (DoctorRequest.id request) = Some request
  /\ (forall id, id <> DoctorRequest.id request ->
                 getDoctorRequestById db' id = getDoctorRequestById db id)
  /\ In request (getDoctorRequestsByPatient db' (DoctorRequest.patientId request))
  /\ (forall sd entries,
        actor_doctorId db' sd = Some (DoctorRequest.doctorId request) ->
        get_doctor_requests db' sd = Json200 entries ->
        In (doctor_request_entry db' request) entries).
Proof.
  destruct Hwf as [Hpk Hseq].
  destruct (create_doctor_request_cases db now s body)
    as [[c [m [db0 [E Hdb]]]] | [user [patient [d [h [_ [_ [_ [_ [_ E]]]]]]]]]];
    rewrite E in Hok; [discriminate Hok | ].
  simpl in Hok. injection Hok as <- <-.
  assert (Hnone : getDoctorRequestById db (doctorRequests_id_seq db) = None).
  { unfold getDoctorRequestById. apply find_none_iff. intros x Hx.
    apply Z.eqb_neq. specialize (Hseq x Hx). lia. }
  simpl. split; [exact Hnone | split; [ | split; [ | split]]].
  - unfold getDoctorRequestById in *. simpl.
    rewrite find_app_None by assumption. simpl. rewrite Z.eqb_refl. reflexivity.
  - intros id Hne. unfold getDoctorRequestById. simpl.
    destruct (find (fun r => DoctorRequest.id r =? id) (doctorRequests db)) as [x|] eqn:Ef.
    + apply find_app_Some. assumption.
    + rewrite find_app_None by assumption. simpl.
      destruct (doctorRequests_id_seq db =? id) eqn:E1; [ | reflexivity].
      apply Z.eqb_eq in E1. congruence.
  - apply In_getDoctorRequestsByPatient. simpl. split; [ | reflexivity].
    apply in_or_app. right. left. reflexivity.
  - intros sd entries Hd Hl.
    unfold get_doctor_requests, requireRole in Hl.
    destruct (not_authenticated sd); [discriminate Hl | ].
    destruct (role_is sd "doctor"); simpl in Hl; [ | discriminate Hl].
    match type of Hl with
    | match ?u with _ => _ end = _ => destruct u as [usr|] eqn:Eu; [ | discriminate Hl]
    end.
    destruct (String.eqb (User.role usr) "doctor"); simpl in Hl; [ | discriminate Hl].
    assert (Hid : User.id usr = session_userId sd).
    { unfold getUserById in Eu. apply find_id_Some in Eu. apply Eu. }
    rewrite Hid in Hl. unfold actor_doctorId in Hd.
    match type of Hl with
    | match ?u with _ => _ end = _ => destruct u as [doc|] eqn:Ed; [ | discriminate Hd]
    end.
    simpl in Hd. injection Hd as Hd. injection Hl as <-.
    apply in_map. apply In_getDoctorRequestsByDoctor. simpl. split; [ | congruence].
    apply in_or_app. right. left. reflexivity.
Qed.

(** X17 (witness): patient 3 asks doctor 8. *)
Lemma created_request_can_be_read_witness :
  let db := sample_db "pending" in
  let body := mkCreateBody (Some 8) None (Str "please") None Undefined None in
  let request := DoctorRequest.mk 2 3 8 None "pending" (Some "please") None None None 2000 2000 in
  let db' := snd (create_doctor_request db 2000 patient_session body) in
  getDoctorRequestById db (DoctorRequest.id request) = None
  /\ getDoctorRequestById db' (DoctorRequest.id request) = Some request
  /\ (forall id, id <> DoctorRequest.id request ->
                 getDoctorRequestById db' id = getDoctorRequestById db id)
  /\ In request (getDoctorRequestsByPatient db' (DoctorRequest.patientId request))
  /\ (forall sd entries,
        actor_doctorId db' sd = Some (DoctorRequest.doctorId request) ->
        get_doctor_requests db' sd = Json200 entries ->
        In (doctor_request_entry db' request) entries).
Proof.
  apply (created_request_can_be_read (sample_db "pending") 2000 patient_session
           (mkCreateBody (Some 8) None (Str "please") None Undefined None)).
  - split.
    + unfold primary_key. simpl. repeat constructor. simpl. tauto.
    + intros r [<-|[]]. simpl. lia.
  - reflexivity.
Defined.

Lemma hd_error_map_filter {A B : Type} (f : A -> B) (p : A -> bool) (l : list A) :
  hd_error (map f (filter p l)) = option_map f (find p l).
Proof.
  induction l as [|x l IH]; simpl; [reflexivity | ].
  destruct (p x); [reflexivity | assumption].
Qed.

Lemma find_patch_rows now id body rows :
  find (fun r => DoctorRequest.id r =? id) (patch_rows now id body rows)
  = option_map (patched now body) (find (fun r => DoctorRequest.id r =? id) rows).
Proof.
  unfold patch_rows. induction rows as [|x rows IH]; simpl; [reflexivity | ].
  destruct (DoctorRequest.id x =? id) eqn:E.
  - rewrite patched_id, E. reflexivity.
  - rewrite E. assumption.
Qed.

Lemma find_patch_rows_other now id body rows id' :
  id' <> id ->
  find (fun r => DoctorRequest.id r =? id') (patch_rows now id body rows)
  = find (fun r => DoctorRequest.id r =? id') rows.
Proof.
  intros Hne. unfold patch_rows. induction rows as [|x rows IH]; simpl; [reflexivity | ].
  destruct (DoctorRequest.id x =? id) eqn:E1.
  - rewrite patched_id.
    destruct (DoctorRequest.id x =? id') eqn:E2; [ | exact IH].
    apply Z.eqb_eq in E1, E2. congruence.
  - destruct (DoctorRequest.id x =? id'); [reflexivity | exact IH].
Qed.

(** A [PATCH] that succeeds: who sent it, and what it replies and stores. *)
Lemma patched_request_reply db now s id body reply db' :
  update_doctor_request db now s id body = (Json200 reply, db') ->
  exists existing doctor,
    signed_in_as s "doctor"
    /\ getDoctorRequestById db id = Some existing
    /\ getDoctorByUserId db (session_userId s) = Some doctor
    /\ DoctorRequest.doctorId existing = Doctor.id doctor
    /\ reply = Some (patched now body existing)
    /\ db' = with_doctorRequests db (patch_rows now id body (doctorRequests db))
                                 (doctorRequests_id_seq db).
Proof.
  intros Hok.
  destruct (update_doctor_request_cases db now s id body)
    as [[c [m E]] | [e [d [q [Hs [He [Hd [Ho [_ E]]]]]]]]];
    rewrite E in Hok; [discriminate Hok | ].
  injection Hok as <- <-.
  exists e, d. repeat split; try assumption; try apply Hs.
  unfold update_doctor_request, requireRole in E.
  destruct (not_authenticated s); [discriminate E | ].
  destruct (role_is s "doctor"); simpl in E; [ | discriminate E].
  destruct (int4 id); simpl in E; [ | discriminate E].
  rewrite He, Hd in E.
  destruct (negb (DoctorRequest.doctorId e =? Doctor.id d)); [discriminate E | ].
  unfold updateDoctorRequest in E.
  match type of E with
  | context [update_parameters_ok ?i ?v] =>
      destruct (update_parameters_ok i v); simpl in E; [ | discriminate E]
  end.
  match type of E with
  | context [forallb ?f ?l] => destruct (forallb f l); [ | discriminate E]
  end.
  injection E as E. rewrite <- E.
  rewrite hd_error_map_filter. unfold getDoctorRequestById in He. rewrite He. reflexivity.
Qed.

(** X18: a [PATCH /api/doctor-requests/:id] that succeeds never replies
    with [null]: its reply is the stored request with the body's three
    fields and the clock written over it, [getDoctorRequestById] returns
    that same row afterwards, and the lookup of every other id is as
    before. *)
Theorem patched_request_can_be_read (db : Db) (now : Z) (s : Session) (id : Z)
  (body : UpdateBody) (reply : option DoctorRequest.t) (db' : Db)
  (Hok : update_doctor_request db now s id body = (Json200 reply, db')) :
  exists existing,
    getDoctorRequestById db id = Some existing
    /\ reply = Some (patched now body existing)
    /\ getDoctorRequestById db' id = reply
    /\ forall id', id' <> id -> getDoctorRequestById db' id' = getDoctorRequestById db id'.
Proof.
  destruct (patched_request_reply db now s id body reply db' Hok)
    as [e [doctor [_ [He [_ [_ [Hq Hdb]]]]]]].
  subst db'. exists e. split; [assumption | ].
  split; [assumption | split].
  - unfold getDoctorRequestById in *. simpl. rewrite find_patch_rows, He, Hq. reflexivity.
  - intros id' Hne. unfold getDoctorRequestById. simpl.
    apply find_patch_rows_other. assumption.
Qed.

(** X18 (witness): doctor 7 accepts request 1. *)
Lemma patched_request_can_be_read_witness :
  let db := sample_db "pending" in
  let body := mkUpdateBody (Str "accepted") Undefined Undefined in
  let reply := Some (patched 2000 body (sample_request "pending")) in
  let db' := snd (update_doctor_request db 2000 doctor_session 1 body) in
  exists existing,
    getDoctorRequestById db 1 = Some existing
    /\ reply = Some (patched 2000 body existing)
    /\ getDoctorRequestById db' 1 = reply
    /\ forall id', id' <> 1 -> getDoctorRequestById db' id' = getDoctorRequestById db id'.
Proof.
  exact (patched_request_can_be_read (sample_db "pending") 2000 doctor_session 1
           (mkUpdateBody (Str "accepted") Undefined Undefined)
           (Some (patched 2000 (mkUpdateBody (Str "accepted") Undefined Undefined)
                          (sample_request "pending")))
           (snd (update_doctor_request (sample_db "pending") 2000 doctor_session 1
                   (mkUpdateBody (Str "accepted") Undefined Undefined)))
           eq_refl).
Defined.

(** X19: after a doctor, whose user row has the doctor role, has set a
    request to "accepted" with a [PATCH] that succeeded, the patient of
    that request, when the id is not zero and names a stored patient, is
    in the list [GET /api/doctor/patients] sends to this doctor. *)
Theorem accepted_patient_is_listed (db : Db) (now : Z) (s : Session) (id : Z)
  (body : UpdateBody) (request : DoctorRequest.t) (db' : Db)
  (user : User.t) (patient : Patient.t)
  (Hok : update_doctor_request db now s id body = (Json200 (Some request), db'))
  (Hstatus : upd_status body = Str "accepted")
  (Huser : getUserById db (session_userId s) = Some user)
  (Hrole : User.role user = "doctor")
  (Hpatient : getPatientById db (DoctorRequest.patientId request) = Some patient)
  (Hnonzero : DoctorRequest.patientId request <> 0) :
  exists patients,
    get_doctor_patients db' s = Json200 patients
    /\ In (DoctorRequest.patientId request) (map summary_id patients).
Proof.
  destruct (patched_request_reply db now s id body (Some request) db' Hok)
    as [e [doctor [Hs [He [Hd [Ho [Hq Hdb]]]]]]].
  injection Hq as Hq. subst db'.
  assert (Hid : User.id user = session_userId s).
  { unfold getUserById in Huser. apply find_id_Some in Huser. apply Huser. }
  destruct Hs as [Ha Hr].
  eexists. split.
  - unfold get_doctor_patients, requireRole. rewrite Ha, Hr. simpl.
    unfold getUserById in *. simpl. rewrite Huser, Hrole. simpl.
    unfold getDoctorByUserId in *. simpl. rewrite Hid, Hd. reflexivity.
  - apply In_patientsList. split; [ | split; [assumption | exists patient; exact Hpatient]].
    apply acceptedPatientIds_iff. exists request. simpl.
    apply find_id_Some in He. destruct He as [Hin Heid].
    split; [ | split; [ | split; [reflexivity | ]]].
    + unfold patch_rows. apply in_map_iff. exists e. rewrite Heid, Z.eqb_refl.
      split; [congruence | assumption].
    + rewrite Hq. simpl. assumption.
    + rewrite Hq. simpl. rewrite Hstatus. reflexivity.
Qed.

(** X19 (witness): doctor 7 accepts the request of patient 3. *)
Lemma accepted_patient_is_listed_witness :
  let body := mkUpdateBody (Str "accepted") Undefined Undefined in
  let db' := snd (update_doctor_request (sample_db "pending") 2000 doctor_session 1 body) in
  exists patients,
    get_doctor_patients db' doctor_session = Json200 patients
    /\ In 3 (map summary_id patients).
Proof.
  apply (accepted_patient_is_listed (sample_db "pending") 2000 doctor_session 1
           (mkUpdateBody (Str "accepted") Undefined Undefined)
           (patched 2000 (mkUpdateBody (Str "accepted") Undefined Undefined)
                    (sample_request "pending"))
           (snd (update_doctor_request (sample_db "pending") 2000 doctor_session 1
                   (mkUpdateBody (Str "accepted") Undefined Undefined)))
           (User.mk 20 "d@x.org" "Doc" "doctor" None)
           (Patient.mk 3 10 (Some 50) None));
    try reflexivity.
  simpl. discriminate.
Defined.

Lemma same_request_refl r : same_request r r.
Proof. repeat split. Qed.

Lemma same_request_trans r1 r2 r3 :
  same_request r1 r2 -> same_request r2 r3 -> same_request r1 r3.
Proof. unfold same_request. intuition congruence. Qed.

(** One operation keeps every row at its place, with the same fixed
    columns. *)
Lemma run_keeps_rows db op i r :
  nth_error (doctorRequests db) i = Some r ->
  exists r', nth_error (doctorRequests (run db op)) i = Some r' /\ same_request r r'.
Proof.
  intros Hr. destruct op as [now s body | now s id body]; simpl.
  - exists r. split; [ | apply same_request_refl].
    destruct (create_doctor_request_rows db now s body) as [E | [request [_ E]]];
      rewrite E; [assumption | ].
    rewrite nth_error_app1 by (apply nth_error_Some; congruence). assumption.
  - destruct (update_doctor_request_cases db now s id body)
      as [[code [message E]] | [e [d [q [_ [_ [_ [_ [_ E]]]]]]]]];
      rewrite E; simpl; [exists r; split; [assumption | apply same_request_refl] | ].
    rewrite nth_error_patch_rows, Hr. simpl.
    destruct (DoctorRequest.id r =? id); eexists; (split; [reflexivity | ]);
      repeat split.
Qed.

(** X20: through any sequence of [POST] and [PATCH] operations a stored
    request stays at its place in the table, with the same id, patient,
    doctor, hospital, note, shared data and creation time: no sequence of
    operations deletes, moves or readdresses a request. *)
Theorem requests_keep_their_place (db : Db) (ops : list Operation) (i : nat)
  (r : DoctorRequest.t)
  (Hr : nth_error (doctorRequests db) i = Some r) :
  exists r',
    nth_error (doctorRequests (run_all db ops)) i = Some r' /\ same_request r r'.
Proof.
  unfold run_all. revert db r Hr. induction ops as [|op ops IH]; intros db r Hr; simpl.
  - exists r. split; [assumption | apply same_request_refl].
  - destruct (run_keeps_rows db op i r Hr) as [r1 [H1 S1]].
    destruct (IH (run db op) r1 H1) as [r2 [H2 S2]].
    exists r2. split; [assumption | eapply same_request_trans; eassumption].
Qed.

(** X20 (witness): a new request, then the answer to the first one. *)
Lemma requests_keep_their_place_witness :
  exists r',
    nth_error
      (doctorRequests
         (run_all (sample_db "pending")
            [PostDoctorRequest 2000 patient_session
               (mkCreateBody (Some 8) None (Str "please") None Undefined None);
             PatchDoctorRequest 3000 doctor_session 1
               (mkUpdateBody (Str "accepted") Undefined Undefined)]))
      0
    = Some r'
    /\ same_request (sample_request "pending") r'.
Proof.
  apply (requests_keep_their_place (sample_db "pending")
           [PostDoctorRequest 2000 patient_session
              (mkCreateBody (Some 8) None (Str "please") None Undefined None);
            PatchDoctorRequest 3000 doctor_session 1
              (mkUpdateBody (Str "accepted") Undefined Undefined)]
           0%nat (sample_request "pending")).
  reflexivity.
Defined.

(** X21: unique ids that are behind the sequence stay so through any
    sequence of operations, and then [getDoctorRequestById] returns each
    stored request for its own id. *)
Theorem ids_identify_requests (db : Db) (ops : list Operation)
  (Hwf : well_formed db) :
  well_formed (run_all db ops)
  /\ forall r, In r (doctorRequests (run_all db ops)) ->
               getDoctorRequestById (run_all db ops) (DoctorRequest.id r) = Some r.
Proof.
  assert (H : well_formed (run_all db ops)).
  { unfold run_all. revert db Hwf. induction ops as [|op ops IH]; intros db Hwf; simpl.
    - assumption.
    - apply IH, well_formed_run, Hwf. }
  split; [assumption | ].
  intros r Hr. apply find_unique; [apply H | assumption].
Qed.

(** X21 (witness): the same two operations. *)
Lemma ids_identify_requests_witness :
  let db' :=
    run_all (sample_db "pending")
      [PostDoctorRequest 2000 patient_session
         (mkCreateBody (Some 8) None (Str "please") None Undefined None);
       PatchDoctorRequest 3000 doctor_session 1
         (mkUpdateBody (Str "accepted") Undefined Undefined)] in
  well_formed db'
  /\ forall r, In r (doctorRequests db') ->
               getDoctorRequestById db' (DoctorRequest.id r) = Some r.
Proof.
  apply (ids_identify_requests (sample_db "pending")
           [PostDoctorRequest 2000 patient_session
              (mkCreateBody (Some 8) None (Str "please") None Undefined None);
            PatchDoctorRequest 3000 doctor_session 1
              (mkUpdateBody (Str "accepted") Undefined Undefined)]).
  split.
  - unfold primary_key. simpl. repeat constructor. simpl. tauto.
  - intros r [<-|[]]. simpl. lia.
Defined.

Lemma timestamps_ok_run now db op :
  timestamps_ok now db -> now <= clock op -> timestamps_ok (clock op) (run db op).
Proof.
  intros Hok Hle r' Hr'.
  destruct op as [t s body | t s id body]; simpl in *.
  - destruct (create_doctor_request_cases db t s body)
      as [[code [message [db0 [E Hdb]]]] | [user [patient [d [h [_ [_ [_ [_ [_ E]]]]]]]]]];
      rewrite E in Hr'; simpl in Hr'.
    + destruct Hdb as [-> | ->]; simpl in Hr'; specialize (Hok r' Hr'); lia.
    + apply in_app_iff in Hr'. destruct Hr' as [Hr'|[<-|[]]].
      * specialize (Hok r' Hr'). lia.
      * simpl. lia.
  - destruct (update_doctor_request_cases db t s id body)
      as [[code [message E]] | [e [d [q [_ [_ [_ [_ [_ E]]]]]]]]];
      rewrite E in Hr'; simpl in Hr'.
    + specialize (Hok r' Hr'). lia.
    + unfold patch_rows in Hr'. apply in_map_iff in Hr'. destruct Hr' as [r [<- Hr]].
      specialize (Hok r Hr).
      destruct (DoctorRequest.id r =? id); simpl; lia.
Qed.

(** X22: when the clock does not run backwards, every stored request
    keeps [createdAt <= updatedAt], and no time stamp is ahead of the
    clock, through any sequence of operations. *)
Theorem updates_never_precede_creation (db : Db) (ops : list Operation) (now : Z)
  (Hdb : timestamps_ok now db)
  (Hclock : clock_monotone now ops) :
  timestamps_ok (clock_after now ops) (run_all db ops).
Proof.
  unfold clock_after, run_all. revert db now Hdb Hclock.
  induction ops as [|op ops IH]; intros db now Hdb Hclock; simpl.
  - assumption.
  - destruct Hclock as [H1 H2]. apply IH; [ | assumption].
    apply (timestamps_ok_run now); assumption.
Qed.

(** X22 (witness): the same two operations, at the times 2000 and 3000. *)
Lemma updates_never_precede_creation_witness :
  let ops :=
    [PostDoctorRequest 2000 patient_session
       (mkCreateBody (Some 8) None (Str "please") None Undefined None);
     PatchDoctorRequest 3000 doctor_session 1
       (mkUpdateBody (Str "accepted") Undefined Undefined)] in
  timestamps_ok (clock_after 1000 ops) (run_all (sample_db "pending") ops).
Proof.
  apply (updates_never_precede_creation (sample_db "pending")
           [PostDoctorRequest 2000 patient_session
              (mkCreateBody (Some 8) None (Str "please") None Undefined None);
            PatchDoctorRequest 3000 doctor_session 1
              (mkUpdateBody (Str "accepted") Undefined Undefined)]
           1000).
  - intros r [<-|[]]. simpl. lia.
  - simpl. lia.
Defined.

(** ** Patient cases *)

Lemma In_insert_file_desc f x l : In x (insert_file_desc f l) <-> x = f \/ In x l.
Proof.
  induction l as [|y l IH]; simpl.
  - intuition congruence.
  - destruct (MedicalFile.createdAt y <? MedicalFile.createdAt f); simpl.
    + intuition congruence.
    + rewrite IH. intuition congruence.
Qed.

Lemma In_getMedicalFilesByCase ct id f :
  In f (getMedicalFilesByCase ct id) <->
  In f (medicalFiles ct) /\ MedicalFile.caseId f = Some id.
Proof.
  unfold getMedicalFilesByCase.
  induction (medicalFiles ct) as [|x l IH]; simpl; [tauto | ].
  destruct (MedicalFile.caseId x) as [c|] eqn:Ec.
  - destruct (c =? id) eqn:E; simpl.
    + apply Z.eqb_eq in E. subst c. rewrite In_insert_file_desc, IH.
      split; [intros [->|H]; tauto | intros [[->|H] H']; tauto].
    + apply Z.eqb_neq in E. rewrite IH.
      split; [tauto | intros [[->|H] H']; [congruence | tauto]].
  - rewrite IH. split; [tauto | intros [[->|H] H']; [congruence | tauto]].
Qed.

(** X23: when [GET /api/cases/:id] sends a case, it is the stored case
    with the id; a session with the patient role gets a case of its own
    patient row only, and a session with the doctor role only a case
    assigned to its own doctor row; the files sent along are the stored
    files of this case and no others. *)
Theorem get_case_grants (db : Db) (ct : CaseTables) (s : Session) (id : Z) (view : CaseView)
  (Hok : get_case db ct s id = Json200 view) :
  getPatientCaseById ct id = Some (view_case view)
  /\ (role_is s "patient" = true ->
      exists patient,
        getPatientByUserId db (session_userId s) = Some patient
        /\ PatientCase.patientId (view_case view) = Patient.id patient)
  /\ (role_is s "doctor" = true ->
      exists doctor,
        getDoctorByUserId db (session_userId s) = Some doctor
        /\ PatientCase.doctorId (view_case view) = Some (Doctor.id doctor))
  /\ (forall f, In f (view_files view) <->
                In f (medicalFiles ct) /\ MedicalFile.caseId f = Some id).
Proof.
  unfold get_case, requireAuth in Hok.
  destruct (not_authenticated s); [discriminate Hok | ].
  destruct (getPatientCaseById ct id) as [c|] eqn:Ec; [ | discriminate Hok].
  destruct (role_is s "patient") eqn:Erp.
  - destruct (getPatientByUserId db (session_userId s)) as [patient|] eqn:Ep;
      [ | discriminate Hok].
    destruct (Patient.id patient =? PatientCase.patientId c) eqn:E; simpl in Hok;
      [ | discriminate Hok].
    injection Hok as <-. simpl. apply Z.eqb_eq in E.
    split; [reflexivity | split; [intros _; exists patient; auto | split]].
    + intros Hd. apply role_is_eq in Erp, Hd. congruence.
    + intros f. apply In_getMedicalFilesByCase.
  - destruct (role_is s "doctor") eqn:Erd.
    + destruct (getDoctorByUserId db (session_userId s)) as [doctor|] eqn:Ed;
        [ | discriminate Hok].
      destruct (not_assigned c doctor) eqn:E; [discriminate Hok | ].
      injection Hok as <-. simpl.
      split; [reflexivity | split; [discriminate | split]].
      * intros _. exists doctor. split; [reflexivity | ].
        unfold not_assigned in E. destruct (PatientCase.doctorId c) as [d|];
          [ | discriminate E].
        apply negb_false_iff, Z.eqb_eq in E. congruence.
      * intros f. apply In_getMedicalFilesByCase.
    + injection Hok as <-. simpl.
      split; [reflexivity | split; [discriminate | split; [discriminate | ]]].
      intros f. apply In_getMedicalFilesByCase.
Qed.

(** X23 (witness): patient 3 reads case 1. *)
Lemma get_case_grants_witness :
  let view :=
    mkCaseView
      (PatientCase.mk 1 3 (Some 7) (Some "liver") None None None None None None 1000 1000)
      (Some "Pat")
      [MedicalFile.mk 1 3 (Some 1) "scan.pdf" "pdf" "uploads/scan.pdf" (Some 1024)
         None None None 1500] in
  getPatientCaseById sample_cases 1 = Some (view_case view)
  /\ (role_is patient_session "patient" = true ->
      exists patient,
        getPatientByUserId (sample_db "pending") (session_userId patient_session)
        = Some patient
        /\ PatientCase.patientId (view_case view) = Patient.id patient)
  /\ (role_is patient_session "doctor" = true ->
      exists doctor,
        getDoctorByUserId (sample_db "pending") (session_userId patient_session) = Some doctor
        /\ PatientCase.doctorId (view_case view) = Some (Doctor.id doctor))
  /\ (forall f, In f (view_files view) <->
                In f (medicalFiles sample_cases) /\ MedicalFile.caseId f = Some 1).
Proof.
  exact (get_case_grants (sample_db "pending") sample_cases patient_session 1
           (mkCaseView
              (PatientCase.mk 1 3 (Some 7) (Some "liver") None None None None None None
                 1000 1000)
              (Some "Pat")
              [MedicalFile.mk 1 3 (Some 1) "scan.pdf" "pdf" "uploads/scan.pdf" (Some 1024)
                 None None None 1500])
           eq_refl).
Defined.


(** A [POST /api/cases] either replies with a failure and leaves the
    tables as they are, the sequence having given out a value or not, or
    appends one case assigned to the doctor who sent it. *)
Lemma create_case_cases db ct now s body :
  (exists code message ct',
      create_case db ct now s body = (Failure code message, ct')
      /\ (ct' = ct \/ ct' = case_nextval_consumed ct))
  \/ (exists doctor patientId,
         signed_in_as s "doctor"
         /\ getDoctorByUserId db (session_userId s) = Some doctor
         /\ case_patientId body = Some patientId
         /\ (exists patient, getPatientById db patientId = Some patient)
         /\ case_parameters_ok body = true
         /\ let patientCase :=
              PatientCase.mk (patientCases_id_seq ct) patientId (Some (Doctor.id doctor))
                (nullable (case_cancerType body)) (nullable (case_stage body))
                (nullable (case_tumorSize body)) (case_biomarkers body) None None None now now in
            create_case db ct now s body
            = (Json200 patientCase,
               mkCaseTables (patientCases ct ++ [patientCase]) (medicalFiles ct)
                            (patientCases_id_seq ct + 1))).
Proof.
  unfold create_case, requireRole.
  destruct (not_authenticated s) eqn:Ea; [refused | ].
  destruct (role_is s "doctor") eqn:Er; simpl; [ | refused].
  destruct (getDoctorByUserId db (session_userId s)) as [doctor|] eqn:Ed; [ | refused].
  unfold createPatientCase, case_parameters_ok, integer_parameter.
  destruct (case_patientId body) as [patientId|] eqn:Ep; [ | refused].
  destruct (int4 patientId); [ | refused].
  match goal with |- context [if ?c then _ else (None, ct)] => destruct c end; [ | refused].
  destruct (getPatientById db patientId) as [patient|] eqn:Epat; [ | refused].
  destruct (getDoctorById db (Doctor.id doctor)); [ | refused].
  right. exists doctor, patientId. repeat split; try assumption. exists patient. exact Epat.
Qed.

(** X24: when the ids of the stored cases are behind the sequence, a
    case that [POST /api/cases] replies with is assigned to the doctor of
    the session and names the patient of the body; that doctor reads it
    with [GET /api/cases/:id], and a session with the doctor role that
    reads it acts as that same doctor. *)
Theorem created_case_belongs_to_its_creator (db : Db) (ct : CaseTables) (now : Z)
  (s : Session) (body : CaseBody) (patientCase : PatientCase.t) (ct' : CaseTables)
  (Hwf : cases_well_formed ct)
  (Hok : create_case db ct now s body = (Json200 patientCase, ct')) :
  signed_in_as s "doctor"
  /\ PatientCase.doctorId patientCase = actor_doctorId db s
  /\ case_patientId body = Some (PatientCase.patientId patientCase)
  /\ cases_well_formed ct'
  /\ (exists view,
         get_case db ct' s (PatientCase.id patientCase) = Json200 view
         /\ view_case view = patientCase)
  /\ (forall sd view,
         role_is sd "doctor" = true ->
         get_case db ct' sd (PatientCase.id patientCase) = Json200 view ->
         actor_doctorId db sd = actor_doctorId db s).
Proof.
  destruct (create_case_cases db ct now s body)
    as [[c [m [ct0 [E _]]]] | [doctor [pid [Hs [Hd [Hp [_ [_ E]]]]]]]];
    rewrite E in Hok; [discriminate Hok | ].
  simpl in Hok. injection Hok as <- <-.
  assert (Hfind : getPatientCaseById
                    (mkCaseTables
                       (patientCases ct
                        ++ [PatientCase.mk (patientCases_id_seq ct) pid (Some (Doctor.id doctor))
                              (nullable (case_cancerType body)) (nullable (case_stage body))
                              (nullable (case_tumorSize body)) (case_biomarkers body) None
                              None None now now])
                       (medicalFiles ct) (patientCases_id_seq ct + 1))
                    (patientCases_id_seq ct)
                  = Some (PatientCase.mk (patientCases_id_seq ct) pid (Some (Doctor.id doctor))
                            (nullable (case_cancerType body)) (nullable (case_stage body))
                            (nullable (case_tumorSize body)) (case_biomarkers body) None
                            None None now now)).
  { unfold getPatientCaseById. simpl. rewrite find_app_None.
    - simpl. rewrite Z.eqb_refl. reflexivity.
    - apply find_none_iff. intros x Hx. apply Z.eqb_neq. specialize (Hwf x Hx). lia. }
  simpl. split; [assumption | split; [ | split; [assumption | split; [ | split]]]].
  - unfold actor_doctorId. rewrite Hd. reflexivity.
  - intros c Hc. simpl in *. apply in_app_iff in Hc. destruct Hc as [Hc|[<-|[]]].
    + specialize (Hwf c Hc). lia.
    + simpl. lia.
  - destruct Hs as [Ha Hr].
    unfold get_case, requireAuth. rewrite Ha, Hfind.
    rewrite (role_is_other s "doctor" "patient" Hr) by discriminate.
    rewrite Hr, Hd. unfold not_assigned. simpl. rewrite Z.eqb_refl. simpl.
    eexists. split; reflexivity.
  - intros sd view Hr Hv.
    unfold get_case, requireAuth in Hv.
    destruct (not_authenticated sd); [discriminate Hv | ].
    rewrite Hfind in Hv.
    rewrite (role_is_other sd "doctor" "patient" Hr) in Hv by discriminate.
    rewrite Hr in Hv. unfold actor_doctorId. rewrite Hd.
    destruct (getDoctorByUserId db (session_userId sd)) as [doc|]; [ | discriminate Hv].
    unfold not_assigned in Hv. simpl in Hv.
    destruct (Doctor.id doctor =? Doctor.id doc) eqn:E1; [ | discriminate Hv].
    apply Z.eqb_eq in E1. simpl. congruence.
Qed.

(** X24 (witness): doctor 7 opens a case for patient 4. *)
Lemma created_case_belongs_to_its_creator_witness :
  let body := mkCaseBody (Some 4) (Str "lung") Undefined Undefined None in
  let patientCase :=
    PatientCase.mk 2 4 (Some 7) (Some "lung") None None None None None None 2000 2000 in
  let ct' := snd (create_case (sample_db "pending") sample_cases 2000 doctor_session body) in
  signed_in_as doctor_session "doctor"
  /\ PatientCase.doctorId patientCase = actor_doctorId (sample_db "pending") doctor_session
  /\ case_patientId body = Some (PatientCase.patientId patientCase)
  /\ cases_well_formed ct'
  /\ (exists view,
         get_case (sample_db "pending") ct' doctor_session (PatientCase.id patientCase)
         = Json200 view
         /\ view_case view = patientCase)
  /\ (forall sd view,
         role_is sd "doctor" = true ->
         get_case (sample_db "pending") ct' sd (PatientCase.id patientCase) = Json200 view ->
         actor_doctorId (sample_db "pending") sd
         = actor_doctorId (sample_db "pending") doctor_session).
Proof.
  apply (created_case_belongs_to_its_creator (sample_db "pending") sample_cases 2000
           doctor_session (mkCaseBody (Some 4) (Str "lung") Undefined Undefined None)).
  - intros c [<-|[]]. simpl. lia.
  - reflexivity.
Defined.



(** ** The risk calculation, once more *)

(** Rounding and capping keep the order of two raw scores. *)
Lemma capped_round_mono x1 x2 :
  nonneg x1 = true -> nonneg x2 = true -> units x1 <= units x2 ->
  (Math_min (Math_round x1) 98 <=? Math_min (Math_round x2) 98)%float = true.
Proof.
  intros Q1 Q2 H.
  destruct (Math_round_units x1 Q1) as [R1 _]. destruct (Math_round_units x2 Q2) as [R2 _].
  pose proof (Math_round_mono x1 x2 Q1 Q2 H) as Hr.
  destruct (Math_min_units (Math_round x1) 98 R1 eq_refl) as [M1 E1].
  destruct (Math_min_units (Math_round x2) 98 R2 eq_refl) as [M2 E2].
  rewrite (leb_units _ _ M1 M2), E1, E2. apply Z.leb_le. lia.
Qed.

(** A larger factor gives a larger product. *)
Lemma mul_mono_r a k1 k2 :
  nonneg a = true ->
  nonneg k1 = true -> 2 ^ 1074 <= units k1 < 2 ^ 2098 ->
  nonneg k2 = true -> 2 ^ 1074 <= units k2 < 2 ^ 2098 ->
  units k1 <= units k2 -> units (a * k1) <= units (a * k2).
Proof.
  intros Pa P1 H1 P2 H2 H.
  destruct (mul_units a k1 Pa P1 H1) as [_ E1]. destruct (mul_units a k2 Pa P2 H2) as [_ E2].
  assert (H3 : rnd 1074 (units a * units k1) <= rnd 1074 (units a * units k2)).
  { apply rnd_mono; [lia | ]. pose proof (units_nonneg a). split; [nia | ].
    apply Z.mul_le_mono_nonneg_l; lia. }
  rewrite <- E1, <- E2 in H3.
  apply Z.mul_le_mono_pos_r in H3; [assumption | lia].
Qed.

(** The three multipliers of the lung score and the two of the breast
    score are finite and at least 1. *)
Lemma smokingMultiplier_cases f :
  let k := if strict_equal f "current" then 1.8%float
           else if strict_equal f "former" then 1.3%float else 1%float in
  nonneg k = true /\ 2 ^ 1074 <= units k < 2 ^ 2098.
Proof.
  cbv zeta. destruct (strict_equal f "current"); [ | destruct (strict_equal f "former")];
    split; float_const.
Qed.

Lemma her2Multiplier_cases f :
  let k := if strict_equal f "positive" then 1.4%float else 1%float in
  nonneg k = true /\ 2 ^ 1074 <= units k < 2 ^ 2098.
Proof.
  cbv zeta. destruct (strict_equal f "positive"); split; float_const.
Qed.

(** A base plus a capped multiple of the tumor size is monotone in the
    tumor size. *)
Lemma capped_term_mono t1 t2 c k cap :
  nonneg t1 = true -> nonneg t2 = true -> units t1 <= units t2 ->
  nonneg c = true -> nonneg k = true -> 2 ^ 1074 <= units k < 2 ^ 2098 ->
  nonneg cap = true ->
  nonneg (c + Math_min (t1 * k) cap) = true
  /\ nonneg (c + Math_min (t2 * k) cap) = true
  /\ units (c + Math_min (t1 * k) cap) <= units (c + Math_min (t2 * k) cap).
Proof.
  intros P1 P2 H Pc Pk Hk Pcap.
  destruct (mul_units t1 k P1 Pk Hk) as [Q1 _]. destruct (mul_units t2 k P2 Pk Hk) as [Q2 _].
  split; [apply base_plus_capped; assumption | ].
  split; [apply base_plus_capped; assumption | ].
  apply base_plus_capped_mono; try assumption. apply mul_mono; assumption.
Qed.

Lemma capped_size_mono t1 t2 c cap :
  nonneg t1 = true -> nonneg t2 = true -> units t1 <= units t2 ->
  nonneg c = true -> nonneg cap = true ->
  nonneg (c + Math_min t1 cap) = true
  /\ nonneg (c + Math_min t2 cap) = true
  /\ units (c + Math_min t1 cap) <= units (c + Math_min t2 cap).
Proof.
  intros P1 P2 H Pc Pcap.
  split; [apply base_plus_capped; assumption | ].
  split; [apply base_plus_capped; assumption | ].
  apply base_plus_capped_mono; assumption.
Qed.

(** A multiplier keeps the order. *)
Lemma times_mono x1 x2 m :
  nonneg x1 = true /\ nonneg x2 = true /\ units x1 <= units x2 ->
  nonneg m = true /\ 2 ^ 1074 <= units m < 2 ^ 2098 ->
  nonneg (x1 * m) = true /\ nonneg (x2 * m) = true /\ units (x1 * m) <= units (x2 * m).
Proof.
  intros [Q1 [Q2 H]] [Pm Hm].
  split; [apply mul_units; assumption | ].
  split; [apply mul_units; assumption | ].
  apply mul_mono; assumption.
Qed.

Lemma capped_round_mono' x1 x2 :
  nonneg x1 = true /\ nonneg x2 = true /\ units x1 <= units x2 ->
  (Math_min (Math_round x1) 98 <=? Math_min (Math_round x2) 98)%float = true.
Proof. intros [Q1 [Q2 H]]. apply capped_round_mono; assumption. Qed.

(** X26: for every cancer type, with the biomarkers and the other
    fields fixed, a tumor size [t2] that is at least [t1 > 0] gives a
    probability that is at least that of [t1]; the multipliers of the lung
    and the breast score keep the order. *)
Theorem probability_monotone_in_tumorSize
  (cancerType : CancerType) (t1 t2 biomarker1 : float) (biomarker2 additionalFactor : JsField)
  (Hpos : (0 <? t1)%float = true)
  (Hle : (t1 <=? t2)%float = true) :
  (DiagnosisResult.probability
     (computeRisk (DiagnosisInput.mk cancerType t1 biomarker1 biomarker2 additionalFactor))
   <=? DiagnosisResult.probability
         (computeRisk (DiagnosisInput.mk cancerType t2 biomarker1 biomarker2 additionalFactor)))%float
  = true.
Proof.
  apply nonneg_of_ltb_0 in Hpos. destruct Hpos as [P1 H1].
  destruct (nonneg_of_leb t1 t2 P1 H1 Hle) as [P2 H12].
  rewrite !probability_eq. unfold switch_probability. cbv zeta.
  simpl DiagnosisInput.cancerType. simpl DiagnosisInput.tumorSize.
  simpl DiagnosisInput.biomarker1. simpl DiagnosisInput.biomarker2.
  simpl DiagnosisInput.additionalFactor.
  assert (K2 : 2 ^ 1074 <= units 2 < 2 ^ 2098) by float_const.
  assert (K3 : 2 ^ 1074 <= units 3 < 2 ^ 2098) by float_const.
  assert (K4 : 2 ^ 1074 <= units 4 < 2 ^ 2098) by float_const.
  destruct cancerType.
  - destruct (400 <? biomarker1)%float; [ | destruct (20 <? biomarker1)%float];
      apply capped_round_mono'.
    + apply capped_term_mono; try assumption; reflexivity.
    + apply capped_term_mono; try assumption; reflexivity.
    + apply capped_size_mono; try assumption; reflexivity.
  - pose proof (smokingMultiplier_cases additionalFactor) as Hm. cbv zeta in Hm.
    destruct (10 <? biomarker1)%float; [ | destruct (5 <? biomarker1)%float];
      apply capped_round_mono'; (apply times_mono; [ | exact Hm]);
      apply capped_term_mono; try assumption; reflexivity.
  - pose proof (her2Multiplier_cases biomarker2) as Hm. cbv zeta in Hm.
    destruct (100 <? biomarker1)%float; [ | destruct (30 <? biomarker1)%float];
      apply capped_round_mono'; (apply times_mono; [ | exact Hm]).
    + apply capped_term_mono; try assumption; reflexivity.
    + apply capped_term_mono; try assumption; reflexivity.
    + apply capped_size_mono; try assumption; reflexivity.
Qed.

(** X26 (witness): a former smoker, CEA 8, tumor sizes 2 and 5. *)
Lemma probability_monotone_in_tumorSize_witness :
  (DiagnosisResult.probability
     (computeRisk (DiagnosisInput.mk lung 2 8 Undefined (Str "former")))
   <=? DiagnosisResult.probability
         (computeRisk (DiagnosisInput.mk lung 5 8 Undefined (Str "former"))))%float
  = true.
Proof.
  apply (probability_monotone_in_tumorSize lung 2 5 8 Undefined (Str "former"));
    reflexivity.
Defined.

(** ** The order of the bands *)

Lemma ltb_leb a b : (a <? b)%float = true -> (a <=? b)%float = true.
Proof.
  rewrite FloatAxioms.ltb_spec, FloatAxioms.leb_spec. unfold SFltb, SFleb.
  destruct (SFcompare (Prim2SF a) (Prim2SF b)) as [[ | | ]|]; congruence.
Qed.

(** A number above a positive bound stays above it when it grows. *)
Lemma ltb_leb_trans c b1 b2 :
  nonneg c = true -> 0 < units c ->
  (c <? b1)%float = true -> (b1 <=? b2)%float = true -> (c <? b2)%float = true.
Proof.
  intros Pc Hc H1 H12.
  destruct (nonneg_of_leb c b1 Pc Hc (ltb_leb c b1 H1)) as [P1 _].
  rewrite (ltb_units c b1 Pc P1) in H1. apply Z.ltb_lt in H1.
  destruct (nonneg_of_leb b1 b2 P1 ltac:(lia) H12) as [P2 H2].
  rewrite (ltb_units c b2 Pc P2). apply Z.ltb_lt. lia.
Qed.

(** A band whose base and cap stay below the base of another band is
    below it. *)
Lemma band_below c1 u1 cap1 c2 u2 cap2 :
  nonneg c1 = true -> nonneg u1 = true -> nonneg cap1 = true ->
  nonneg c2 = true -> nonneg u2 = true -> nonneg cap2 = true ->
  units (c1 + cap1) <= units c2 ->
  nonneg (c1 + Math_min u1 cap1) = true
  /\ nonneg (c2 + Math_min u2 cap2) = true
  /\ units (c1 + Math_min u1 cap1) <= units (c2 + Math_min u2 cap2).
Proof.
  intros Pc1 Pu1 Pcap1 Pc2 Pu2 Pcap2 H.
  destruct (base_plus_capped c1 u1 cap1 Pc1 Pu1 Pcap1) as [Q1 _].
  destruct (base_plus_capped c2 u2 cap2 Pc2 Pu2 Pcap2) as [Q2 H2].
  pose proof (base_plus_capped_upper c1 u1 cap1 Pc1 Pu1 Pcap1) as H1.
  split; [assumption | split; [assumption | lia]].
Qed.

Lemma band_same x :
  nonneg x = true -> nonneg x = true /\ nonneg x = true /\ units x <= units x.
Proof. intros P. split; [assumption | split; [assumption | lia]]. Qed.

(** X27: for every cancer type, with the tumor size (above zero) and the
    other fields fixed, a first biomarker [b2] that is at least [b1] gives
    a probability that is at least that of [b1]: no band of the table
    reaches above the base of the next one. *)
Theorem probability_monotone_in_biomarker1
  (cancerType : CancerType) (tumorSize b1 b2 : float) (biomarker2 additionalFactor : JsField)
  (Hpos : (0 <? tumorSize)%float = true)
  (Hle : (b1 <=? b2)%float = true) :
  (DiagnosisResult.probability
     (computeRisk (DiagnosisInput.mk cancerType tumorSize b1 biomarker2 additionalFactor))
   <=? DiagnosisResult.probability
         (computeRisk (DiagnosisInput.mk cancerType tumorSize b2 biomarker2 additionalFactor)))%float
  = true.
Proof.
  apply nonneg_of_ltb_0 in Hpos. destruct Hpos as [Pt _].
  rewrite !probability_eq. unfold switch_probability. cbv zeta.
  simpl DiagnosisInput.cancerType. simpl DiagnosisInput.tumorSize.
  simpl DiagnosisInput.biomarker1. simpl DiagnosisInput.biomarker2.
  simpl DiagnosisInput.additionalFactor.
  assert (P2 : nonneg (tumorSize * 2) = true) by (apply mul_units; [assumption | float_const ..]).
  assert (P3 : nonneg (tumorSize * 3) = true) by (apply mul_units; [assumption | float_const ..]).
  assert (P4 : nonneg (tumorSize * 4) = true) by (apply mul_units; [assumption | float_const ..]).
  assert (Habove : forall c, nonneg c = true -> 0 < units c ->
                             (c <? b1)%float = true -> (c <? b2)%float = true).
  { intros c Pc Hc H. apply (ltb_leb_trans c b1 b2); assumption. }
  destruct cancerType.
  - destruct (400 <? b1)%float eqn:E1.
    { rewrite (Habove 400%float eq_refl ltac:(float_pos) E1).
      apply capped_round_mono', band_same, base_plus_capped; first [assumption | reflexivity]. }
    destruct (20 <? b1)%float eqn:E2.
    { rewrite (Habove 20%float eq_refl ltac:(float_pos) E2).
      destruct (400 <? b2)%float; apply capped_round_mono'.
      - apply band_below; first [assumption | reflexivity | float_const].
      - apply band_same, base_plus_capped; first [assumption | reflexivity]. }
    destruct (400 <? b2)%float; [ | destruct (20 <? b2)%float]; apply capped_round_mono'.
    + apply band_below; first [assumption | reflexivity | float_const].
    + apply band_below; first [assumption | reflexivity | float_const].
    + apply band_same, base_plus_capped; first [assumption | reflexivity].
  - pose proof (smokingMultiplier_cases additionalFactor) as Hm. cbv zeta in Hm.
    destruct (10 <? b1)%float eqn:E1.
    { rewrite (Habove 10%float eq_refl ltac:(float_pos) E1).
      apply capped_round_mono', band_same, mul_units; try apply Hm.
      apply base_plus_capped; first [assumption | reflexivity]. }
    destruct (5 <? b1)%float eqn:E2.
    { rewrite (Habove 5%float eq_refl ltac:(float_pos) E2).
      destruct (10 <? b2)%float; apply capped_round_mono'.
      - apply times_mono; [ | exact Hm].
        apply band_below; first [assumption | reflexivity | float_const].
      - apply band_same, mul_units; try apply Hm.
        apply base_plus_capped; first [assumption | reflexivity]. }
    destruct (10 <? b2)%float; [ | destruct (5 <? b2)%float]; apply capped_round_mono'.
    + apply times_mono; [ | exact Hm].
      apply band_below; first [assumption | reflexivity | float_const].
    + apply times_mono; [ | exact Hm].
      apply band_below; first [assumption | reflexivity | float_const].
    + apply band_same, mul_units; try apply Hm.
      apply base_plus_capped; first [assumption | reflexivity].
  - pose proof (her2Multiplier_cases biomarker2) as Hm. cbv zeta in Hm.
    destruct (100 <? b1)%float eqn:E1.
    { rewrite (Habove 100%float eq_refl ltac:(float_pos) E1).
      apply capped_round_mono', band_same, mul_units; try apply Hm.
      apply base_plus_capped; first [assumption | reflexivity]. }
    destruct (30 <? b1)%float eqn:E2.
    { rewrite (Habove 30%float eq_refl ltac:(float_pos) E2).
      destruct (100 <? b2)%float; apply capped_round_mono'.
      - apply times_mono; [ | exact Hm].
        apply band_below; first [assumption | reflexivity | float_const].
      - apply band_same, mul_units; try apply Hm.
        apply base_plus_capped; first [assumption | reflexivity]. }
    destruct (100 <? b2)%float; [ | destruct (30 <? b2)%float]; apply capped_round_mono'.
    + apply times_mono; [ | exact Hm].
      apply band_below; first [assumption | reflexivity | float_const].
    + apply times_mono; [ | exact Hm].
      apply band_below; first [assumption | reflexivity | float_const].
    + apply band_same, mul_units; try apply Hm.
      apply base_plus_capped; first [assumption | reflexivity].
Qed.

(** X27 (witness): breast, tumor size 2, CA 15-3 of 20 and of 150. *)
Lemma probability_monotone_in_biomarker1_witness :
  (DiagnosisResult.probability
     (computeRisk (DiagnosisInput.mk breast 2 20 (Str "positive") Undefined))
   <=? DiagnosisResult.probability
         (computeRisk (DiagnosisInput.mk breast 2 150 (Str "positive") Undefined)))%float
  = true.
Proof.
  apply (probability_monotone_in_biomarker1 breast 2 20 150 (Str "positive") Undefined);
    reflexivity.
Defined.

(** ** The multipliers *)

(** The raw score before the multiplier has a clear sign bit. *)
Lemma lung_base_nonneg t b :
  nonneg t = true ->
  nonneg (if (10 <? b)%float then (60 + Math_min (t * 4) 25)%float
          else if (5 <? b)%float then (35 + Math_min (t * 3) 20)%float
               else (10 + Math_min (t * 2) 15)%float) = true.
Proof.
  intros Pt.
  destruct (10 <? b)%float; [ | destruct (5 <? b)%float];
    apply base_plus_capped; try reflexivity; apply mul_units; try assumption; float_const.
Qed.

Lemma breast_base_nonneg t b :
  nonneg t = true ->
  nonneg (if (100 <? b)%float then (70 + Math_min (t * 3) 20)%float
          else if (30 <? b)%float then (40 + Math_min (t * 2) 25)%float
               else (12 + Math_min t 15)%float) = true.
Proof.
  intros Pt.
  destruct (100 <? b)%float; [ | destruct (30 <? b)%float];
    apply base_plus_capped; try reflexivity; try assumption;
    apply mul_units; try assumption; float_const.
Qed.

Lemma lung_probability_eq t b f g :
  DiagnosisResult.probability (computeRisk (DiagnosisInput.mk lung t b f g))
  = Math_min
      (Math_round
         ((if (10 <? b)%float then 60 + Math_min (t * 4) 25
           else if (5 <? b)%float then 35 + Math_min (t * 3) 20
                else 10 + Math_min (t * 2) 15)
          * (if strict_equal g "current" then 1.8
             else if strict_equal g "former" then 1.3 else 1))%float) 98.
Proof.
  rewrite probability_eq. unfold switch_probability. cbv zeta.
  simpl DiagnosisInput.cancerType. simpl DiagnosisInput.tumorSize.
  simpl DiagnosisInput.biomarker1. simpl DiagnosisInput.additionalFactor.
  destruct (10 <? b)%float; [reflexivity | ]. destruct (5 <? b)%float; reflexivity.
Qed.

Lemma breast_probability_eq t b f g :
  DiagnosisResult.probability (computeRisk (DiagnosisInput.mk breast t b f g))
  = Math_min
      (Math_round
         ((if (100 <? b)%float then 70 + Math_min (t * 3) 20
           else if (30 <? b)%float then 40 + Math_min (t * 2) 25
                else 12 + Math_min t 15)
          * (if strict_equal f "positive" then 1.4 else 1))%float) 98.
Proof.
  rewrite probability_eq. unfold switch_probability. cbv zeta.
  simpl DiagnosisInput.cancerType. simpl DiagnosisInput.tumorSize.
  simpl DiagnosisInput.biomarker1. simpl DiagnosisInput.biomarker2.
  destruct (100 <? b)%float; [reflexivity | ]. destruct (30 <? b)%float; reflexivity.
Qed.

Lemma factor_mono x k1 k2 :
  nonneg x = true ->
  nonneg k1 = true /\ 2 ^ 1074 <= units k1 < 2 ^ 2098 ->
  nonneg k2 = true /\ 2 ^ 1074 <= units k2 < 2 ^ 2098 ->
  units k1 <= units k2 ->
  (Math_min (Math_round (x * k1)) 98 <=? Math_min (Math_round (x * k2)) 98)%float = true.
Proof.
  intros Px [P1 H1] [P2 H2] H. apply capped_round_mono.
  - apply mul_units; assumption.
  - apply mul_units; assumption.
  - apply mul_mono_r; assumption.
Qed.

(** X28: with the other fields fixed and a tumor size above zero, the
    lung probability with any [additionalFactor] is at least the one
    without it and at most the one of "current", "former" giving at most
    what "current" gives; the breast probability with any [biomarker2] is
    at least the one without it and at most the one of "positive". *)
Theorem multipliers_never_lower_the_probability
  (tumorSize biomarker1 : float) (biomarker2 additionalFactor : JsField)
  (Hpos : (0 <? tumorSize)%float = true) :
  let p c b2 af :=
    DiagnosisResult.probability
      (computeRisk (DiagnosisInput.mk c tumorSize biomarker1 b2 af)) in
  (p lung biomarker2 Undefined <=? p lung biomarker2 additionalFactor)%float = true
  /\ (p lung biomarker2 additionalFactor <=? p lung biomarker2 (Str "current"))%float = true
  /\ (p lung biomarker2 (Str "former") <=? p lung biomarker2 (Str "current"))%float = true
  /\ (p breast Undefined additionalFactor <=? p breast biomarker2 additionalFactor)%float = true
  /\ (p breast biomarker2 additionalFactor <=? p breast (Str "positive") additionalFactor)%float
     = true.
Proof.
  apply nonneg_of_ltb_0 in Hpos. destruct Hpos as [Pt _].
  pose proof (lung_base_nonneg tumorSize biomarker1 Pt) as Pl.
  pose proof (breast_base_nonneg tumorSize biomarker1 Pt) as Pb.
  intros p. subst p. cbv beta. rewrite !lung_probability_eq, !breast_probability_eq.
  pose proof (smokingMultiplier_cases additionalFactor) as Hs. cbv zeta in Hs.
  pose proof (her2Multiplier_cases biomarker2) as Hh. cbv zeta in Hh.
  assert (K1 : nonneg 1 = true /\ 2 ^ 1074 <= units 1 < 2 ^ 2098) by (split; float_const).
  assert (K18 : nonneg 1.8 = true /\ 2 ^ 1074 <= units 1.8 < 2 ^ 2098) by (split; float_const).
  assert (K13 : nonneg 1.3 = true /\ 2 ^ 1074 <= units 1.3 < 2 ^ 2098) by (split; float_const).
  assert (K14 : nonneg 1.4 = true /\ 2 ^ 1074 <= units 1.4 < 2 ^ 2098) by (split; float_const).
  change (strict_equal Undefined "current") with false.
  change (strict_equal Undefined "former") with false.
  change (strict_equal Undefined "positive") with false.
  change (strict_equal (Str "current") "current") with true.
  change (strict_equal (Str "former") "current") with false.
  change (strict_equal (Str "former") "former") with true.
  change (strict_equal (Str "positive") "positive") with true.
  cbv iota.
  repeat split.
  - apply factor_mono; try assumption.
    destruct (strict_equal additionalFactor "current");
      [ | destruct (strict_equal additionalFactor "former")]; float_const.
  - apply factor_mono; try assumption.
    destruct (strict_equal additionalFactor "current");
      [ | destruct (strict_equal additionalFactor "former")]; float_const.
  - apply factor_mono; try assumption. float_const.
  - apply factor_mono; try assumption.
    destruct (strict_equal biomarker2 "positive"); float_const.
  - apply factor_mono; try assumption.
    destruct (strict_equal biomarker2 "positive"); float_const.
Qed.

(** X28 (witness): tumor size 2 and a first biomarker of 8. *)
Lemma multipliers_never_lower_the_probability_witness :
  let p c b2 af :=
    DiagnosisResult.probability (computeRisk (DiagnosisInput.mk c 2 8 b2 af)) in
  (p lung Undefined Undefined <=? p lung Undefined (Str "former"))%float = true
  /\ (p lung Undefined (Str "former") <=? p lung Undefined (Str "current"))%float = true
  /\ (p lung Undefined (Str "former") <=? p lung Undefined (Str "current"))%float = true
  /\ (p breast Undefined (Str "former") <=? p breast Undefined (Str "former"))%float = true
  /\ (p breast Undefined (Str "former") <=? p breast (Str "positive") (Str "former"))%float
     = true.
Proof.
  apply (multipliers_never_lower_the_probability 2 8 Undefined (Str "former")).
  reflexivity.
Defined.

(** ** The outer bands *)

(** The risk level the handler sends is read off the probability. *)
Lemma riskLevel_eq data :
  DiagnosisResult.riskLevel (computeRisk data)
  = let p := DiagnosisResult.probability (computeRisk data) in
    if (70 <=? p)%float then "High" else if (40 <=? p)%float then "Moderate" else "Low".
Proof.
  cbv zeta. rewrite probability_eq. unfold computeRisk.
  destruct (70 <=? Math_min (Math_round (switch_probability data)) 98)%float;
    [reflexivity | ].
  destruct (40 <=? Math_min (Math_round (switch_probability data)) 98)%float;
    reflexivity.
Qed.

(** A raw score of at least [n] gives a probability of at least [n], for
    [n] up to the cap. *)
Lemma probability_ge n x :
  nonneg x = true -> 0 <= n <= 98 -> n * 2 ^ 1074 <= units x ->
  nonneg (Math_min (Math_round x) 98) = true
  /\ n * 2 ^ 1074 <= units (Math_min (Math_round x) 98).
Proof.
  intros Px Hn H.
  destruct (Math_round_units x Px) as [Pr _].
  pose proof (Math_round_ge n x Px ltac:(lia) H) as Hr.
  destruct (Math_min_units (Math_round x) 98 Pr eq_refl) as [Pm Em].
  split; [assumption | ]. rewrite Em.
  change (units 98) with (98 * 2 ^ 1074).
  pose proof (pow2_pos 1074 ltac:(lia)). nia.
Qed.

(** A raw score below [n - 1/2] gives a probability below [n]. *)
Lemma probability_lt n x :
  nonneg x = true -> 0 < n <= 98 -> 2 * units x < (2 * n - 1) * 2 ^ 1074 ->
  nonneg (Math_min (Math_round x) 98) = true
  /\ units (Math_min (Math_round x) 98) < n * 2 ^ 1074.
Proof.
  intros Px Hn H.
  destruct (Math_round_units x Px) as [Pr Er].
  destruct (Math_min_units (Math_round x) 98 Pr eq_refl) as [Pm Em].
  split; [assumption | ]. rewrite Em, Er.
  pose proof (pow2_pos 1074 ltac:(lia)) as HU.
  pose proof (units_nonneg x) as Hx.
  assert (Hcap : units x < 2 ^ 2098).
  { assert (H8 : 2 ^ 1074 * 2 ^ 8 <= 2 ^ 2098)
      by (rewrite <- Z.pow_add_r by lia; apply pow2_le; lia).
    change (2 ^ 8) with 256 in H8. nia. }
  destruct (Z.ltb_spec (units x) (2 ^ 2098)); [ | lia].
  assert (Hq : roundZ (units x) < n).
  { unfold roundZ. change (2 ^ 1075) with (2 * 2 ^ 1074).
    apply Z.div_lt_upper_bound; [lia | ]. nia. }
  apply Z.min_lt_iff. left. apply Z.mul_lt_mono_pos_r; [assumption | lia].
Qed.

(** A number above a bound is above every smaller positive bound. *)
Lemma ltb_bound_trans c1 c2 b :
  nonneg c1 = true -> nonneg c2 = true -> 0 < units c2 -> units c1 <= units c2 ->
  (c2 <? b)%float = true -> (c1 <? b)%float = true.
Proof.
  intros P1 P2 H2 H12 H.
  destruct (nonneg_of_leb c2 b P2 H2 (ltb_leb c2 b H)) as [Pb _].
  rewrite (ltb_units c2 b P2 Pb) in H. apply Z.ltb_lt in H.
  rewrite (ltb_units c1 b P1 Pb). apply Z.ltb_lt. lia.
Qed.

(** X29: on a valid input of the liver type with an AFP above 400, or of
    the breast type with a CA 15-3 above 100, the risk level is "High"
    whatever the tumor size and the other fields are. *)
Theorem top_band_is_high_risk (data : DiagnosisInput.t)
  (Hvalid : valid_input data)
  (Htop : (DiagnosisInput.cancerType data = liver
           /\ (400 <? DiagnosisInput.biomarker1 data)%float = true)
          \/ (DiagnosisInput.cancerType data = breast
              /\ (100 <? DiagnosisInput.biomarker1 data)%float = true)) :
  DiagnosisResult.riskLevel (computeRisk data) = "High".
Proof.
  destruct Hvalid as [Ht _]. apply nonneg_of_ltb_0 in Ht. destruct Ht as [Pt _].
  assert (P3 : nonneg (DiagnosisInput.tumorSize data * 3) = true)
    by (apply mul_units; [assumption | float_const ..]).
  assert (H : nonneg (switch_probability data) = true
              /\ 70 * 2 ^ 1074 <= units (switch_probability data)).
  { unfold switch_probability. destruct Htop as [[-> ->] | [-> ->]]; cbv zeta.
    - destruct (base_plus_capped 75 (DiagnosisInput.tumorSize data * 3) 20 eq_refl P3 eq_refl)
        as [Q H].
      split; [exact Q | ]. apply (Z.le_trans _ (units 75)); [float_const | exact H].
    - destruct (base_plus_capped 70 (DiagnosisInput.tumorSize data * 3) 20 eq_refl P3 eq_refl)
        as [Q H].
      pose proof (her2Multiplier_cases (DiagnosisInput.biomarker2 data)) as [Pm Hm].
      cbv zeta in Pm, Hm.
      destruct (times_multiplier _ _ Q Pm Hm) as [Q' H'].
      split; [exact Q' | ]. apply (Z.le_trans _ (units 70)); [float_const | lia]. }
  destruct H as [Praw Hraw].
  destruct (probability_ge 70 _ Praw ltac:(lia) Hraw) as [Pp Hp].
  rewrite riskLevel_eq. cbv zeta. rewrite probability_eq.
  rewrite (leb_units 70 _ eq_refl Pp).
  change (units 70) with (70 * 2 ^ 1074).
  apply Z.leb_le in Hp. rewrite Hp. reflexivity.
Qed.

(** X29 (witness): the liver example of the specification. *)
Lemma top_band_is_high_risk_witness :
  DiagnosisResult.riskLevel (computeRisk liver_example) = "High".
Proof.
  apply (top_band_is_high_risk liver_example).
  - split; reflexivity.
  - left. split; reflexivity.
Defined.

(** X30: on a valid input in the lowest band of its type (an AFP of at
    most 20, a CEA of at most 5, a CA 15-3 of at most 30) the risk level
    is "Low" whatever the tumor size is, the lung type with the factor
    "current" apart. *)
Theorem bottom_band_is_low_risk (data : DiagnosisInput.t)
  (Hvalid : valid_input data)
  (Hbottom : match DiagnosisInput.cancerType data with
             | liver => (20 <? DiagnosisInput.biomarker1 data)%float = false
             | lung => (5 <? DiagnosisInput.biomarker1 data)%float = false
                       /\ strict_equal (DiagnosisInput.additionalFactor data) "current" = false
             | breast => (30 <? DiagnosisInput.biomarker1 data)%float = false
             end) :
  DiagnosisResult.riskLevel (computeRisk data) = "Low".
Proof.
  destruct Hvalid as [Ht _]. apply nonneg_of_ltb_0 in Ht. destruct Ht as [Pt _].
  assert (P2 : nonneg (DiagnosisInput.tumorSize data * 2) = true)
    by (apply mul_units; [assumption | float_const ..]).
  assert (Hdown : forall c1 c2,
             nonneg c1 = true -> nonneg c2 = true -> 0 < units c2 -> units c1 <= units c2 ->
             (c1 <? DiagnosisInput.biomarker1 data)%float = false ->
             (c2 <? DiagnosisInput.biomarker1 data)%float = false).
  { intros c1 c2 Q1 Q2 H2 H12 H.
    destruct (c2 <? DiagnosisInput.biomarker1 data)%float eqn:E; [ | reflexivity].
    rewrite (ltb_bound_trans c1 c2 _ Q1 Q2 H2 H12 E) in H. discriminate H. }
  assert (H : nonneg (switch_probability data) = true
              /\ units (switch_probability data) <= 38 * 2 ^ 1074).
  { unfold switch_probability. destruct (DiagnosisInput.cancerType data); cbv zeta.
    - rewrite (Hdown 20%float 400%float eq_refl eq_refl ltac:(float_pos) ltac:(float_const) Hbottom).
      rewrite Hbottom.
      split; [apply base_plus_capped; first [assumption | reflexivity] | ].
      apply (Z.le_trans _ (units (15 + 15))); [ | float_const].
      apply base_plus_capped_upper; first [assumption | reflexivity].
    - destruct Hbottom as [Hb Hc].
      rewrite (Hdown 5%float 10%float eq_refl eq_refl ltac:(float_pos) ltac:(float_const) Hb).
      rewrite Hb, Hc.
      destruct (base_plus_capped 10 (DiagnosisInput.tumorSize data * 2) 15 eq_refl P2 eq_refl)
        as [Q _].
      pose proof (base_plus_capped_upper 10 (DiagnosisInput.tumorSize data * 2) 15
                    eq_refl P2 eq_refl) as Hu.
      destruct (strict_equal (DiagnosisInput.additionalFactor data) "former").
      + split; [apply mul_units; [exact Q | float_const ..] | ].
        apply (Z.le_trans _ (units ((10 + 15) * 1.3))); [ | float_const].
        apply mul_mono; [exact Q | float_const .. | exact Hu].
      + split; [apply mul_units; [exact Q | float_const ..] | ].
        apply (Z.le_trans _ (units ((10 + 15) * 1))); [ | float_const].
        apply mul_mono; [exact Q | float_const .. | exact Hu].
    - rewrite (Hdown 30%float 100%float eq_refl eq_refl ltac:(float_pos) ltac:(float_const) Hbottom).
      rewrite Hbottom.
      destruct (base_plus_capped 12 (DiagnosisInput.tumorSize data) 15 eq_refl Pt eq_refl)
        as [Q _].
      pose proof (base_plus_capped_upper 12 (DiagnosisInput.tumorSize data) 15
                    eq_refl Pt eq_refl) as Hu.
      destruct (strict_equal (DiagnosisInput.biomarker2 data) "positive").
      + split; [apply mul_units; [exact Q | float_const ..] | ].
        apply (Z.le_trans _ (units ((12 + 15) * 1.4))); [ | float_const].
        apply mul_mono; [exact Q | float_const .. | exact Hu].
      + split; [apply mul_units; [exact Q | float_const ..] | ].
        apply (Z.le_trans _ (units ((12 + 15) * 1))); [ | float_const].
        apply mul_mono; [exact Q | float_const .. | exact Hu]. }
  destruct H as [Praw Hraw].
  destruct (probability_lt 40 _ Praw ltac:(lia) ltac:(lia)) as [Pp Hp].
  rewrite riskLevel_eq. cbv zeta. rewrite probability_eq.
  rewrite (leb_units 70 _ eq_refl Pp), (leb_units 40 _ eq_refl Pp).
  change (units 70) with (70 * 2 ^ 1074). change (units 40) with (40 * 2 ^ 1074).
  pose proof (pow2_pos 1074 ltac:(lia)).
  destruct (Z.leb_spec (70 * 2 ^ 1074)
              (units (Math_min (Math_round (switch_probability data)) 98))); [lia | ].
  destruct (Z.leb_spec (40 * 2 ^ 1074)
              (units (Math_min (Math_round (switch_probability data)) 98))); [lia | ].
  reflexivity.
Qed.

(** X30 (witness): breast with a tumor size of 2 and a CA 15-3 of 20. *)
Lemma bottom_band_is_low_risk_witness :
  DiagnosisResult.riskLevel (computeRisk breast_low_example) = "Low".
Proof.
  apply (bottom_band_is_low_risk breast_low_example).
  - split; reflexivity.
  - reflexivity.
Defined.
